(** * Domain lifecycle of the DDS C binding: [dds_domain.c]

    A shallow embedding of [src/core/ddsc/src/dds_domain.c]: the domain
    registry kept in [dds_global], domain initialisation with its unwinding
    labels, the creation protocol, teardown, and the type-resolution wait.

    The collaborators that live outside that file (entity/handle primitive,
    configuration parser, RTPS runtime, thread monitor, type library) appear
    in two ways: every call is recorded as an [event] on a chronological
    trace, and every result the C code branches on is supplied by an
    [ext_results] record, so that each function below is total and runs. *)

From Stdlib Require Import ZArith List Bool Lia.
From stdpp Require Import gmap strings list fin_maps.
Import ListNotations.

Local Open Scope Z_scope.

(** ** Constants of the public headers *)

(** Modelled from the spec: the result codes of the shared error taxonomy.
    [dds_domain.c] takes them from [dds/ddsrt/retcode.h]; success is zero
    and every error code is negative. *)
Definition DDS_RETCODE_OK : Z := 0.
Definition DDS_RETCODE_ERROR : Z := -1.
Definition DDS_RETCODE_BAD_PARAMETER : Z := -3.
Definition DDS_RETCODE_PRECONDITION_NOT_MET : Z := -4.
Definition DDS_RETCODE_OUT_OF_RESOURCES : Z := -5.
Definition DDS_RETCODE_TIMEOUT : Z := -10.
Definition DDS_RETCODE_NO_DATA : Z := -11.
Definition DDS_RETCODE_ILLEGAL_OPERATION : Z := -12.

(** Modelled from the spec: the sentinel domain id.  [dds_domainid_t] is
    [uint32_t] and the sentinel of [dds/dds.h] is [0xffffffffu]. *)
Definition DDS_DOMAIN_DEFAULT : Z := 4294967295.

(** Modelled from the spec: the maximum duration sentinel and the "never"
    instant.  [dds_duration_t] and [dds_time_t] are [int64_t] and both
    sentinels of [dds/ddsrt/time.h] are [INT64_MAX]. *)
Definition INT64_MIN : Z := - 2 ^ 63.
Definition INT64_MAX : Z := 2 ^ 63 - 1.
Definition DDS_INFINITY : Z := INT64_MAX.
Definition DDS_NEVER : Z := INT64_MAX.

(** Wrap-around of the two machine integer types the file computes with. *)
Definition wrap_u32 (z : Z) : Z := z mod 2 ^ 32.
Definition wrap_i64 (z : Z) : Z := (z + 2 ^ 63) mod 2 ^ 64 - 2 ^ 63.
Definition is_i64 (z : Z) : Prop := INT64_MIN <= z <= INT64_MAX.

(** ** Calls into the collaborators, as trace events *)

Inductive event : Type :=
  (* registry mutex and condition variable of dds_global *)
  | EvGlobalLock | EvGlobalUnlock | EvGlobalCondWait | EvGlobalCondBroadcast
  (* entity primitive *)
  | EvEntityInit | EvIidGen | EvEntityInitComplete | EvHandleDelete
  | EvEntityLock | EvEntityUnlock | EvIsClosed | EvAddRef | EvRepin
  | EvRegisterChild | EvFinalDeinit | EvEntityPin | EvEntityUnpin
  (* allocator and registry tree *)
  | EvAlloc | EvFree | EvAvlInsert (id : Z) | EvAvlDelete (id : Z)
  (* configuration parser *)
  | EvConfigInit | EvConfigFini
  (* RTPS runtime *)
  | EvRtpsConfigPrep | EvRtpsInit | EvRtpsStart | EvRtpsStop | EvRtpsFini
  (* shared-memory monitor *)
  | EvShmMonitorInit | EvShmMonitorDestroy
  (* thread liveliness monitor *)
  | EvThreadmonNew | EvThreadmonStart | EvThreadmonStop | EvThreadmonFree
  | EvThreadmonRegister | EvThreadmonUnregister
  (* built-in topics *)
  | EvBuiltinInit | EvBuiltinFini
  (* process initialisation *)
  | EvDdsInit | EvUnpinDropRefGlobal
  (* type library *)
  | EvTypelibLock | EvTypelibUnlock | EvTypeLookup | EvSertypeRef
  | EvGetTypeobj | EvTlRequest (include_deps : bool)
  | EvTime | EvTypelibCondWaituntil (abstimeout : Z).

(** ** Data model *)

(** The fields of [struct ddsi_config] this file reads or writes. *)
Record ddsi_config : Type := mk_config {
  domainId : Z;
  liveliness_monitoring : bool;
  enable_shm : bool;
  whc_batch : bool
}.

(** Modelled from the spec: the entity handle primitive ([dds_entity.c],
    [dds_handles.c]).  An entity carries its handle, the closed flag read by
    [dds_handle_is_closed], and counters for the references and pins this
    file adds through [dds_entity_add_ref_locked] and [dds_handle_repin]. *)
Record dds_entity : Type := mk_entity {
  m_hdl : Z;
  m_closed : bool;
  m_implicit : bool;
  m_refs : nat;
  m_pins : nat;
  m_init_complete : bool
}.

(** Modelled from the spec: a type record of the type library
    ([ddsi_typelib.c]): optional cached sertype, resolution status of the
    type itself and of its dependencies, optional type-object payload. *)
Record ddsi_type : Type := mk_type {
  t_sertype : option nat;
  t_resolved : bool;
  t_deps_resolved : bool;
  t_typeobj : option nat
}.

(** [struct dds_domain]; [gv_config] is [gv.config], [gv_typelib] the type
    library inside [gv], keyed by the hash of the type identifier.  [cfgst]
    is a pointer: [None] is [NULL]. *)
Record dds_domain : Type := mk_domain {
  m_entity : dds_entity;
  m_id : Z;
  cfgst : option nat;
  gv_config : ddsi_config;
  m_shm_monitor : bool;
  gv_typelib : gmap N ddsi_type
}.

(** The object behind [dds_global.threadmon].  A freed object stays
    observable through a pointer that was not reset. *)
Inductive ddsi_threadmon : Type :=
  | TM_created | TM_running | TM_stopped | TM_freed.

(** [dds_global]: the registry tree [m_domains] keyed by [m_id], the
    monitor reference count ([uint32_t]) and the monitor pointer. *)
Record dds_global_state : Type := mk_global {
  m_domains : gmap Z dds_domain;
  threadmon_count : Z;
  threadmon : option ddsi_threadmon
}.

(** The state a function runs in: [dds_global] and the trace so far. *)
Record world : Type := mk_world {
  glob : dds_global_state;
  trace : list event
}.

Definition emit (e : event) (w : world) : world :=
  mk_world (glob w) (trace w ++ [e]).

Definition set_m_domains (t : gmap Z dds_domain) (w : world) : world :=
  mk_world (mk_global t (threadmon_count (glob w)) (threadmon (glob w))) (trace w).

Definition set_threadmon_count (c : Z) (w : world) : world :=
  mk_world (mk_global (m_domains (glob w)) c (threadmon (glob w))) (trace w).

Definition set_threadmon (p : option ddsi_threadmon) (w : world) : world :=
  mk_world (mk_global (m_domains (glob w)) (threadmon_count (glob w)) p) (trace w).

(** [struct config_source]: a tagged union of textual and raw
    configuration.  The text is a [const char *], [None] being [NULL]. *)
Inductive config_source : Type :=
  | CFGKIND_XML (xml : option string)
  | CFGKIND_RAW (raw : ddsi_config).

(** Results of the collaborators during one creation call. *)
Record ext_results : Type := mk_ext {
  r_dds_init : Z;
  r_entity_init : Z;
  r_config_init : option string -> Z -> option (nat * ddsi_config);
  r_rtps_config_prep : Z;
  r_rtps_init : Z;
  r_threadmon_new : bool;
  r_threadmon_start : Z;
  r_rtps_start : Z
}.

(** A call either returns or stops at a failed [assert]. *)
Inductive outcome (A : Type) : Type :=
  | Returned (a : A)
  | AssertFailed.
Arguments Returned {A} a.
Arguments AssertFailed {A}.

(** ** The thread monitor interface

    Modelled from the spec: [create], [start], [stop], [free] of the
    liveliness monitor ([ddsi_threadmon.c]), acting on the object behind
    the pointer. *)

Definition ddsi_threadmon_new (ok : bool) : option ddsi_threadmon :=
  if ok then Some TM_created else None.

Definition ddsi_threadmon_start (rc : Z) (p : option ddsi_threadmon)
  : option ddsi_threadmon :=
  match p with
  | Some _ => if rc <? 0 then p else Some TM_running
  | None => None
  end.

Definition ddsi_threadmon_stop (p : option ddsi_threadmon)
  : option ddsi_threadmon :=
  match p with Some _ => Some TM_stopped | None => None end.

Definition ddsi_threadmon_free (p : option ddsi_threadmon)
  : option ddsi_threadmon :=
  match p with Some _ => Some TM_freed | None => None end.

(** The monitor object exists: the pointer is set and its target has not
    been freed. *)
Definition threadmon_present (g : dds_global_state) : bool :=
  match threadmon g with
  | Some TM_freed | None => false
  | Some _ => true
  end.

(** ** Field updates of a domain *)

Definition set_entity (e : dds_entity) (d : dds_domain) : dds_domain :=
  mk_domain e (m_id d) (cfgst d) (gv_config d) (m_shm_monitor d) (gv_typelib d).

Definition set_m_id (i : Z) (d : dds_domain) : dds_domain :=
  mk_domain (m_entity d) i (cfgst d) (gv_config d) (m_shm_monitor d) (gv_typelib d).

Definition set_cfgst (c : option nat) (d : dds_domain) : dds_domain :=
  mk_domain (m_entity d) (m_id d) c (gv_config d) (m_shm_monitor d) (gv_typelib d).

Definition set_gv_config (c : ddsi_config) (d : dds_domain) : dds_domain :=
  mk_domain (m_entity d) (m_id d) (cfgst d) c (m_shm_monitor d) (gv_typelib d).

Definition set_m_shm_monitor (b : bool) (d : dds_domain) : dds_domain :=
  mk_domain (m_entity d) (m_id d) (cfgst d) (gv_config d) b (gv_typelib d).

Definition set_domainId (i : Z) (c : ddsi_config) : ddsi_config :=
  mk_config i (liveliness_monitoring c) (enable_shm c) (whc_batch c).

(** [dds_alloc] returns zeroed memory. *)
Definition zero_config : ddsi_config := mk_config 0 false false false.
Definition zero_entity : dds_entity := mk_entity 0 false false 0 0 false.
Definition dds_alloc : dds_domain :=
  mk_domain zero_entity 0 None zero_config false ∅.

(** Modelled from the spec: [dds_entity_init] on success leaves an open
    entity holding the new handle, not yet marked complete. *)
Definition dds_entity_init (domh : Z) (implicit : bool) : dds_entity :=
  mk_entity domh false implicit 0 0 false.

(** Modelled from the spec: the remaining operations of the entity
    primitive used here: marking initialisation complete, adding an
    ownership reference, re-establishing a pin, reading the closed flag. *)
Definition dds_entity_init_complete (e : dds_entity) : dds_entity :=
  mk_entity (m_hdl e) (m_closed e) (m_implicit e) (m_refs e) (m_pins e) true.

Definition dds_entity_add_ref_locked (e : dds_entity) : dds_entity :=
  mk_entity (m_hdl e) (m_closed e) (m_implicit e) (S (m_refs e)) (m_pins e)
            (m_init_complete e).

Definition dds_handle_repin (e : dds_entity) : dds_entity :=
  mk_entity (m_hdl e) (m_closed e) (m_implicit e) (m_refs e) (S (m_pins e))
            (m_init_complete e).

Definition dds_handle_is_closed (e : dds_entity) : bool := m_closed e.

(** ** [dds_domain_init] *)

(** What [dds_domain_init] hands back: the return value, the domain object
    as it was left, and the world. *)
Definition init_result : Type := (Z * dds_domain * world)%type.

(** The unwinding labels.  Each one runs its own statements and falls
    through to the next, as in the C text. *)

Definition fail_config (domh : Z) (domain : dds_domain) (w : world)
  : init_result :=
  (domh, domain, emit EvHandleDelete w).

Definition fail_rtps_config (domh : Z) (domain : dds_domain) (w : world)
  : init_result :=
  let w := match cfgst domain with
           | Some _ => emit EvConfigFini w
           | None => w
           end in
  fail_config domh domain w.

Definition fail_rtps_init (domh : Z) (domain : dds_domain) (w : world)
  : init_result :=
  fail_rtps_config domh domain w.

Definition fail_threadmon_new (domh : Z) (domain : dds_domain) (w : world)
  : init_result :=
  fail_rtps_init domh domain (emit EvRtpsFini w).

Definition fail_threadmon_start (domh : Z) (domain : dds_domain) (w : world)
  : init_result :=
  let w :=
    if liveliness_monitoring (gv_config domain) then
      let w := set_threadmon_count
                 (wrap_u32 (threadmon_count (glob w) - 1)) w in
      if threadmon_count (glob w) =? 0 then
        let w := emit EvThreadmonFree
                   (set_threadmon (ddsi_threadmon_free (threadmon (glob w))) w) in
        set_threadmon None w
      else w
    else w in
  fail_threadmon_new domh domain w.

Definition fail_rtps_start (domh : Z) (domain : dds_domain) (w : world)
  : init_result :=
  let w := emit EvBuiltinFini w in
  let w :=
    if liveliness_monitoring (gv_config domain)
       && (threadmon_count (glob w) =? 1) then
      emit EvThreadmonStop
        (set_threadmon (ddsi_threadmon_stop (threadmon (glob w))) w)
    else w in
  fail_threadmon_start domh domain w.

(** Lines 122-186: everything after the configuration switch. *)
Definition dds_domain_init_tail (domh : Z) (domain : dds_domain)
    (x : ext_results) (w : world) : init_result :=
  let domain := set_m_id (domainId (gv_config domain)) domain in
  let w := emit EvRtpsConfigPrep w in
  if negb (r_rtps_config_prep x =? 0) then
    fail_rtps_config DDS_RETCODE_ERROR domain w
  else
  let w := emit EvRtpsInit w in
  if r_rtps_init x <? 0 then
    fail_rtps_init DDS_RETCODE_ERROR domain w
  else
  (* #ifdef DDS_HAS_SHM *)
  let '(domain, w) :=
    if enable_shm (gv_config domain) then
      (set_m_shm_monitor true domain, emit EvShmMonitorInit w)
    else (domain, w) in
  (* the steps common to every path once the monitor is in place *)
  let finish (w : world) : init_result :=
    let w := emit EvBuiltinInit w in
    let w := emit EvRtpsStart w in
    if r_rtps_start x <? 0 then
      fail_rtps_start DDS_RETCODE_ERROR domain w
    else
    let w := if liveliness_monitoring (gv_config domain)
             then emit EvThreadmonRegister w else w in
    let w := emit EvEntityInitComplete w in
    (domh, set_entity (dds_entity_init_complete (m_entity domain)) domain, w)
  in
  if liveliness_monitoring (gv_config domain) then
    let old := threadmon_count (glob w) in
    let w := set_threadmon_count (wrap_u32 (old + 1)) w in
    if old =? 0 then
      let w := emit EvThreadmonNew
                 (set_threadmon (ddsi_threadmon_new (r_threadmon_new x)) w) in
      match threadmon (glob w) with
      | None => fail_threadmon_new DDS_RETCODE_OUT_OF_RESOURCES domain w
      | Some _ =>
          let w := emit EvThreadmonStart
                     (set_threadmon
                        (ddsi_threadmon_start (r_threadmon_start x)
                           (threadmon (glob w))) w) in
          if r_threadmon_start x <? 0 then
            fail_threadmon_start DDS_RETCODE_ERROR domain w
          else finish w
      end
    else finish w
  else finish w.

Definition dds_domain_init (domain : dds_domain) (domain_id : Z)
    (config : config_source) (implicit : bool) (x : ext_results) (w : world)
  : outcome init_result :=
  let domh := r_entity_init x in
  let w := emit EvEntityInit w in
  if domh <? 0 then Returned (domh, domain, w) else
  let domain := set_entity (dds_entity_init domh implicit) domain in
  let w := emit EvIidGen w in
  match config with
  | CFGKIND_RAW raw =>
      let domain := set_cfgst None domain in
      let domain := set_gv_config raw domain in
      let domain :=
        if negb (domain_id =? DDS_DOMAIN_DEFAULT) then
          set_gv_config (set_domainId domain_id (gv_config domain)) domain
        else domain in
      Returned (dds_domain_init_tail domh domain x w)
  | CFGKIND_XML xml =>
      let w := emit EvConfigInit w in
      match r_config_init x xml domain_id with
      | None =>
          Returned (fail_config DDS_RETCODE_ERROR (set_cfgst None domain) w)
      | Some (st, cfg) =>
          let domain := set_gv_config cfg (set_cfgst (Some st) domain) in
          if (domain_id =? DDS_DOMAIN_DEFAULT)
             || (domain_id =? domainId (gv_config domain)) then
            Returned (dds_domain_init_tail domh domain x w)
          else AssertFailed
      end
  end.

(** ** The registry tree

    Modelled from the spec: the ordered collection of domains keyed by
    domain id, with find, find-minimum, insert and delete ([ddsrt/avl.c]).
    [dds_global.m_domains] is an AVL tree whose key is the [m_id] field of
    the node ([dds_domaintree_def]); it is kept here as a finite map from
    the key to the domain object. *)

Definition dds_domain_find_locked (id : Z) (g : dds_global_state)
  : option dds_domain :=
  m_domains g !! id.

Definition min_binding (kv : Z * dds_domain) (acc : option (Z * dds_domain))
  : option (Z * dds_domain) :=
  match acc with
  | Some kv' => if fst kv <? fst kv' then Some kv else acc
  | None => Some kv
  end.

Definition ddsrt_avl_find_min (t : gmap Z dds_domain) : option dds_domain :=
  snd <$> foldr min_binding None (map_to_list t).

Definition ddsrt_avl_insert (dom : dds_domain) (t : gmap Z dds_domain)
  : gmap Z dds_domain :=
  <[m_id dom := dom]> t.

Definition ddsrt_avl_delete (dom : dds_domain) (t : gmap Z dds_domain)
  : gmap Z dds_domain :=
  delete (m_id dom) t.

(** Every node sits under its own [m_id]. *)
Definition registry_wf (g : dds_global_state) : Prop :=
  ∀ k d, m_domains g !! k = Some d → m_id d = k.

(** ** [dds_domain_create_internal_xml_or_raw] *)

(** A creation call returns ([CR_done], with what it stored in
    [*domain_out], if anything), is parked in [ddsrt_cond_wait] on
    [dds_global.m_cond] ([CR_wait]), or stops at a failed [assert]. *)
Inductive create_result : Type :=
  | CR_done (domh : Z) (domain_out : option dds_domain) (w : world)
  | CR_wait (w : world)
  | CR_abort.

(** Lines 222-225: the value of [dom] after the lookup. *)
Definition looked_up_domain (id : Z) (g : dds_global_state)
  : option dds_domain :=
  if negb (id =? DDS_DOMAIN_DEFAULT) then dds_domain_find_locked id g
  else ddsrt_avl_find_min (m_domains g).

(** One pass from the label [retry] to the return or to the wait. *)
Definition create_attempt (id : Z) (implicit : bool) (config : config_source)
    (x : ext_results) (w : world) : create_result :=
  match looked_up_domain id (glob w) with
  | Some dom =>
      if negb implicit then
        CR_done DDS_RETCODE_PRECONDITION_NOT_MET None (emit EvGlobalUnlock w)
      else
        let w := emit EvEntityLock w in
        let w := emit EvIsClosed w in
        if dds_handle_is_closed (m_entity dom) then
          let w := emit EvEntityUnlock w in
          CR_wait (emit EvGlobalCondWait w)
        else
          let dom := set_entity (dds_entity_add_ref_locked (m_entity dom)) dom in
          let w := emit EvAddRef w in
          let dom := set_entity (dds_handle_repin (m_entity dom)) dom in
          let w := emit EvRepin w in
          (* [dom] points into the tree: the node itself was updated *)
          let w := set_m_domains (<[m_id dom := dom]> (m_domains (glob w))) w in
          let domh := m_hdl (m_entity dom) in
          let w := emit EvEntityUnlock w in
          CR_done domh (Some dom) (emit EvGlobalUnlock w)
  | None =>
      let w := emit EvAlloc w in
      match dds_domain_init dds_alloc id config implicit x w with
      | AssertFailed => CR_abort
      | Returned (domh, dom, w) =>
          if domh <? 0 then
            let w := emit EvFree w in
            CR_done domh None (emit EvGlobalUnlock w)
          else
            let w := emit EvEntityLock w in
            let '(dom, w) :=
              if implicit then
                (set_entity
                   (dds_handle_repin
                      (dds_entity_add_ref_locked (m_entity dom))) dom,
                 emit EvRepin
                   (emit EvAddRef
                      (emit EvRegisterChild (emit (EvAvlInsert (m_id dom)) w))))
              else
                (dom, emit EvRegisterChild (emit (EvAvlInsert (m_id dom)) w)) in
            let w := set_m_domains (ddsrt_avl_insert dom (m_domains (glob w))) w in
            let domh := m_hdl (m_entity dom) in
            let w := emit EvEntityUnlock w in
            CR_done domh (Some dom) (emit EvGlobalUnlock w)
      end
  end.

(** The [goto retry] loop.  While the caller sleeps in [ddsrt_cond_wait]
    the registry mutex is released and other threads run; [wakeups] lists
    the [dds_global] the caller finds each time it wakes up holding the
    mutex again. *)
Fixpoint create_retry (id : Z) (implicit : bool) (config : config_source)
    (x : ext_results) (wakeups : list dds_global_state) (w : world)
  : create_result :=
  match create_attempt id implicit config x w with
  | CR_wait w' =>
      match wakeups with
      | [] => CR_wait w'
      | g :: rest =>
          create_retry id implicit config x rest (mk_world g (trace w'))
      end
  | r => r
  end.

Definition dds_domain_create_internal_xml_or_raw (id : Z) (implicit : bool)
    (config : config_source) (x : ext_results)
    (wakeups : list dds_global_state) (w : world) : create_result :=
  create_retry id implicit config x wakeups (emit EvGlobalLock w).

Definition dds_domain_create_internal (id : Z) (implicit : bool)
    (config_xml : option string) (x : ext_results)
    (wakeups : list dds_global_state) (w : world) : create_result :=
  dds_domain_create_internal_xml_or_raw id implicit (CFGKIND_XML config_xml)
    x wakeups w.

(** The public operations return the handle only; [dom] is a local. *)
Definition drop_global_ref (r : create_result) : create_result :=
  match r with
  | CR_done ret _ w => CR_done ret None (emit EvUnpinDropRefGlobal w)
  | r => r
  end.

Definition dds_create_domain (domain : Z) (config_xml : option string)
    (x : ext_results) (wakeups : list dds_global_state) (w : world)
  : create_result :=
  if domain =? DDS_DOMAIN_DEFAULT then
    CR_done DDS_RETCODE_BAD_PARAMETER None w
  else
  let config_xml :=
    match config_xml with None => Some EmptyString | Some s => Some s end in
  let w := emit EvDdsInit w in
  if r_dds_init x <? 0 then CR_done (r_dds_init x) None w else
  drop_global_ref
    (dds_domain_create_internal_xml_or_raw domain false
       (CFGKIND_XML config_xml) x wakeups w).

Definition dds_create_domain_with_rawconfig (domain : Z)
    (config_raw : option ddsi_config) (x : ext_results)
    (wakeups : list dds_global_state) (w : world) : create_result :=
  if domain =? DDS_DOMAIN_DEFAULT then
    CR_done DDS_RETCODE_BAD_PARAMETER None w
  else
  match config_raw with
  | None => CR_done DDS_RETCODE_BAD_PARAMETER None w
  | Some raw =>
      let w := emit EvDdsInit w in
      if r_dds_init x <? 0 then CR_done (r_dds_init x) None w else
      drop_global_ref
        (dds_domain_create_internal_xml_or_raw domain false
           (CFGKIND_RAW raw) x wakeups w)
  end.

(** ** [dds_domain_free] *)

Definition dds_domain_free (domain : dds_domain) (w : world) : Z * world :=
  let w := emit EvRtpsStop w in
  let w := emit EvBuiltinFini w in
  let w := if liveliness_monitoring (gv_config domain)
           then emit EvThreadmonUnregister w else w in
  (* #ifdef DDS_HAS_SHM *)
  let w := if enable_shm (gv_config domain)
           then emit EvShmMonitorDestroy w else w in
  let w := emit EvRtpsFini w in
  let w := emit EvGlobalLock w in
  let w :=
    if liveliness_monitoring (gv_config domain) then
      let w := set_threadmon_count
                 (wrap_u32 (threadmon_count (glob w) - 1)) w in
      if threadmon_count (glob w) =? 0 then
        let w := emit EvThreadmonStop
                   (set_threadmon (ddsi_threadmon_stop (threadmon (glob w))) w) in
        emit EvThreadmonFree
          (set_threadmon (ddsi_threadmon_free (threadmon (glob w))) w)
      else w
    else w in
  let w := emit (EvAvlDelete (m_id domain))
             (set_m_domains (ddsrt_avl_delete domain (m_domains (glob w))) w) in
  let w := emit EvFinalDeinit w in
  let w := match cfgst domain with
           | Some _ => emit EvConfigFini w
           | None => w
           end in
  let w := emit EvFree w in
  let w := emit EvGlobalCondBroadcast w in
  let w := emit EvGlobalUnlock w in
  (DDS_RETCODE_NO_DATA, w).

(** ** [wait_for_type_resolved] *)

(** Modelled from the spec: a type identifier is the "none" sentinel, a
    content hash, or some other (not hash-based) form ([ddsi_typeinfo.c]). *)
Inductive ddsi_typeid : Type :=
  | TypeIdNone
  | TypeIdHash (h : N)
  | TypeIdOther.

Definition ddsi_typeid_is_none (t : ddsi_typeid) : bool :=
  match t with TypeIdNone => true | _ => false end.

Definition ddsi_typeid_is_hash (t : ddsi_typeid) : bool :=
  match t with TypeIdHash _ => true | _ => false end.

(** Modelled from the spec: looking a type record up by its identifier. *)
Definition ddsi_type_lookup_locked (lib : gmap N ddsi_type) (t : ddsi_typeid)
  : option ddsi_type :=
  match t with TypeIdHash h => lib !! h | _ => None end.

(** Modelled from the spec: the identifier counts as resolved when its own
    type object is known and, if dependencies are asked for, those too. *)
Definition ddsi_type_resolved (t : ddsi_type) (include_deps : bool) : bool :=
  t_resolved t && (negb include_deps || t_deps_resolved t).

(** Modelled from the spec: the cached sertype and the type-object payload
    of a record, each possibly absent. *)
Definition ddsi_type_sertype (t : ddsi_type) : option nat := t_sertype t.
Definition ddsi_type_get_typeobj (t : ddsi_type) : option nat := t_typeobj t.

(** Line 500. *)
Definition abstimeout (tnow timeout : Z) : Z :=
  if wrap_i64 (DDS_INFINITY - timeout) <=? tnow then DDS_NEVER
  else wrap_i64 (tnow + timeout).

(** What the surroundings contribute to one call: the result of
    [dds_entity_pin] and the entity's [m_domain], the result of
    [ddsi_tl_request_type], the clock, the state of the type record when
    the lock is taken again on line 503, and for each
    [ddsrt_cond_waituntil] its result ([false]: the deadline passed)
    together with the state of the record when it returns. *)
Record wft_env : Type := mk_wft_env {
  e_pin : Z;
  e_m_domain : option dds_domain;
  e_tl_request : bool;
  e_tnow : Z;
  e_relocked : ddsi_type;
  e_wakeups : list (bool * ddsi_type)
}.

(** Return code, final contents of [*sertype] and [*type_obj] (the outer
    [None] means the pointer itself was [NULL]), the type library of the
    entity's domain as the call leaves it, and the trace. *)
Record wft_result : Type := mk_wft_result {
  wr_rc : Z;
  wr_sertype : option (option nat);
  wr_type_obj : option (option nat);
  wr_typelib : option (gmap N ddsi_type);
  wr_trace : list event
}.

(** Lines 504-508: the record as the loop leaves it and the waits it made.
    [None]: the caller is still asleep when the recorded wake-ups run out. *)
Fixpoint wait_until_resolved (include_deps : bool) (deadline : Z)
    (cur : ddsi_type) (wakeups : list (bool * ddsi_type))
  : option (ddsi_type * list event) :=
  if ddsi_type_resolved cur include_deps then Some (cur, [])
  else
    match wakeups with
    | [] => None
    | (signalled, cur') :: rest =>
        if negb signalled then Some (cur', [EvTypelibCondWaituntil deadline])
        else
          match wait_until_resolved include_deps deadline cur' rest with
          | Some (cur'', evs) =>
              Some (cur'', EvTypelibCondWaituntil deadline :: evs)
          | None => None
          end
    end.

Definition store_type (t : ddsi_typeid) (cur : ddsi_type)
    (lib : gmap N ddsi_type) : gmap N ddsi_type :=
  match t with TypeIdHash h => <[h := cur]> lib | _ => lib end.

Definition wait_for_type_resolved (type_id : ddsi_typeid) (timeout : Z)
    (sertype type_obj : option (option nat)) (env : wft_env)
  : option wft_result :=
  let include_deps := bool_decide (is_Some sertype) in
  if ddsi_typeid_is_none type_id || negb (ddsi_typeid_is_hash type_id) then
    Some (mk_wft_result DDS_RETCODE_BAD_PARAMETER sertype type_obj None [])
  else
  let tr := [EvEntityPin] in
  if e_pin env <? 0 then
    Some (mk_wft_result (e_pin env) sertype type_obj None tr)
  else
  match e_m_domain env with
  | None =>
      Some (mk_wft_result DDS_RETCODE_ILLEGAL_OPERATION sertype type_obj None
              (tr ++ [EvEntityUnpin]))
  | Some dom =>
      let lib := gv_typelib dom in
      let tr := tr ++ [EvTypelibLock; EvTypeLookup] in
      match ddsi_type_lookup_locked lib type_id with
      | None =>
          Some (mk_wft_result DDS_RETCODE_PRECONDITION_NOT_MET sertype type_obj
                  (Some lib) (tr ++ [EvTypelibUnlock; EvEntityUnpin]))
      | Some type =>
          match sertype, ddsi_type_sertype type with
          | Some _, Some type_st =>
              Some (mk_wft_result DDS_RETCODE_OK (Some (Some type_st)) type_obj
                      (Some lib)
                      (tr ++ [EvSertypeRef; EvTypelibUnlock; EvEntityUnpin]))
          | _, _ =>
              if bool_decide (is_Some type_obj) && ddsi_type_resolved type false
              then
                Some (mk_wft_result DDS_RETCODE_OK sertype
                        (Some (ddsi_type_get_typeobj type)) (Some lib)
                        (tr ++ [EvGetTypeobj; EvTypelibUnlock; EvEntityUnpin]))
              else if timeout =? 0 then
                Some (mk_wft_result DDS_RETCODE_TIMEOUT sertype type_obj
                        (Some lib) (tr ++ [EvTypelibUnlock; EvEntityUnpin]))
              else
              let tr := tr ++ [EvTypelibUnlock; EvTlRequest include_deps] in
              if negb (e_tl_request env) then
                Some (mk_wft_result DDS_RETCODE_PRECONDITION_NOT_MET sertype
                        type_obj (Some lib) (tr ++ [EvEntityUnpin]))
              else
              let tnow := e_tnow env in
              let tr := tr ++ [EvTime] in
              let deadline := abstimeout tnow timeout in
              let sertype :=
                match sertype with Some _ => Some None | None => None end in
              let tr := tr ++ [EvTypelibLock] in
              match wait_until_resolved include_deps deadline (e_relocked env)
                      (e_wakeups env) with
              | None => None
              | Some (cur, waits) =>
                  let tr := tr ++ waits in
                  let '(sertype, type_obj, tr) :=
                    if ddsi_type_resolved cur include_deps then
                      let '(sertype, tr) :=
                        match sertype, ddsi_type_sertype cur with
                        | Some _, Some type_st =>
                            (Some (Some type_st), tr ++ [EvSertypeRef])
                        | _, _ => (sertype, tr)
                        end in
                      match type_obj with
                      | Some _ =>
                          (sertype, Some (ddsi_type_get_typeobj cur),
                           tr ++ [EvGetTypeobj])
                      | None => (sertype, type_obj, tr)
                      end
                    else (sertype, type_obj, tr) in
                  Some (mk_wft_result DDS_RETCODE_OK sertype type_obj
                          (Some (store_type type_id cur lib))
                          (tr ++ [EvTypelibUnlock; EvEntityUnpin]))
              end
          end
      end
  end.

Definition dds_resolve_type (type_id : ddsi_typeid) (timeout : Z)
    (sertype : option (option nat)) (env : wft_env) : option wft_result :=
  wait_for_type_resolved type_id timeout sertype None env.

Definition dds_get_typeobj (type_id : ddsi_typeid) (timeout : Z)
    (type_obj : option (option nat)) (env : wft_env) : option wft_result :=
  match type_obj with
  | None =>
      Some (mk_wft_result DDS_RETCODE_BAD_PARAMETER None None None [])
  | Some _ => wait_for_type_resolved type_id timeout None type_obj env
  end.

(** ** Statements the proofs refer to *)

(** A creation call succeeded: it returned a handle, not an error code. *)
Definition succeeded (r : create_result) : bool :=
  match r with
  | CR_done domh _ _ => 0 <=? domh
  | _ => false
  end.

(** Explicit creation calls for one id, in the order in which they get the
    registry mutex.  Each call brings its configuration, the results of its
    collaborators and its wake-ups. *)
Fixpoint explicit_creates (id : Z)
    (calls : list (config_source * ext_results * list dds_global_state))
    (w : world) : list create_result :=
  match calls with
  | [] => []
  | (config, x, wakeups) :: rest =>
      let r := dds_domain_create_internal_xml_or_raw id false config x wakeups w in
      r :: match r with
           | CR_done _ _ w' => explicit_creates id rest w'
           | _ => []
           end
  end.

Definition count_succeeded (rs : list create_result) : nat :=
  length (filter (λ r, succeeded r = true) rs).

(** The world in which the caller goes to sleep: the entity mutex taken,
    the closed flag read, the entity mutex released, then the wait. *)
Definition parked (w : world) : world :=
  emit EvGlobalCondWait
    (emit EvEntityUnlock (emit EvIsClosed (emit EvEntityLock w))).

(** The teardown order as the specification gives it. *)
Definition teardown_sequence (monitoring shm last_user parsed : bool) (id : Z)
  : list event :=
  [EvRtpsStop; EvBuiltinFini]
  ++ (if monitoring then [EvThreadmonUnregister] else [])
  ++ (if shm then [EvShmMonitorDestroy] else [])
  ++ [EvRtpsFini; EvGlobalLock]
  ++ (if monitoring && last_user then [EvThreadmonStop; EvThreadmonFree] else [])
  ++ [EvAvlDelete id; EvFinalDeinit]
  ++ (if parsed then [EvConfigFini] else [])
  ++ [EvFree; EvGlobalCondBroadcast; EvGlobalUnlock].

(** The deadline as the specification gives it, for every [int64_t] clock
    value and timeout. *)
Definition deadline_saturates_for_all : Prop :=
  ∀ tnow timeout, is_i64 tnow → is_i64 timeout →
    (INT64_MIN <= tnow + timeout < DDS_INFINITY →
       abstimeout tnow timeout = tnow + timeout)
    ∧ (DDS_INFINITY <= tnow + timeout → abstimeout tnow timeout = DDS_NEVER).

(** The first two branches of lines 473-484: the requested output can be
    handed out at once. *)
Definition immediately_available (sertype type_obj : option (option nat))
    (type : ddsi_type) : bool :=
  (bool_decide (is_Some sertype) && bool_decide (is_Some (ddsi_type_sertype type)))
  || (bool_decide (is_Some type_obj) && ddsi_type_resolved type false).

(** What the initialisation steps call for when they have to be undone. *)
Definition undo_of (e : event) : list event :=
  match e with
  | EvEntityInit => [EvHandleDelete]
  | EvConfigInit => [EvConfigFini]
  | EvRtpsInit => [EvRtpsFini]
  | EvShmMonitorInit => [EvShmMonitorDestroy]
  | EvThreadmonNew => [EvThreadmonFree]
  | EvThreadmonStart => [EvThreadmonStop]
  | EvBuiltinInit => [EvBuiltinFini]
  | _ => []
  end.

Definition unwind_of (completed : list event) : list event :=
  flat_map undo_of (rev completed).

(** The forward steps of the initialisation sequence. *)
Definition is_init_step (e : event) : bool :=
  match e with
  | EvEntityInit | EvIidGen | EvConfigInit | EvRtpsConfigPrep | EvRtpsInit
  | EvShmMonitorInit | EvThreadmonNew | EvThreadmonStart | EvBuiltinInit
  | EvRtpsStart | EvThreadmonRegister | EvEntityInitComplete => true
  | _ => false
  end.

(** The forward steps a run of [dds_domain_init] starts with; the last of
    them is the step that failed, when the run fails. *)
Fixpoint init_steps (evs : list event) : list event :=
  match evs with
  | e :: rest => if is_init_step e then e :: init_steps rest else []
  | [] => []
  end.

(** A failed run consists of its forward steps followed by the undoing of
    every completed one, latest first. *)
Definition unwound_in_reverse (evs : list event) : Prop :=
  evs = init_steps evs ++ unwind_of (removelast (init_steps evs)).

(** The monitor singleton agrees with its reference count. *)
Definition threadmon_consistent (g : dds_global_state) : Prop :=
  threadmon_present g = true ↔ 0 < threadmon_count g.

(** ** Concrete states and collaborators used in the examples *)

Definition empty_global : dds_global_state := mk_global ∅ 0 None.
Definition empty_world : world := mk_world empty_global [].

Definition config_plain : ddsi_config := mk_config 0 false false false.
Definition config_monitoring : ddsi_config := mk_config 0 true false false.
Definition config_shm : ddsi_config := mk_config 0 false true false.

(** A parser that honours a requested id and otherwise resolves to 0. *)
Definition parse_any (xml : option string) (domain_id : Z)
  : option (nat * ddsi_config) :=
  Some (1%nat,
        mk_config (if domain_id =? DDS_DOMAIN_DEFAULT then 0 else domain_id)
          false false false).

Definition all_succeed : ext_results :=
  mk_ext 0 1 parse_any 0 0 true 0 0.
Definition threadmon_new_fails : ext_results :=
  mk_ext 0 1 parse_any 0 0 false 0 0.
Definition rtps_start_fails : ext_results :=
  mk_ext 0 1 parse_any 0 0 true 0 (-1).

Definition open_domain (id hdl : Z) : dds_domain :=
  mk_domain (mk_entity hdl false true 1 1 true) id None
    (set_domainId id config_plain) false ∅.
Definition closing_domain (id hdl : Z) : dds_domain :=
  mk_domain (mk_entity hdl true true 0 1 true) id None
    (set_domainId id config_plain) false ∅.

Definition global_with (d : dds_domain) : dds_global_state :=
  mk_global {[ m_id d := d ]} 0 None.

(** [dds_global] once the teardown of [d], the only domain, has finished. *)
Definition after_teardown (d : dds_domain) : dds_global_state :=
  glob (snd (dds_domain_free d (mk_world (global_with d) []))).

Definition unresolved_type : ddsi_type := mk_type None false false None.
Definition resolved_type : ddsi_type := mk_type None true true (Some 9%nat).
Definition domain_with_type (h : N) (t : ddsi_type) : dds_domain :=
  mk_domain (mk_entity 1 false false 0 0 true) 0 None config_plain false
    {[ h := t ]}.

(** ** [dds_domain_compare] *)

(** Lines 51-56: the comparison function of the registry tree, on two
    [dds_domainid_t] values. *)
Definition dds_domain_compare (a b : Z) : Z :=
  if a =? b then 0 else if a <? b then -1 else 1.

(** ** Mutex discipline, read off a trace *)

(** Which of the two mutexes of the creation protocol are held: the
    registry mutex [dds_global.m_mutex] and the mutex of the domain entity
    being worked on. *)
Record locks : Type := mk_locks {
  reg_held : bool;
  ent_held : bool
}.

Definition no_locks : locks := mk_locks false false.
Definition reg_locked : locks := mk_locks true false.

(** One event against the discipline: a mutex is taken only when free and
    released only when held; the entity mutex is taken inside the registry
    mutex and released before it; the wait on the registry condition
    variable happens with the registry mutex held and the entity mutex
    free; the registry tree, the monitor singleton and the broadcast are
    touched only under the registry mutex; the closed flag, the reference
    count, the pin and the child registration only under the entity
    mutex.  [None]: the event breaks the discipline. *)
Definition step_locks (s : locks) (e : event) : option locks :=
  match e with
  | EvGlobalLock =>
      if reg_held s then None else Some (mk_locks true (ent_held s))
  | EvGlobalUnlock =>
      if reg_held s && negb (ent_held s) then Some (mk_locks false false)
      else None
  | EvGlobalCondWait =>
      if reg_held s && negb (ent_held s) then Some s else None
  | EvEntityLock =>
      if reg_held s && negb (ent_held s) then Some (mk_locks true true)
      else None
  | EvEntityUnlock =>
      if ent_held s then Some (mk_locks (reg_held s) false) else None
  | EvIsClosed | EvAddRef | EvRepin | EvRegisterChild =>
      if ent_held s then Some s else None
  | EvAvlInsert _ | EvAvlDelete _ | EvGlobalCondBroadcast
  | EvThreadmonNew | EvThreadmonStart | EvThreadmonStop | EvThreadmonFree =>
      if reg_held s then Some s else None
  | _ => Some s
  end.

Fixpoint run_locks (s : locks) (evs : list event) : option locks :=
  match evs with
  | [] => Some s
  | e :: rest =>
      match step_locks s e with
      | Some s' => run_locks s' rest
      | None => None
      end
  end.

(** ** Sequences of implicit acquisitions *)

(** [n] implicit calls for one id, one after the other, each with the
    same configuration and collaborators and no wake-ups: the results in
    order, and the world after the last call that returned. *)
Fixpoint implicit_creates (n : nat) (id : Z) (config : config_source)
    (x : ext_results) (w : world) : list create_result * world :=
  match n with
  | O => ([], w)
  | S n' =>
      let r := dds_domain_create_internal_xml_or_raw id true config x [] w in
      match r with
      | CR_done _ _ w' =>
          let '(rs, w'') := implicit_creates n' id config x w' in
          (r :: rs, w'')
      | _ => ([r], w)
      end
  end.

(** The world a finished call left behind. *)
Definition world_of (r : create_result) (w : world) : world :=
  match r with
  | CR_done _ _ w' => w'
  | CR_wait w' => w'
  | CR_abort => w
  end.

Definition handle_of (r : create_result) : option Z :=
  match r with
  | CR_done domh _ _ => Some domh
  | _ => None
  end.

(** Lines 240-241 applied to a domain: one more ownership reference and
    one more pin on its entity. *)
Definition joined (dom : dds_domain) : dds_domain :=
  set_entity (dds_handle_repin (dds_entity_add_ref_locked (m_entity dom))) dom.

(** ** The reference on the root entity *)

(** [dds_init] hands the caller a reference on [dds_global.m_entity];
    [dds_entity_unpin_and_drop_ref] gives it back. *)
Definition is_global_ref_event (e : event) : bool :=
  match e with
  | EvDdsInit | EvUnpinDropRefGlobal => true
  | _ => false
  end.

Fixpoint global_ref_events (evs : list event) : list event :=
  match evs with
  | [] => []
  | e :: rest =>
      if is_global_ref_event e then e :: global_ref_events rest
      else global_ref_events rest
  end.

(** The events on that reference a public creation call should show:
    none when an argument is refused, the acquisition alone when [dds_init]
    fails, acquisition and release otherwise. *)
Definition expected_global_ref_events (args_ok : bool) (x : ext_results)
  : list event :=
  if negb args_ok then []
  else if r_dds_init x <? 0 then [EvDdsInit]
  else [EvDdsInit; EvUnpinDropRefGlobal].

(** The trace of a public creation call: nothing when an argument is
    refused, the acquisition alone when [dds_init] fails, and otherwise the
    acquisition first, then the creation attempt, which begins by taking
    the registry mutex, ends by releasing it and does not touch the
    reference, and the release last. *)
Definition root_reference_bracket (args_ok : bool) (x : ext_results)
    (evs : list event) : Prop :=
  if negb args_ok then evs = []
  else if r_dds_init x <? 0 then evs = [EvDdsInit]
  else ∃ mid,
      evs = [EvDdsInit; EvGlobalLock] ++ mid
            ++ [EvGlobalUnlock; EvUnpinDropRefGlobal]
      ∧ global_ref_events mid = []
      ∧ run_locks reg_locked mid = Some reg_locked.

(** ** Lock and pin discipline of the type-resolution wait *)

(** Whether the caller holds the type-library lock and the pin on the
    entity. *)
Record tl_state : Type := mk_tl_state {
  tl_locked : bool;
  tl_pinned : bool
}.

(** One event of [wait_for_type_resolved] against its discipline: the
    type-library lock is taken only when free and with the entity pinned;
    the record is looked up and read, and the condition variable waited
    on, only under the lock; the resolution request is issued and the
    entity unpinned only with the lock released.  [None]: the event breaks
    the discipline. *)
Definition step_tl (s : tl_state) (e : event) : option tl_state :=
  match e with
  | EvEntityPin =>
      if tl_pinned s then None else Some (mk_tl_state (tl_locked s) true)
  | EvEntityUnpin =>
      if tl_pinned s && negb (tl_locked s) then Some (mk_tl_state false false)
      else None
  | EvTypelibLock =>
      if tl_pinned s && negb (tl_locked s) then Some (mk_tl_state true true)
      else None
  | EvTypelibUnlock =>
      if tl_locked s then Some (mk_tl_state false (tl_pinned s)) else None
  | EvTypeLookup | EvSertypeRef | EvGetTypeobj | EvTypelibCondWaituntil _ =>
      if tl_locked s then Some s else None
  | EvTlRequest _ =>
      if tl_pinned s && negb (tl_locked s) then Some s else None
  | _ => Some s
  end.

Fixpoint run_tl (s : tl_state) (evs : list event) : option tl_state :=
  match evs with
  | [] => Some s
  | e :: rest =>
      match step_tl s e with
      | Some s' => run_tl s' rest
      | None => None
      end
  end.

Definition tl_idle : tl_state := mk_tl_state false false.

(** ** [dds_domain_set_deafmute] *)

(** The calls [dds_domain_set_deafmute] makes. *)
Inductive deafmute_event : Type :=
  | DmEntityPin
  | DmSetDeafmute (deaf mute : bool) (reset_after : Z)
  | DmEntityUnpin.

(** Lines 353-368.  [pin] is the result of [dds_entity_pin], [m_domain]
    the [m_domain] pointer of the pinned entity. *)
Definition dds_domain_set_deafmute (pin : Z) (m_domain : option dds_domain)
    (deaf mute : bool) (reset_after : Z) : Z * list deafmute_event :=
  if pin <? 0 then (pin, [DmEntityPin])
  else
    match m_domain with
    | None => (DDS_RETCODE_ILLEGAL_OPERATION, [DmEntityPin; DmEntityUnpin])
    | Some _ =>
        (DDS_RETCODE_OK,
         [DmEntityPin; DmSetDeafmute deaf mute reset_after; DmEntityUnpin])
    end.

(** ** [pushdown_set_batch] *)

(** Modelled from the spec: the entity kinds ([dds_entity_kind] of
    [dds/dds.h]); the walk tells participants and writers from the rest. *)
Inductive dds_entity_kind : Type :=
  | DDS_KIND_DONTCARE | DDS_KIND_TOPIC | DDS_KIND_PARTICIPANT
  | DDS_KIND_READER | DDS_KIND_WRITER | DDS_KIND_SUBSCRIBER
  | DDS_KIND_PUBLISHER | DDS_KIND_COND_READ | DDS_KIND_COND_QUERY
  | DDS_KIND_COND_GUARD | DDS_KIND_WAITSET | DDS_KIND_DOMAIN
  | DDS_KIND_CYCLONEDDS.

Unset Elimination Schemes.

(** An entity with the entities below it: its kind, its instance id (the
    key of its parent's [m_children] tree), whether [dds_entity_pin] on
    its handle still succeeds, the [whc_batch] flag (a field of writers
    only) and the nodes of its own [m_children] tree. *)
Inductive entity_node : Type :=
  | Entity (kind : dds_entity_kind) (iid : Z) (pinnable : bool)
      (batch : bool) (children : list entity_node).

Set Elimination Schemes.

Definition n_kind (e : entity_node) : dds_entity_kind :=
  match e with Entity k _ _ _ _ => k end.
Definition n_iid (e : entity_node) : Z :=
  match e with Entity _ i _ _ _ => i end.
Definition n_pinnable (e : entity_node) : bool :=
  match e with Entity _ _ p _ _ => p end.
Definition n_whc_batch (e : entity_node) : bool :=
  match e with Entity _ _ _ b _ => b end.
Definition n_children (e : entity_node) : list entity_node :=
  match e with Entity _ _ _ _ cs => cs end.

Definition set_whc_batch (enable : bool) (e : entity_node) : entity_node :=
  match e with Entity k i p _ cs => Entity k i p enable cs end.
Definition set_children (cs : list entity_node) (e : entity_node)
  : entity_node :=
  match e with Entity k i p b _ => Entity k i p b cs end.

(** The mutexes the walk takes: the registry mutex and entity mutexes. *)
Inductive walk_mutex : Type :=
  | MxGlobal
  | MxEntity (iid : Z).

(** What the walk does, in order.  [WkEnter] marks the entry into
    [pushdown_set_batch] for an entity. *)
Inductive walk_event : Type :=
  | WkLock (m : walk_mutex)
  | WkUnlock (m : walk_mutex)
  | WkPin (iid : Z)
  | WkPinFailed (iid : Z)
  | WkUnpin (iid : Z)
  | WkEnter (iid : Z)
  | WkSetBatch (iid : Z) (enable : bool)
  | WkSetConfig (id : Z) (enable : bool)
  | WkDdsInit
  | WkUnpinDropRefGlobal.

(** Modelled from the spec: [ddsrt_avl_lookup_succ] on a children tree:
    the node with the least key above [last], if any. *)
Definition succ_candidate (last : Z) (c : entity_node)
    (acc : option entity_node) : option entity_node :=
  if last <? n_iid c then
    match acc with
    | Some c' => if n_iid c <? n_iid c' then Some c else acc
    | None => Some c
    end
  else acc.

Definition ddsrt_avl_lookup_succ (last : Z) (cs : list entity_node)
  : option entity_node :=
  foldr (succ_candidate last) None cs.

(** The node [c'] written back through the pointer the lookup returned:
    the tree node with its key. *)
Definition replace_child (c' : entity_node) (cs : list entity_node)
  : list entity_node :=
  map (λ d, if n_iid d =? n_iid c' then c' else d) cs.

(** The loop of lines 377-394 (and of lines 415-427): walk the children
    of an entity by "least key above the last one seen", under the mutex
    [parent].  A child that cannot be pinned is skipped; otherwise the
    mutex is released around [visit], which returns the child as it left
    it, and taken again before the unpin.  No other thread runs in this
    model.  [fuel] bounds the number of iterations; [None]: it ran out, or
    [visit] did. *)
Fixpoint walk_children
    (visit : entity_node → option (entity_node * list walk_event))
    (parent : walk_mutex) (fuel : nat) (cs : list entity_node) (last : Z)
  : option (list entity_node * list walk_event) :=
  match ddsrt_avl_lookup_succ last cs with
  | None => Some (cs, [])
  | Some c =>
      match fuel with
      | O => None
      | S fuel' =>
          let last := n_iid c in
          if negb (n_pinnable c) then
            match walk_children visit parent fuel' cs last with
            | Some (cs', tr) => Some (cs', WkPinFailed (n_iid c) :: tr)
            | None => None
            end
          else
            match visit c with
            | None => None
            | Some (c', tr_c) =>
                match walk_children visit parent fuel' (replace_child c' cs)
                        last with
                | Some (cs', tr) =>
                    Some (cs',
                          [WkPin (n_iid c); WkUnlock parent] ++ tr_c
                          ++ [WkLock parent; WkUnpin (n_iid c)] ++ tr)
                | None => None
                end
            end
      end
  end.

(** Lines 371-396.  [depth] bounds the nesting of the recursion. *)
Fixpoint pushdown_set_batch (depth : nat) (enable : bool) (e : entity_node)
  : option (entity_node * list walk_event) :=
  match depth with
  | O => None
  | S depth' =>
      let visit (c : entity_node) :=
        match n_kind c with
        | DDS_KIND_PARTICIPANT => pushdown_set_batch depth' enable c
        | DDS_KIND_WRITER =>
            Some (set_whc_batch enable c, [WkSetBatch (n_iid c) enable])
        | _ => Some (c, [])
        end in
      match walk_children visit (MxEntity (n_iid e))
              (length (n_children e)) (n_children e) 0 with
      | Some (cs', tr) =>
          Some (set_children cs' e,
                [WkEnter (n_iid e); WkLock (MxEntity (n_iid e))] ++ tr
                ++ [WkUnlock (MxEntity (n_iid e))])
      | None => None
      end
  end.

(** The effect of the walk, written by recursion on the tree: below a
    participant that can be pinned the same again; a writer that can be
    pinned gets the flag; everything else stays. *)
Fixpoint batch_pushed (enable : bool) (e : entity_node) : entity_node :=
  match e with
  | Entity k i p b cs =>
      Entity k i p b
        (map (λ c,
                if n_pinnable c then
                  match n_kind c with
                  | DDS_KIND_PARTICIPANT => batch_pushed enable c
                  | DDS_KIND_WRITER => set_whc_batch enable c
                  | _ => c
                  end
                else c) cs)
  end.

(** What one child looks like once the walk has passed it. *)
Definition pushed_child (enable : bool) (c : entity_node) : entity_node :=
  if n_pinnable c then
    match n_kind c with
    | DDS_KIND_PARTICIPANT => batch_pushed enable c
    | DDS_KIND_WRITER => set_whc_batch enable c
    | _ => c
    end
  else c.

(** The children list while the cursor stands at [last]: the nodes with
    keys up to [last] have been passed, the others not yet. *)
Definition passed (g : entity_node → entity_node) (last : Z)
    (d : entity_node) : entity_node :=
  if n_iid d <=? last then g d else d.

(** How many nodes the cursor still has ahead of it. *)
Definition remaining (last : Z) (cs : list entity_node) : nat :=
  length (filter (λ c, last < n_iid c) cs).

(** The keys of a children tree: instance ids are positive and no two
    nodes share one. *)
Definition children_wf (cs : list entity_node) : Prop :=
  (∀ c, c ∈ cs → 0 < n_iid c)
  ∧ (∀ c d, c ∈ cs → d ∈ cs → n_iid c = n_iid d → c = d).

Fixpoint tree_wf (e : entity_node) : Prop :=
  match e with
  | Entity _ _ _ _ cs =>
      children_wf cs ∧ foldr (λ c acc, tree_wf c ∧ acc) True cs
  end.

Fixpoint height (e : entity_node) : nat :=
  match e with
  | Entity _ _ _ _ cs => S (foldr (λ c acc, Nat.max (height c) acc) 0%nat cs)
  end.

(** The tree with every [whc_batch] flag of a writer blanked: what the
    walk must not change. *)
Fixpoint without_batch (e : entity_node) : entity_node :=
  match e with
  | Entity k i p b cs =>
      Entity k i p
        (match k with DDS_KIND_WRITER => false | _ => b end)
        (map without_batch cs)
  end.

(** Mutex held and entities pinned by the walking thread, innermost pin
    first. *)
Record walk_state : Type := mk_walk_state {
  ws_held : option walk_mutex;
  ws_pins : list Z
}.

(** The walking thread may take the registry mutex at any time, and the
    mutex of an entity only while it has that entity pinned. *)
Definition lockable (m : walk_mutex) (pins : list Z) : bool :=
  match m with
  | MxGlobal => true
  | MxEntity i => existsb (Z.eqb i) pins
  end.

(** One event of the walk against its discipline.  [child_of m c] tells
    whether the entity with instance id [c] sits in the children tree that
    the mutex [m] protects.  A mutex is taken only when none is held, an
    entity mutex only by a thread that has the entity pinned, and a mutex
    is released only by its holder; a child is pinned, found unpinnable
    or unpinned only under the mutex that protects the children tree it
    sits in, and unpinned innermost first; [pushdown_set_batch] is
    entered, and the flag of a writer written, only with no mutex held
    and that very entity pinned last; the configuration of a domain is
    written only under the registry mutex.  [None]: the event breaks the
    discipline. *)
Definition step_walk (child_of : walk_mutex → Z → bool) (s : walk_state)
    (e : walk_event) : option walk_state :=
  match e with
  | WkLock m =>
      match ws_held s with
      | None =>
          if lockable m (ws_pins s) then Some (mk_walk_state (Some m) (ws_pins s))
          else None
      | Some _ => None
      end
  | WkUnlock m =>
      match ws_held s, m with
      | Some MxGlobal, MxGlobal => Some (mk_walk_state None (ws_pins s))
      | Some (MxEntity i), MxEntity j =>
          if i =? j then Some (mk_walk_state None (ws_pins s)) else None
      | _, _ => None
      end
  | WkPin c =>
      match ws_held s with
      | Some m =>
          if child_of m c then Some (mk_walk_state (Some m) (c :: ws_pins s))
          else None
      | None => None
      end
  | WkPinFailed c =>
      match ws_held s with
      | Some m => if child_of m c then Some s else None
      | None => None
      end
  | WkUnpin c =>
      match ws_held s, ws_pins s with
      | Some m, p :: rest =>
          if (c =? p) && child_of m c then Some (mk_walk_state (Some m) rest)
          else None
      | _, _ => None
      end
  | WkEnter c | WkSetBatch c _ =>
      match ws_held s, ws_pins s with
      | None, p :: _ => if c =? p then Some s else None
      | _, _ => None
      end
  | WkSetConfig _ _ =>
      match ws_held s with Some MxGlobal => Some s | _ => None end
  | WkDdsInit | WkUnpinDropRefGlobal =>
      match ws_held s with None => Some s | Some _ => None end
  end.

Fixpoint run_walk (child_of : walk_mutex → Z → bool) (s : walk_state)
    (evs : list walk_event) : option walk_state :=
  match evs with
  | [] => Some s
  | e :: rest =>
      match step_walk child_of s e with
      | Some s' => run_walk child_of s' rest
      | None => None
      end
  end.

(** The children trees of an entity and of everything below it: [c] is
    the instance id of a node in the [m_children] tree of the entity whose
    mutex is [m].  No children tree below an entity hangs under the
    registry mutex. *)
Fixpoint tree_child (e : entity_node) (m : walk_mutex) (c : Z) : bool :=
  match e with
  | Entity _ i _ _ cs =>
      match m with
      | MxEntity j => (i =? j) && existsb (λ d, n_iid d =? c) cs
      | MxGlobal => false
      end
      || existsb (λ d, tree_child d m c) cs
  end.


(** [child_of] knows every parent-child pair of the tree below [e]. *)
Fixpoint covers (child_of : walk_mutex → Z → bool) (e : entity_node)
  : Prop :=
  match e with
  | Entity _ i _ _ cs =>
      foldr (λ c acc,
               (child_of (MxEntity i) (n_iid c) = true ∧ covers child_of c)
               ∧ acc) True cs
  end.

(** A node of the children tree that [parent] protects. *)
Definition kid_ok (child_of : walk_mutex → Z → bool) (parent : walk_mutex)
    (c : entity_node) : Prop :=
  child_of parent (n_iid c) = true ∧ covers child_of c.

(** A participant with a writer directly below it, a publisher holding a
    second writer, and a nested participant with a third writer. *)
Definition sample_tree : entity_node :=
  Entity DDS_KIND_PARTICIPANT 10 true false
    [Entity DDS_KIND_WRITER 11 true false [];
     Entity DDS_KIND_PUBLISHER 12 true false
       [Entity DDS_KIND_WRITER 13 true false []];
     Entity DDS_KIND_PARTICIPANT 14 true false
       [Entity DDS_KIND_WRITER 15 true false [];
        Entity DDS_KIND_WRITER 16 false false []]].

(** ** [dds_write_set_batch] *)

(** [dom->gv.config.whc_batch = enable]. *)
Definition set_config_whc_batch (enable : bool) (d : dds_domain) : dds_domain :=
  set_gv_config
    (mk_config (domainId (gv_config d)) (liveliness_monitoring (gv_config d))
       (enable_shm (gv_config d)) enable) d.

(** Modelled from the spec: [ddsrt_avl_lookup_succ_eq] on the registry
    tree: the domain with the least id not below [next], if any. *)
Definition succ_eq_binding (next : Z) (kv : Z * dds_domain)
    (acc : option (Z * dds_domain)) : option (Z * dds_domain) :=
  if next <=? fst kv then
    match acc with
    | Some kv' => if fst kv <? fst kv' then Some kv else acc
    | None => Some kv
    end
  else acc.

Definition ddsrt_avl_lookup_succ_eq (next : Z) (t : gmap Z dds_domain)
  : option dds_domain :=
  snd <$> foldr (succ_eq_binding next) None (map_to_list t).

(** The loop of lines 406-428 over the registry, with the registry mutex
    held on entry and on exit.  [kids] holds, for each domain id, the
    nodes of the [m_children] tree of that domain's entity.  The inner
    loop is [walk_children] under the registry mutex, calling
    [pushdown_set_batch] on each child that can be pinned; with no other
    thread running, the lookup on line 426 finds the domain again.
    [fuel] bounds the number of domains visited. *)
Fixpoint write_set_batch_domains (depth : nat) (enable : bool) (fuel : nat)
    (doms : gmap Z dds_domain) (kids : gmap Z (list entity_node))
    (next_id : Z)
  : option (gmap Z dds_domain * gmap Z (list entity_node) * list walk_event) :=
  match ddsrt_avl_lookup_succ_eq next_id doms with
  | None => Some (doms, kids, [])
  | Some dom =>
      match fuel with
      | O => None
      | S fuel' =>
          let curr_id := m_id dom in
          let next_id := wrap_u32 (curr_id + 1) in
          let doms := <[curr_id := set_config_whc_batch enable dom]> doms in
          let cs := default [] (kids !! curr_id) in
          match walk_children (pushdown_set_batch depth enable) MxGlobal
                  (length cs) cs 0 with
          | None => None
          | Some (cs', tr) =>
              let kids :=
                match kids !! curr_id with
                | Some _ => <[curr_id := cs']> kids
                | None => kids
                end in
              match write_set_batch_domains depth enable fuel' doms kids
                      next_id with
              | Some (doms', kids', tr') =>
                  Some (doms', kids',
                        [WkSetConfig curr_id enable] ++ tr ++ tr')
              | None => None
              end
          end
      end
  end.

(** Lines 398-431.  [r_init] is the result of [dds_init]. *)
Definition dds_write_set_batch (depth : nat) (enable : bool) (r_init : Z)
    (doms : gmap Z dds_domain) (kids : gmap Z (list entity_node))
  : option (gmap Z dds_domain * gmap Z (list entity_node) * list walk_event) :=
  if r_init <? 0 then Some (doms, kids, [WkDdsInit])
  else
    match write_set_batch_domains depth enable (size doms) doms kids 0 with
    | Some (doms', kids', tr) =>
        Some (doms', kids',
              [WkDdsInit; WkLock MxGlobal] ++ tr
              ++ [WkUnlock MxGlobal; WkUnpinDropRefGlobal])
    | None => None
    end.

(** A child of a domain entity once the walk has passed it. *)
Definition top_pushed (enable : bool) (e : entity_node) : entity_node :=
  if n_pinnable e then batch_pushed enable e else e.

(** Registry and children while the domain cursor stands at [next]: the
    domains below [next] have been dealt with, the others not yet. *)
Definition domains_at (enable : bool) (next : Z) (doms : gmap Z dds_domain)
  : gmap Z dds_domain :=
  map_imap (λ k d, Some (if k <? next then set_config_whc_batch enable d
                         else d)) doms.

Definition children_at (enable : bool) (next : Z) (doms : gmap Z dds_domain)
    (kids : gmap Z (list entity_node)) : gmap Z (list entity_node) :=
  map_imap (λ k cs,
              Some (if (k <? next) && bool_decide (is_Some (doms !! k))
                    then map (top_pushed enable) cs else cs)) kids.

(** What the whole call leaves: the flag in every domain's configuration
    and, below every domain, the children walked. *)
Definition children_walked (enable : bool) (doms : gmap Z dds_domain)
    (kids : gmap Z (list entity_node)) : gmap Z (list entity_node) :=
  map_imap (λ k cs,
              Some (if bool_decide (is_Some (doms !! k))
                    then map (top_pushed enable) cs else cs)) kids.

(** How many domains the cursor still has ahead of it. *)
Definition pending (next : Z) (l : list (Z * dds_domain)) : nat :=
  length (filter (λ kv, next <= fst kv) l).

(** The registry the walk expects: every domain under its own id, the ids
    in the range of [dds_domainid_t] short of the sentinel. *)
Definition batch_registry_wf (doms : gmap Z dds_domain) : Prop :=
  ∀ k d, doms !! k = Some d → m_id d = k ∧ 0 <= k < 2 ^ 32 - 1.

(** The children of the domains: well-keyed, and each child a well-formed
    tree within the recursion depth. *)
Definition batch_children_wf (depth : nat) (doms : gmap Z dds_domain)
    (kids : gmap Z (list entity_node)) : Prop :=
  ∀ k cs, is_Some (doms !! k) → kids !! k = Some cs →
    children_wf cs ∧ ∀ c, c ∈ cs → tree_wf c ∧ (height c ≤ depth)%nat.

(** * Properties *)

(** ** The registry tree *)

Lemma foldr_min_binding_spec (l : list (Z * dds_domain)) :
  match foldr min_binding None l with
  | None => l = []
  | Some kv => kv ∈ l ∧ ∀ kv', kv' ∈ l → fst kv <= fst kv'
  end.
Proof.
  induction l as [|a l IH]; simpl; [done|].
  destruct (foldr min_binding None l) as [kv|]; simpl.
  - destruct IH as [Hin Hmin].
    destruct (fst a <? fst kv) eqn:E.
    + split; [left|]. intros kv' [->|H]%elem_of_cons; [lia|].
      specialize (Hmin _ H). lia.
    + split; [by right|]. intros kv' [->|H]%elem_of_cons; [lia|by apply Hmin].
  - subst l. split; [left|]. by intros kv' ->%list_elem_of_singleton.
Qed.

Lemma ddsrt_avl_find_min_None (t : gmap Z dds_domain) :
  ddsrt_avl_find_min t = None ↔ t = ∅.
Proof.
  unfold ddsrt_avl_find_min.
  pose proof (foldr_min_binding_spec (map_to_list t)) as H.
  destruct (foldr min_binding None (map_to_list t)) as [kv|]; simpl.
  - split; [done|]. intros ->. destruct H as [H _].
    rewrite map_to_list_empty in H. by apply elem_of_nil in H.
  - split; [|done]. intros _. by apply map_to_list_empty_iff.
Qed.

Lemma ddsrt_avl_find_min_Some (t : gmap Z dds_domain) (d : dds_domain) :
  ddsrt_avl_find_min t = Some d →
  ∃ k, t !! k = Some d ∧ ∀ k' d', t !! k' = Some d' → k <= k'.
Proof.
  unfold ddsrt_avl_find_min.
  pose proof (foldr_min_binding_spec (map_to_list t)) as H.
  destruct (foldr min_binding None (map_to_list t)) as [[k d0]|]; simpl; [|done].
  intros [= ->]. destruct H as [Hin Hmin]. exists k. split.
  - by apply elem_of_map_to_list.
  - intros k' d' Hk'. apply (Hmin (k', d')). by apply elem_of_map_to_list.
Qed.

(** ** What [dds_domain_init] leaves behind *)

Ltac unfold_init :=
  unfold dds_domain_init, dds_domain_init_tail, fail_rtps_start,
    fail_threadmon_start, fail_threadmon_new, fail_rtps_init,
    fail_rtps_config, fail_config, ddsi_threadmon_new in *.

Ltac init_cases :=
  unfold_init; intros;
  repeat (case_match; simplify_eq/=; try done).

(** Initialisation never touches the registry tree. *)
Lemma dds_domain_init_registry domain domain_id config implicit x w domh dom w' :
  dds_domain_init domain domain_id config implicit x w = Returned (domh, dom, w') →
  m_domains (glob w') = m_domains (glob w).
Proof. init_cases. Qed.

(** A successful initialisation leaves an open entity carrying the
    returned handle. *)
Lemma dds_domain_init_entity domain domain_id config implicit x w domh dom w' :
  dds_domain_init domain domain_id config implicit x w = Returned (domh, dom, w') →
  0 <= domh →
  m_closed (m_entity dom) = false ∧ m_hdl (m_entity dom) = domh.
Proof. init_cases; lia. Qed.

(** With a concrete id the new domain is stored under exactly that id. *)
Lemma dds_domain_init_concrete_id domain domain_id config implicit x w domh dom w' :
  dds_domain_init domain domain_id config implicit x w = Returned (domh, dom, w') →
  0 <= domh →
  domain_id ≠ DDS_DOMAIN_DEFAULT →
  m_id dom = domain_id.
Proof. init_cases; lia. Qed.

(** ** The creation protocol *)

(** An explicit call never reaches [ddsrt_cond_wait]. *)
Lemma explicit_attempt_never_waits id config x w w' :
  create_attempt id false config x w ≠ CR_wait w'.
Proof.
  unfold create_attempt.
  destruct (looked_up_domain id (glob w)); simpl; [done|].
  destruct (dds_domain_init _ _ _ _ _ _) as [[[domh dom] w1]|]; [|done].
  destruct (domh <? 0); done.
Qed.

Lemma explicit_retry_is_attempt id config x wakeups w :
  create_retry id false config x wakeups w = create_attempt id false config x w.
Proof.
  destruct wakeups; simpl;
    destruct (create_attempt id false config x w) eqn:E; try done;
    by apply explicit_attempt_never_waits in E.
Qed.

(** An explicit call that finds its id taken. *)
Lemma explicit_create_taken id config x wakeups w dom :
  id ≠ DDS_DOMAIN_DEFAULT →
  dds_domain_find_locked id (glob w) = Some dom →
  dds_domain_create_internal_xml_or_raw id false config x wakeups w
  = CR_done DDS_RETCODE_PRECONDITION_NOT_MET None
      (emit EvGlobalUnlock (emit EvGlobalLock w)).
Proof.
  intros Hid Hfind. unfold dds_domain_create_internal_xml_or_raw.
  rewrite explicit_retry_is_attempt. unfold create_attempt, looked_up_domain.
  destruct (id =? DDS_DOMAIN_DEFAULT) eqn:E; [lia|]. simpl.
  by rewrite Hfind.
Qed.

(** An explicit call that succeeds leaves its id taken. *)
Lemma explicit_create_takes_id id config x wakeups w domh out w' :
  id ≠ DDS_DOMAIN_DEFAULT →
  dds_domain_create_internal_xml_or_raw id false config x wakeups w
  = CR_done domh out w' →
  0 <= domh →
  is_Some (dds_domain_find_locked id (glob w')).
Proof.
  intros Hid. unfold dds_domain_create_internal_xml_or_raw.
  rewrite explicit_retry_is_attempt. unfold create_attempt.
  destruct (looked_up_domain id _); simpl.
  { intros [= <- <- <-]. unfold DDS_RETCODE_PRECONDITION_NOT_MET. lia. }
  destruct (dds_domain_init _ _ _ _ _ _) as [[[h dom] w1]|] eqn:Hinit; [|done].
  destruct (h <? 0) eqn:Hh.
  { intros [= <- <- <-]. lia. }
  intros [= <- <- <-] Hpos.
  apply dds_domain_init_concrete_id in Hinit; [|lia|done].
  unfold dds_domain_find_locked, ddsrt_avl_insert. simpl.
  rewrite Hinit, lookup_insert_eq. by eexists.
Qed.

(** Once the id is taken, no later explicit call in the sequence succeeds. *)
Lemma explicit_creates_taken id calls w :
  id ≠ DDS_DOMAIN_DEFAULT →
  is_Some (dds_domain_find_locked id (glob w)) →
  count_succeeded (explicit_creates id calls w) = 0%nat.
Proof.
  intros Hid. revert w.
  induction calls as [|[[config x] wakeups] calls IH]; intros w [dom Hdom];
    [done|].
  cbn [explicit_creates].
  rewrite (explicit_create_taken _ _ _ _ _ dom) by done.
  unfold count_succeeded. rewrite filter_cons_False by (simpl; done).
  apply IH. by exists dom.
Qed.

Lemma explicit_creates_at_most_one id calls w :
  id ≠ DDS_DOMAIN_DEFAULT →
  (count_succeeded (explicit_creates id calls w) ≤ 1)%nat.
Proof.
  intros Hid. revert w.
  induction calls as [|[[config x] wakeups] calls IH]; intros w;
    [unfold count_succeeded; simpl; lia|].
  cbn [explicit_creates].
  destruct (dds_domain_create_internal_xml_or_raw id false config x wakeups w)
    as [domh out w'| |] eqn:E.
  - unfold count_succeeded. destruct (decide (0 <= domh)) as [Hpos|Hneg].
    + rewrite filter_cons_True by (simpl; lia). simpl.
      pose proof (explicit_create_takes_id _ _ _ _ _ _ _ _ Hid E Hpos) as Htaken.
      pose proof (explicit_creates_taken id calls w' Hid Htaken) as H0.
      unfold count_succeeded in H0. lia.
    + rewrite filter_cons_False by (simpl; lia). apply IH.
  - unfold count_succeeded. rewrite filter_cons_False by done. simpl. lia.
  - unfold count_succeeded. rewrite filter_cons_False by done. simpl. lia.
Qed.

(** The public operations inherit the refusal. *)
Lemma dds_create_domain_taken domain config_xml x wakeups w dom :
  domain ≠ DDS_DOMAIN_DEFAULT →
  0 <= r_dds_init x →
  dds_domain_find_locked domain (glob w) = Some dom →
  ∃ w',
    dds_create_domain domain config_xml x wakeups w
    = CR_done DDS_RETCODE_PRECONDITION_NOT_MET None w'
    ∧ glob w' = glob w.
Proof.
  intros Hid Hinit Hfind. unfold dds_create_domain.
  destruct (domain =? DDS_DOMAIN_DEFAULT) eqn:E; [lia|].
  destruct (r_dds_init x <? 0) eqn:E0; [lia|].
  rewrite (explicit_create_taken _ _ _ _ _ dom) by done.
  eexists. split; [reflexivity|]. by destruct w as [[] ?].
Qed.

Lemma dds_create_domain_with_rawconfig_taken domain raw x wakeups w dom :
  domain ≠ DDS_DOMAIN_DEFAULT →
  0 <= r_dds_init x →
  dds_domain_find_locked domain (glob w) = Some dom →
  ∃ w',
    dds_create_domain_with_rawconfig domain (Some raw) x wakeups w
    = CR_done DDS_RETCODE_PRECONDITION_NOT_MET None w'
    ∧ glob w' = glob w.
Proof.
  intros Hid Hinit Hfind. unfold dds_create_domain_with_rawconfig.
  destruct (domain =? DDS_DOMAIN_DEFAULT) eqn:E; [lia|].
  destruct (r_dds_init x <? 0) eqn:E0; [lia|].
  rewrite (explicit_create_taken _ _ _ _ _ dom) by done.
  eexists. split; [reflexivity|]. by destruct w as [[] ?].
Qed.

(** C1: an explicit creation call with a concrete id that finds a domain
    under that id returns Precondition-Not-Met, stores nothing in
    [*domain_out], performs nothing but taking and releasing the registry
    mutex and leaves [dds_global], hence the existing domain, as it was;
    and of any number of explicit creation calls for that id, taken in the
    order in which they acquire the registry mutex, at most one returns a
    handle. *)
Theorem explicit_create_collision (id : Z) :
  id ≠ DDS_DOMAIN_DEFAULT →
  (∀ config x wakeups w dom,
     dds_domain_find_locked id (glob w) = Some dom →
     ∃ w',
       dds_domain_create_internal_xml_or_raw id false config x wakeups w
       = CR_done DDS_RETCODE_PRECONDITION_NOT_MET None w'
       ∧ glob w' = glob w
       ∧ trace w' = trace w ++ [EvGlobalLock; EvGlobalUnlock]
       ∧ dds_domain_find_locked id (glob w') = Some dom)
  ∧ (∀ calls w, (count_succeeded (explicit_creates id calls w) ≤ 1)%nat).
Proof.
  intros Hid. split.
  - intros config x wakeups w dom Hfind. eexists. split.
    + by apply (explicit_create_taken id config x wakeups w dom).
    + simpl. split; [by destruct w as [[] ?]|]. split; [|done].
      by rewrite <- app_assoc.
  - intros calls w. by apply explicit_creates_at_most_one.
Qed.

Lemma explicit_create_collision_witness :
  5 ≠ DDS_DOMAIN_DEFAULT
  ∧ count_succeeded
      (explicit_creates 5
         [(CFGKIND_RAW config_plain, all_succeed, []);
          (CFGKIND_XML None, all_succeed, []);
          (CFGKIND_RAW config_monitoring, all_succeed, [])]
         empty_world) = 1%nat
  ∧ (∃ w',
       dds_domain_create_internal_xml_or_raw 5 false (CFGKIND_RAW config_shm)
         all_succeed [] (mk_world (global_with (open_domain 5 3)) [])
       = CR_done DDS_RETCODE_PRECONDITION_NOT_MET None w'
       ∧ glob w' = global_with (open_domain 5 3)).
Proof.
  assert (H5 : 5 ≠ DDS_DOMAIN_DEFAULT) by (unfold DDS_DOMAIN_DEFAULT; lia).
  split; [exact H5|]. split; [vm_compute; reflexivity|].
  destruct (explicit_create_collision 5 H5) as [Hfirst _].
  destruct (Hfirst (CFGKIND_RAW config_shm) all_succeed []
              (mk_world (global_with (open_domain 5 3)) []) (open_domain 5 3))
    as (w' & Hcall & Hglob & _).
  - vm_compute. reflexivity.
  - exists w'. split; [exact Hcall|exact Hglob].
Defined.

(** One pass of an implicit call that hands out a domain: the domain is
    open, it is the one stored in the registry, and the handle is its own. *)
Lemma implicit_attempt_open id config x w domh out w' :
  create_attempt id true config x w = CR_done domh out w' →
  0 <= domh →
  ∃ dom, out = Some dom
         ∧ m_hdl (m_entity dom) = domh
         ∧ m_closed (m_entity dom) = false
         ∧ m_domains (glob w') !! m_id dom = Some dom.
Proof.
  unfold create_attempt.
  destruct (looked_up_domain id (glob w)) as [dom|]; simpl.
  - unfold dds_handle_is_closed.
    destruct (m_closed (m_entity dom)) eqn:Hclosed; [done|].
    intros [= <- <- <-] _. eexists. split; [done|]. simpl.
    split; [done|]. split; [done|]. by rewrite lookup_insert_eq.
  - destruct (dds_domain_init _ _ _ _ _ _) as [[[h dom] w1]|] eqn:Hinit; [|done].
    destruct (h <? 0) eqn:Hh.
    { intros [= <- <- <-]. lia. }
    intros [= <- <- <-] _.
    assert (Hpos : 0 <= h) by lia.
    destruct (dds_domain_init_entity _ _ _ _ _ _ _ _ _ Hinit Hpos)
      as [Hclosed Hhdl].
    eexists. split; [done|]. unfold ddsrt_avl_insert. simpl.
    split; [done|]. split; [done|]. by rewrite lookup_insert_eq.
Qed.

Lemma implicit_retry_open id config x wakeups w domh out w' :
  create_retry id true config x wakeups w = CR_done domh out w' →
  0 <= domh →
  ∃ dom, out = Some dom
         ∧ m_hdl (m_entity dom) = domh
         ∧ m_closed (m_entity dom) = false
         ∧ m_domains (glob w') !! m_id dom = Some dom.
Proof.
  revert w. induction wakeups as [|g rest IH]; intros w; simpl;
    destruct (create_attempt id true config x w) as [h o w1|w1|] eqn:E;
    try done.
  - intros [= <- <- <-]. by apply (implicit_attempt_open _ _ _ _ _ _ _ E).
  - intros [= <- <- <-]. by apply (implicit_attempt_open _ _ _ _ _ _ _ E).
  - apply IH.
Qed.

Lemma implicit_attempt_closed id config x w dom :
  looked_up_domain id (glob w) = Some dom →
  m_closed (m_entity dom) = true →
  create_attempt id true config x w = CR_wait (parked w).
Proof.
  intros Hlook Hclosed. unfold create_attempt. rewrite Hlook. simpl.
  unfold dds_handle_is_closed. by rewrite Hclosed.
Qed.

(** C4: an implicit acquisition that returns a handle returns the handle
    of an open domain (closed flag clear) that is in the registry; and when
    the domain it looked up has the closed flag set, the call releases the
    entity mutex, sleeps on the registry condition variable with
    [dds_global] untouched, and on waking repeats the whole lookup against
    the registry as it then is. *)
Theorem implicit_create_skips_closing (id : Z) (config : config_source)
    (x : ext_results) :
  (∀ wakeups w domh out w',
     dds_domain_create_internal_xml_or_raw id true config x wakeups w
     = CR_done domh out w' →
     0 <= domh →
     ∃ dom, out = Some dom
            ∧ m_hdl (m_entity dom) = domh
            ∧ m_closed (m_entity dom) = false
            ∧ m_domains (glob w') !! m_id dom = Some dom)
  ∧ (∀ w dom,
       looked_up_domain id (glob w) = Some dom →
       m_closed (m_entity dom) = true →
       create_attempt id true config x w = CR_wait (parked w)
       ∧ glob (parked w) = glob w
       ∧ trace (parked w)
         = trace w ++ [EvEntityLock; EvIsClosed; EvEntityUnlock; EvGlobalCondWait]
       ∧ create_retry id true config x [] w = CR_wait (parked w)
       ∧ ∀ g rest,
           create_retry id true config x (g :: rest) w
           = create_retry id true config x rest (mk_world g (trace (parked w)))).
Proof.
  split.
  - intros wakeups w domh out w'. apply implicit_retry_open.
  - intros w dom Hlook Hclosed.
    pose proof (implicit_attempt_closed id config x w dom Hlook Hclosed) as E.
    split; [exact E|]. split; [done|].
    split; [simpl; by rewrite <- !app_assoc|].
    split; [simpl; by rewrite E|].
    intros g rest. simpl. by rewrite E.
Qed.

(** A caller that finds domain 5 closing sleeps; woken by the broadcast
    that ends the teardown of that domain, it finds the registry without it
    and creates a fresh domain 5. *)
Lemma implicit_create_skips_closing_witness :
  ∃ dom w',
    dds_domain_create_internal_xml_or_raw 5 true (CFGKIND_RAW config_plain)
      all_succeed [after_teardown (closing_domain 5 3)]
      (mk_world (global_with (closing_domain 5 3)) [])
    = CR_done 1 (Some dom) w'
    ∧ m_closed (m_entity dom) = false
    ∧ create_attempt 5 true (CFGKIND_RAW config_plain) all_succeed
        (mk_world (global_with (closing_domain 5 3)) [])
      = CR_wait (parked (mk_world (global_with (closing_domain 5 3)) [])).
Proof.
  destruct (implicit_create_skips_closing 5 (CFGKIND_RAW config_plain)
              all_succeed) as [Hopen Hwait].
  destruct (dds_domain_create_internal_xml_or_raw 5 true
              (CFGKIND_RAW config_plain) all_succeed
              [after_teardown (closing_domain 5 3)]
              (mk_world (global_with (closing_domain 5 3)) []))
    as [domh out w'| |] eqn:E; [|vm_compute in E; discriminate..].
  assert (Hh : domh = 1) by (vm_compute in E; congruence).
  subst domh.
  destruct (Hopen _ _ _ _ _ E) as (dom & -> & _ & Hclosed & _); [lia|].
  exists dom, w'. split; [reflexivity|]. split; [exact Hclosed|].
  apply (Hwait _ (closing_domain 5 3)); vm_compute; reflexivity.
Defined.

(** ** Raw configuration and the stored domain id *)

(** The steps after the configuration switch keep the configuration and
    the parse state, and store the configuration's id on the domain. *)
Lemma dds_domain_init_tail_config domh domain x w r dom w' :
  dds_domain_init_tail domh domain x w = (r, dom, w') →
  cfgst dom = cfgst domain
  ∧ gv_config dom = gv_config domain
  ∧ m_id dom = domainId (gv_config domain).
Proof. init_cases. Qed.

Lemma dds_domain_init_raw domain domain_id raw implicit x w :
  0 <= r_entity_init x →
  ∃ domh dom w',
    dds_domain_init domain domain_id (CFGKIND_RAW raw) implicit x w
    = Returned (domh, dom, w')
    ∧ cfgst dom = None
    ∧ gv_config dom
      = (if domain_id =? DDS_DOMAIN_DEFAULT then raw
         else set_domainId domain_id raw)
    ∧ m_id dom = domainId (gv_config dom).
Proof.
  intros Hpos. unfold dds_domain_init.
  destruct (r_entity_init x <? 0) eqn:E; [lia|]. cbv zeta.
  match goal with
  | |- context [dds_domain_init_tail ?h ?d ?y ?v] =>
      destruct (dds_domain_init_tail h d y v) as [[domh dom] w'] eqn:Htail
  end.
  apply dds_domain_init_tail_config in Htail as (Hst & Hcfg & Hid).
  exists domh, dom, w'. split; [reflexivity|].
  rewrite Hid, Hcfg, Hst.
  destruct (domain_id =? DDS_DOMAIN_DEFAULT); done.
Qed.

(** C8: with raw configuration the configuration is copied into the
    domain; a concrete caller id replaces the id field of the copy, the
    sentinel leaves the configuration's own id in place; the id stored on
    the domain is read from the resulting configuration.  Through the
    public operation, which only accepts concrete ids, the domain put into
    the registry carries the caller's id and never the sentinel. *)
Theorem raw_config_domain_id (domain_id : Z) (raw : ddsi_config) :
  (∀ domain implicit x w,
     0 <= r_entity_init x →
     ∃ domh dom w',
       dds_domain_init domain domain_id (CFGKIND_RAW raw) implicit x w
       = Returned (domh, dom, w')
       ∧ gv_config dom
         = (if domain_id =? DDS_DOMAIN_DEFAULT then raw
            else set_domainId domain_id raw)
       ∧ m_id dom = domainId (gv_config dom)
       ∧ (domain_id ≠ DDS_DOMAIN_DEFAULT → m_id dom = domain_id)
       ∧ (domain_id = DDS_DOMAIN_DEFAULT → m_id dom = domainId raw))
  ∧ (∀ x wakeups w domh out w',
       dds_create_domain_with_rawconfig domain_id (Some raw) x wakeups w
       = CR_done domh out w' →
       0 <= domh →
       domain_id ≠ DDS_DOMAIN_DEFAULT
       ∧ ∃ dom, m_domains (glob w') !! domain_id = Some dom
                ∧ m_id dom = domain_id
                ∧ gv_config dom = set_domainId domain_id raw).
Proof.
  split.
  - intros domain implicit x w Hpos.
    destruct (dds_domain_init_raw domain domain_id raw implicit x w Hpos)
      as (domh & dom & w' & Heq & _ & Hcfg & Hid).
    exists domh, dom, w'. split; [exact Heq|]. split; [exact Hcfg|].
    split; [exact Hid|]. rewrite Hid, Hcfg. split; intros H.
    + destruct (domain_id =? DDS_DOMAIN_DEFAULT) eqn:E; [lia|done].
    + destruct (domain_id =? DDS_DOMAIN_DEFAULT) eqn:E; [done|lia].
  - intros x wakeups w domh out w'. unfold dds_create_domain_with_rawconfig.
    destruct (domain_id =? DDS_DOMAIN_DEFAULT) eqn:Hdef.
    { intros [= <- <- <-]. unfold DDS_RETCODE_BAD_PARAMETER. lia. }
    destruct (r_dds_init x <? 0) eqn:Hinit0.
    { intros [= <- <- <-]. lia. }
    unfold dds_domain_create_internal_xml_or_raw.
    rewrite explicit_retry_is_attempt. unfold create_attempt.
    destruct (looked_up_domain _ _); simpl.
    { intros [= <- <- <-]. unfold DDS_RETCODE_PRECONDITION_NOT_MET. lia. }
    destruct (r_entity_init x <? 0) eqn:Hent.
    { unfold dds_domain_init. rewrite Hent. cbv zeta. rewrite Hent.
      intros [= <- <- <-]. lia. }
    match goal with
    | |- context [dds_domain_init ?d ?i ?c ?b ?y ?v] =>
        destruct (dds_domain_init_raw d i raw b y v)
          as (h & dom & w1 & -> & _ & Hcfg & Hid); [lia|]
    end.
    rewrite Hdef in Hcfg.
    destruct (h <? 0) eqn:Hh.
    { intros [= <- <- <-]. lia. }
    intros [= <- <- <-] _. split; [lia|]. exists dom.
    unfold ddsrt_avl_insert. simpl.
    assert (m_id dom = domain_id) as Hid' by (by rewrite Hid, Hcfg).
    rewrite Hid', lookup_insert_eq. done.
Qed.

Lemma raw_config_domain_id_witness :
  (∃ domh dom w',
     dds_domain_init dds_alloc 7 (CFGKIND_RAW config_monitoring) false
       all_succeed empty_world = Returned (domh, dom, w')
     ∧ m_id dom = 7)
  ∧ (∃ domh dom w',
       dds_domain_init dds_alloc DDS_DOMAIN_DEFAULT
         (CFGKIND_RAW (set_domainId 3 config_plain)) true all_succeed
         empty_world = Returned (domh, dom, w')
       ∧ m_id dom = 3).
Proof.
  split.
  - destruct (raw_config_domain_id 7 config_monitoring) as [Hinit _].
    destruct (Hinit dds_alloc false all_succeed empty_world)
      as (domh & dom & w' & Heq & _ & _ & Hid & _); [vm_compute; discriminate|].
    exists domh, dom, w'. split; [exact Heq|].
    apply Hid. vm_compute. discriminate.
  - destruct (raw_config_domain_id DDS_DOMAIN_DEFAULT
                (set_domainId 3 config_plain)) as [Hinit _].
    destruct (Hinit dds_alloc true all_succeed empty_world)
      as (domh & dom & w' & Heq & _ & _ & _ & Hid); [vm_compute; discriminate|].
    exists domh, dom, w'. split; [exact Heq|].
    apply Hid. reflexivity.
Defined.

(** ** Argument checks of the public operations *)

(** C9: [dds_create_domain] and [dds_create_domain_with_rawconfig] called
    with the sentinel id, and [dds_create_domain_with_rawconfig] called
    with a null raw configuration (its required configuration argument),
    return Bad-Parameter before any other step: nothing is called, and
    [dds_global] with every domain in it stays as it was. *)
Theorem create_domain_bad_parameter :
  (∀ config_xml x wakeups w,
     dds_create_domain DDS_DOMAIN_DEFAULT config_xml x wakeups w
     = CR_done DDS_RETCODE_BAD_PARAMETER None w)
  ∧ (∀ config_raw x wakeups w,
       dds_create_domain_with_rawconfig DDS_DOMAIN_DEFAULT config_raw x wakeups w
       = CR_done DDS_RETCODE_BAD_PARAMETER None w)
  ∧ (∀ domain x wakeups w,
       dds_create_domain_with_rawconfig domain None x wakeups w
       = CR_done DDS_RETCODE_BAD_PARAMETER None w).
Proof.
  split; [|split].
  - reflexivity.
  - reflexivity.
  - intros domain x wakeups w. unfold dds_create_domain_with_rawconfig.
    by destruct (domain =? DDS_DOMAIN_DEFAULT).
Qed.

(** The textual configuration of [dds_create_domain] is optional: a null
    pointer stands for the empty text. *)
Lemma create_domain_null_text domain x wakeups w :
  dds_create_domain domain None x wakeups w
  = dds_create_domain domain (Some EmptyString) x wakeups w.
Proof. reflexivity. Qed.

(** ** Teardown *)

Lemma last_reference (c : Z) :
  0 <= c < 2 ^ 32 → (wrap_u32 (c - 1) =? 0) = (c =? 1).
Proof.
  intros Hc. unfold wrap_u32.
  destruct (decide (c = 0)) as [->|Hnz]; [reflexivity|].
  rewrite Z.mod_small by lia.
  destruct (c =? 1) eqn:E; lia.
Qed.

(** C6: [dds_domain_free] calls, in this order: stop the protocol stack,
    finalise the built-in topics, unregister from the liveliness monitor if
    monitoring is enabled, destroy the shared-memory monitor if enabled,
    finalise the protocol stack, take the registry mutex, stop and destroy
    the monitor singleton if monitoring is enabled and this was its last
    reference, remove the domain from the registry, run the entity's
    pre-free finalisation, release the parse state if there is one, free
    the domain, broadcast the registry condition variable, release the
    mutex; it returns [DDS_RETCODE_NO_DATA]. *)
Theorem dds_domain_free_sequence (domain : dds_domain) (w : world) :
  0 <= threadmon_count (glob w) < 2 ^ 32 →
  ∃ w',
    dds_domain_free domain w = (DDS_RETCODE_NO_DATA, w')
    ∧ trace w'
      = trace w
        ++ teardown_sequence
             (liveliness_monitoring (gv_config domain))
             (enable_shm (gv_config domain))
             (threadmon_count (glob w) =? 1)
             (bool_decide (is_Some (cfgst domain)))
             (m_id domain)
    ∧ m_domains (glob w') = delete (m_id domain) (m_domains (glob w))
    ∧ threadmon_count (glob w')
      = (if liveliness_monitoring (gv_config domain)
         then threadmon_count (glob w) - 1
         else threadmon_count (glob w))
         mod 2 ^ 32
    ∧ (liveliness_monitoring (gv_config domain) = true →
       threadmon_count (glob w) = 1 →
       threadmon_present (glob w') = false).
Proof.
  intros Hc. eexists. split; [reflexivity|].
  pose proof (last_reference _ Hc) as Hlast.
  unfold teardown_sequence, ddsrt_avl_delete.
  destruct (liveliness_monitoring (gv_config domain)),
    (enable_shm (gv_config domain)), (cfgst domain) as [st|];
    cbn [emit set_threadmon_count set_threadmon set_m_domains glob trace
         threadmon_count threadmon m_domains andb];
    try rewrite Hlast;
    try destruct (threadmon_count (glob w) =? 1) eqn:E;
    cbn [emit set_threadmon_count set_threadmon set_m_domains glob trace
         threadmon_count threadmon m_domains andb];
    rewrite <- ?app_assoc;
    (split; [reflexivity|]); (split; [reflexivity|]);
    (split; [first [reflexivity | symmetry; apply Z.mod_small; lia]|]);
    try done; intros _ H1; try lia;
    unfold threadmon_present; simpl;
    destruct (threadmon (glob w)); reflexivity.
Qed.

Lemma dds_domain_free_sequence_witness :
  ∃ w',
    dds_domain_free (open_domain 5 3)
      (mk_world (global_with (open_domain 5 3)) []) = (DDS_RETCODE_NO_DATA, w')
    ∧ trace w'
      = [EvRtpsStop; EvBuiltinFini; EvRtpsFini; EvGlobalLock; EvAvlDelete 5;
         EvFinalDeinit; EvFree; EvGlobalCondBroadcast; EvGlobalUnlock]
    ∧ m_domains (glob w') = ∅.
Proof.
  destruct (dds_domain_free_sequence (open_domain 5 3)
              (mk_world (global_with (open_domain 5 3)) []))
    as (w' & Hcall & Htrace & Hreg & _).
  - simpl. lia.
  - exists w'. split; [exact Hcall|]. split; [exact Htrace|].
    rewrite Hreg. vm_compute. reflexivity.
Defined.

(** ** The deadline of the type-resolution wait *)

Lemma wrap_i64_id (z : Z) : is_i64 z → wrap_i64 z = z.
Proof.
  unfold is_i64, INT64_MIN, INT64_MAX, wrap_i64. intros Hz.
  rewrite Z.mod_small; lia.
Qed.

(** For a negative timeout the subtraction on line 500 leaves the range of
    [int64_t]; wrapped around it compares below any clock value, and the
    deadline becomes "never" although [tnow + timeout] is an ordinary
    instant in the past. *)
Lemma deadline_negative_timeout :
  is_i64 1000 ∧ is_i64 (-1)
  ∧ INT64_MIN <= 1000 + -1 < DDS_INFINITY
  ∧ abstimeout 1000 (-1) = DDS_NEVER
  ∧ abstimeout 1000 (-1) ≠ 1000 + -1.
Proof. vm_compute. repeat split; discriminate. Qed.

(** C7 as stated, for every timeout value, fails at clock 1000 and
    timeout -1. *)
Lemma deadline_saturates_for_all_fails :
  abstimeout 1000 (-1) = DDS_NEVER
  ∧ 1000 + -1 < DDS_INFINITY
  ∧ ¬ deadline_saturates_for_all.
Proof.
  destruct deadline_negative_timeout as (Hnow & Hto & Hsum & Hnever & Hne).
  split; [exact Hnever|]. split; [apply Hsum|].
  intros H. destruct (H 1000 (-1) Hnow Hto) as [Hexact _].
  exact (Hne (Hexact Hsum)).
Qed.

(** C7, amended: for every clock value and every non-negative timeout the
    deadline is [tnow + timeout] when that sum lies below the maximum
    duration sentinel, and [DDS_NEVER] when the sum reaches or exceeds it;
    neither the subtraction nor the addition on line 500 leaves the range
    of [int64_t]. *)
Theorem deadline_saturates (tnow timeout : Z) :
  is_i64 tnow →
  0 <= timeout <= INT64_MAX →
  (tnow + timeout < DDS_INFINITY →
     abstimeout tnow timeout = tnow + timeout ∧ is_i64 (tnow + timeout))
  ∧ (DDS_INFINITY <= tnow + timeout → abstimeout tnow timeout = DDS_NEVER)
  ∧ is_i64 (DDS_INFINITY - timeout)
  ∧ is_i64 (abstimeout tnow timeout).
Proof.
  intros Hnow Hto.
  assert (Hsub : is_i64 (DDS_INFINITY - timeout))
    by (unfold is_i64, DDS_INFINITY, INT64_MIN, INT64_MAX in *; lia).
  unfold abstimeout. rewrite (wrap_i64_id _ Hsub).
  unfold is_i64, DDS_INFINITY, DDS_NEVER, INT64_MIN, INT64_MAX in *.
  destruct (2 ^ 63 - 1 - timeout <=? tnow) eqn:E.
  - split; [lia|]. split; [done|]. split; [lia|]. lia.
  - assert (Hsum : - 2 ^ 63 <= tnow + timeout <= 2 ^ 63 - 1) by lia.
    rewrite (wrap_i64_id (tnow + timeout))
      by (unfold is_i64, INT64_MIN, INT64_MAX; lia).
    split; [intros _; split; [done|lia]|]. split; [lia|]. split; lia.
Qed.

Lemma deadline_saturates_witness :
  abstimeout 1000 DDS_INFINITY = DDS_NEVER
  ∧ abstimeout 1000 5 = 1005.
Proof.
  split.
  - apply (deadline_saturates 1000 DDS_INFINITY); vm_compute;
      repeat split; discriminate.
  - apply (deadline_saturates 1000 5); vm_compute;
      repeat split; try discriminate; reflexivity.
Defined.

(** ** The type-resolution wait *)

(** The loop of lines 504-508 leaves the record unresolved only through a
    wait that reported the deadline as passed. *)
Lemma wait_unresolved_by_expiry include_deps deadline cur wakeups last waits :
  wait_until_resolved include_deps deadline cur wakeups = Some (last, waits) →
  ddsi_type_resolved last include_deps = false →
  (false, last) ∈ wakeups
  ∧ ∃ before, waits = before ++ [EvTypelibCondWaituntil deadline].
Proof.
  revert cur waits.
  induction wakeups as [|[signalled cur'] rest IH]; intros cur waits; simpl.
  - destruct (ddsi_type_resolved cur include_deps) eqn:E; [|done].
    intros [= <- <-] H. congruence.
  - destruct (ddsi_type_resolved cur include_deps) eqn:E.
    { intros [= <- <-] H. congruence. }
    destruct signalled; simpl.
    + destruct (wait_until_resolved include_deps deadline cur' rest)
        as [[cur'' evs]|] eqn:Hrest; [|done].
      intros [= <- <-] H.
      destruct (IH _ _ Hrest H) as [Hin [before ->]].
      split; [by right|]. by exists (EvTypelibCondWaituntil deadline :: before).
    + intros [= <- <-] H. split; [left|]. by exists [].
Qed.

Ltac wft_cases :=
  unfold wait_for_type_resolved, ddsi_type_lookup_locked in *; intros;
  repeat (case_match; simplify_eq/=; try done).

(** The Timeout code comes from line 487 alone, unless [dds_entity_pin]
    itself failed with it. *)
Lemma timeout_only_on_zero_probe type_id timeout sertype type_obj env r :
  wait_for_type_resolved type_id timeout sertype type_obj env = Some r →
  wr_rc r = DDS_RETCODE_TIMEOUT →
  e_pin env ≠ DDS_RETCODE_TIMEOUT →
  timeout = 0
  ∧ wr_sertype r = sertype ∧ wr_type_obj r = type_obj
  ∧ ∃ dom type,
      e_m_domain env = Some dom
      ∧ ddsi_type_lookup_locked (gv_typelib dom) type_id = Some type
      ∧ immediately_available sertype type_obj type = false.
Proof.
  unfold immediately_available.
  wft_cases; try lia; unfold ddsi_type_sertype in *;
    (split; [lia|]); (split; [done|]); (split; [done|]);
    eexists _, _; (split; [done|]); (split; [done|]);
    repeat match goal with
           | H : _ = _ |- _ => rewrite H
           end; simpl;
    rewrite ?andb_false_r; try done.
Qed.

(** A wait that ends with the record unresolved is reported as success;
    [*sertype] holds the null pointer stored on line 502 and [*type_obj]
    was never written. *)
Lemma expired_wait_is_success type_id timeout sertype type_obj env dom type
    last waits :
  timeout ≠ 0 →
  ddsi_typeid_is_hash type_id = true →
  0 <= e_pin env →
  e_m_domain env = Some dom →
  ddsi_type_lookup_locked (gv_typelib dom) type_id = Some type →
  immediately_available sertype type_obj type = false →
  e_tl_request env = true →
  wait_until_resolved (bool_decide (is_Some sertype))
    (abstimeout (e_tnow env) timeout) (e_relocked env) (e_wakeups env)
  = Some (last, waits) →
  ddsi_type_resolved last (bool_decide (is_Some sertype)) = false →
  ∃ r,
    wait_for_type_resolved type_id timeout sertype type_obj env = Some r
    ∧ wr_rc r = DDS_RETCODE_OK
    ∧ wr_sertype r = match sertype with Some _ => Some None | None => None end
    ∧ wr_type_obj r = type_obj.
Proof.
  intros Hto Hhash Hpin Hdom Hlook Havail Hreq Hwait Hlast.
  destruct type_id as [|h|]; try discriminate.
  unfold wait_for_type_resolved. simpl in *.
  destruct (e_pin env <? 0) eqn:E; [lia|].
  rewrite Hdom, Hlook, Hreq. simpl.
  destruct (timeout =? 0) eqn:E0; [lia|].
  unfold immediately_available in Havail.
  apply orb_false_elim in Havail as [Hst Hobj].
  rewrite Hobj.
  destruct sertype as [s|], (ddsi_type_sertype type) as [st|]; simpl in *;
    try discriminate;
    rewrite Hwait, Hlast; eexists; (split; [reflexivity|]); done.
Qed.

(** X28: [wait_for_type_resolved] returns the Timeout code only for a call
    with timeout zero whose requested output was not available at once
    (the pin failing with that very code aside); and for a positive
    timeout, when the wait ends at the deadline with the type unresolved,
    the call returns success, [*sertype] is null and [*type_obj] is left
    as the caller passed it. *)
Theorem timeout_code_asymmetry (type_id : ddsi_typeid) (timeout : Z)
    (sertype type_obj : option (option nat)) (env : wft_env) :
  (∀ r,
     wait_for_type_resolved type_id timeout sertype type_obj env = Some r →
     wr_rc r = DDS_RETCODE_TIMEOUT →
     e_pin env ≠ DDS_RETCODE_TIMEOUT →
     timeout = 0
     ∧ ∃ dom type,
         e_m_domain env = Some dom
         ∧ ddsi_type_lookup_locked (gv_typelib dom) type_id = Some type
         ∧ immediately_available sertype type_obj type = false)
  ∧ (∀ dom type last waits,
       0 < timeout →
       ddsi_typeid_is_hash type_id = true →
       0 <= e_pin env →
       e_m_domain env = Some dom →
       ddsi_type_lookup_locked (gv_typelib dom) type_id = Some type →
       immediately_available sertype type_obj type = false →
       e_tl_request env = true →
       wait_until_resolved (bool_decide (is_Some sertype))
         (abstimeout (e_tnow env) timeout) (e_relocked env) (e_wakeups env)
       = Some (last, waits) →
       ddsi_type_resolved last (bool_decide (is_Some sertype)) = false →
       (false, last) ∈ e_wakeups env
       ∧ ∃ r,
           wait_for_type_resolved type_id timeout sertype type_obj env = Some r
           ∧ wr_rc r = DDS_RETCODE_OK
           ∧ wr_sertype r
             = match sertype with Some _ => Some None | None => None end
           ∧ wr_type_obj r = type_obj).
Proof.
  split.
  - intros r Hcall Hrc Hpin.
    destruct (timeout_only_on_zero_probe _ _ _ _ _ _ Hcall Hrc Hpin)
      as (H0 & _ & _ & Hex).
    by split.
  - intros dom type last waits Hto Hhash Hpin Hdom Hlook Havail Hreq Hwait Hlast.
    split.
    + by destruct (wait_unresolved_by_expiry _ _ _ _ _ _ Hwait Hlast).
    + apply (expired_wait_is_success _ _ _ _ _ dom type last waits);
        try done; lia.
Qed.

(** A probe with timeout zero misses and gets Timeout; the same request
    with one second to wait, the deadline passing with nothing resolved,
    gets success and a null sertype. *)
Lemma timeout_code_asymmetry_witness :
  (∃ r,
     dds_resolve_type (TypeIdHash 4) 0 (Some None)
       (mk_wft_env 0 (Some (domain_with_type 4 unresolved_type)) true 1000
          unresolved_type []) = Some r
     ∧ wr_rc r = DDS_RETCODE_TIMEOUT
     ∧ ∃ dom type,
         Some (domain_with_type 4 unresolved_type) = Some dom
         ∧ ddsi_type_lookup_locked (gv_typelib dom) (TypeIdHash 4) = Some type
         ∧ immediately_available (Some None) None type = false)
  ∧ (∃ r,
       dds_resolve_type (TypeIdHash 4) 1000000000 (Some (Some 8%nat))
         (mk_wft_env 0 (Some (domain_with_type 4 unresolved_type)) true 1000
            unresolved_type [(true, unresolved_type); (false, unresolved_type)])
       = Some r
       ∧ wr_rc r = DDS_RETCODE_OK
       ∧ wr_sertype r = Some None).
Proof.
  split.
  - destruct (timeout_code_asymmetry (TypeIdHash 4) 0 (Some None) None
                (mk_wft_env 0 (Some (domain_with_type 4 unresolved_type)) true
                   1000 unresolved_type [])) as [Hzero _].
    eexists. split; [vm_compute; reflexivity|]. split; [reflexivity|].
    eapply Hzero; [vm_compute; reflexivity|reflexivity|vm_compute; discriminate].
  - destruct (timeout_code_asymmetry (TypeIdHash 4) 1000000000
                (Some (Some 8%nat)) None
                (mk_wft_env 0 (Some (domain_with_type 4 unresolved_type)) true
                   1000 unresolved_type
                   [(true, unresolved_type); (false, unresolved_type)]))
      as [_ Hexp].
    destruct (Hexp (domain_with_type 4 unresolved_type) unresolved_type
                unresolved_type
                [EvTypelibCondWaituntil 1000001000;
                 EvTypelibCondWaituntil 1000001000])
      as [_ (r & Hcall & Hrc & Hst & _)];
      try (vm_compute; reflexivity); try (vm_compute; discriminate).
    exists r. split; [exact Hcall|]. split; [exact Hrc|exact Hst].
Defined.

(** C2 at the input where it fails.  A type object is requested, with one
    second to wait, for a record that stays unresolved, and [*type_obj]
    holds a non-null value on entry.  The deadline passes, the call
    reports success, and [*type_obj] still holds the value the caller
    passed: lines 501-502 clear [*sertype] alone, and
    [ddsi_type_get_typeobj] is never called.  The same wait for a sertype
    does leave a null pointer in its output. *)
Theorem expired_typeobj_wait_keeps_stale_output :
  (∃ r,
     dds_get_typeobj (TypeIdHash 4) 1000000000 (Some (Some 8%nat))
       (mk_wft_env 0 (Some (domain_with_type 4 unresolved_type)) true 1000
          unresolved_type [(false, unresolved_type)]) = Some r
     ∧ wr_rc r = DDS_RETCODE_OK
     ∧ wr_type_obj r = Some (Some 8%nat)
     ∧ wr_trace r
       = [EvEntityPin; EvTypelibLock; EvTypeLookup; EvTypelibUnlock;
          EvTlRequest false; EvTime; EvTypelibLock;
          EvTypelibCondWaituntil 1000001000; EvTypelibUnlock; EvEntityUnpin])
  ∧ (∃ r,
       dds_resolve_type (TypeIdHash 4) 1000000000 (Some (Some 8%nat))
         (mk_wft_env 0 (Some (domain_with_type 4 unresolved_type)) true 1000
            unresolved_type [(false, unresolved_type)]) = Some r
       ∧ wr_rc r = DDS_RETCODE_OK
       ∧ wr_sertype r = Some None).
Proof.
  split; eexists; (split; [vm_compute; reflexivity|]);
    repeat split; reflexivity.
Qed.

(** C10: when the hash-based identifier has no record in the type library
    of the entity's domain, the call returns Precondition-Not-Met for
    every timeout; it only pins the entity, takes the type-library lock,
    looks the identifier up, releases the lock and unpins: no resolution
    request, no wait, outputs and type library as they were. *)
Theorem unknown_type_precondition_not_met (h : N) (timeout : Z)
    (sertype type_obj : option (option nat)) (env : wft_env)
    (dom : dds_domain) :
  0 <= e_pin env →
  e_m_domain env = Some dom →
  gv_typelib dom !! h = None →
  wait_for_type_resolved (TypeIdHash h) timeout sertype type_obj env
  = Some (mk_wft_result DDS_RETCODE_PRECONDITION_NOT_MET sertype type_obj
            (Some (gv_typelib dom))
            [EvEntityPin; EvTypelibLock; EvTypeLookup; EvTypelibUnlock;
             EvEntityUnpin]).
Proof.
  intros Hpin Hdom Hlook. unfold wait_for_type_resolved. simpl.
  destruct (e_pin env <? 0) eqn:E; [lia|].
  by rewrite Hdom, Hlook.
Qed.

Lemma unknown_type_precondition_not_met_witness :
  wait_for_type_resolved (TypeIdHash 6) DDS_INFINITY (Some None) None
    (mk_wft_env 0 (Some (domain_with_type 4 resolved_type)) true 1000
       resolved_type [])
  = Some (mk_wft_result DDS_RETCODE_PRECONDITION_NOT_MET (Some None) None
            (Some {[ 4%N := resolved_type ]})
            [EvEntityPin; EvTypelibLock; EvTypeLookup; EvTypelibUnlock;
             EvEntityUnpin]).
Proof.
  apply (unknown_type_precondition_not_met 6 DDS_INFINITY (Some None) None _
           (domain_with_type 4 resolved_type)).
  - vm_compute. discriminate.
  - reflexivity.
  - vm_compute. reflexivity.
Defined.

(** ** Failure of the initialisation sequence *)

(** Turns the tests on the [uint32_t] counter into arithmetic facts. *)
Ltac wrap_norm :=
  unfold wrap_u32 in *;
  repeat match goal with
         | H : (_ =? _) = true |- _ => apply Z.eqb_eq in H
         | H : (_ =? _) = false |- _ => apply Z.eqb_neq in H
         end;
  repeat match goal with
         | H : context [?a mod 2 ^ 32] |- _ =>
             rewrite (Z.mod_small a (2 ^ 32)) in H by lia
         | |- context [?a mod 2 ^ 32] =>
             rewrite (Z.mod_small a (2 ^ 32)) by lia
         end.

(** X24: a failed initialisation inside a creation call: the error code is
    handed on unchanged, the object is freed, nothing is stored in
    [*domain_out] and the registry tree is the one the call started with. *)
Lemma failed_init_leaves_registry id implicit config x w domh dom w1 :
  looked_up_domain id (glob w) = None →
  dds_domain_init dds_alloc id config implicit x (emit EvAlloc w)
  = Returned (domh, dom, w1) →
  domh < 0 →
  create_attempt id implicit config x w
  = CR_done domh None (emit EvGlobalUnlock (emit EvFree w1))
  ∧ m_domains (glob (emit EvGlobalUnlock (emit EvFree w1))) = m_domains (glob w).
Proof.
  intros Hlook Hinit Hneg. unfold create_attempt.
  rewrite Hlook, Hinit. destruct (domh <? 0) eqn:E; [|lia].
  split; [done|]. simpl.
  by rewrite (dds_domain_init_registry _ _ _ _ _ _ _ _ _ Hinit).
Qed.

(** A successful initialisation returns the handle [dds_entity_init] gave. *)
Lemma dds_domain_init_result domain domain_id config implicit x w domh dom w' :
  dds_domain_init domain domain_id config implicit x w = Returned (domh, dom, w') →
  domh = r_entity_init x
  ∨ domh = DDS_RETCODE_ERROR
  ∨ domh = DDS_RETCODE_OUT_OF_RESOURCES.
Proof. init_cases; auto. Qed.

(** X25: without shared memory, a failed initialisation undoes the completed
    steps in reverse order, and nothing else. *)
Lemma failed_init_unwinds domain domain_id config implicit x w domh dom w' :
  dds_domain_init domain domain_id config implicit x w = Returned (domh, dom, w') →
  domh < 0 →
  0 <= threadmon_count (glob w) < 2 ^ 32 - 1 →
  enable_shm (gv_config dom) = false →
  ∃ evs, trace w' = trace w ++ evs ∧ unwound_in_reverse evs.
Proof.
  unfold unwound_in_reverse, DDS_RETCODE_ERROR, DDS_RETCODE_OUT_OF_RESOURCES.
  init_cases; try lia; try congruence; wrap_norm; try lia;
    (eexists; split; [rewrite <- ?app_assoc; reflexivity|reflexivity]).
Qed.

(** X26: unless the allocation of the monitor is what failed, a failed
    initialisation leaves the monitor reference count where it was. *)
Lemma failed_init_restores_count domain domain_id config implicit x w domh dom w' :
  dds_domain_init domain domain_id config implicit x w = Returned (domh, dom, w') →
  domh < 0 →
  0 <= threadmon_count (glob w) < 2 ^ 32 - 1 →
  (threadmon_count (glob w) = 0 → r_threadmon_new x = true) →
  threadmon_count (glob w') = threadmon_count (glob w).
Proof.
  unfold DDS_RETCODE_ERROR, DDS_RETCODE_OUT_OF_RESOURCES.
  init_cases; try lia; wrap_norm; try lia;
    match goal with
    | H : ?c = 0 → false = true |- _ =>
        destruct (decide (c = 0)) as [H0|H0]; [by apply H in H0|lia]
    end.
Qed.

(** ** The monitor singleton and its reference count *)

Ltac consistent_cases :=
  unfold threadmon_consistent, threadmon_present in *; simpl in *;
  wrap_norm;
  repeat match goal with
         | H : context [threadmon (glob ?w)] |- _ =>
             destruct (threadmon (glob w)) as [[]|]; simpl in *
         | |- context [threadmon (glob ?w)] =>
             destruct (threadmon (glob w)) as [[]|]; simpl in *
         end;
  try (split; intros; (done || lia));
  try (intuition (done || lia)).

(** Initialisation keeps the monitor and its count in step, whether it
    succeeds or fails, as long as the allocation of the monitor is not
    what fails. *)
Lemma init_keeps_threadmon_consistent domain domain_id config implicit x w
    domh dom w' :
  dds_domain_init domain domain_id config implicit x w = Returned (domh, dom, w') →
  0 <= threadmon_count (glob w) < 2 ^ 32 - 1 →
  threadmon_consistent (glob w) →
  (threadmon_count (glob w) = 0 → r_threadmon_new x = true) →
  threadmon_consistent (glob w').
Proof.
  init_cases; try (consistent_cases; fail);
    match goal with
    | H : ?c = 0 → false = true |- _ =>
        destruct (decide (c = 0)) as [H0|H0]; [by apply H in H0|]
    | _ => idtac
    end; consistent_cases.
Qed.

(** Teardown of a domain that holds a reference keeps them in step. *)
Lemma free_keeps_threadmon_consistent domain w :
  (liveliness_monitoring (gv_config domain) = true →
   0 < threadmon_count (glob w) < 2 ^ 32) →
  threadmon_consistent (glob w) →
  threadmon_consistent (glob (snd (dds_domain_free domain w))).
Proof.
  unfold dds_domain_free. intros Hc Hcons.
  destruct (liveliness_monitoring (gv_config domain)) eqn:Hlm;
    [specialize (Hc eq_refl)|];
    repeat (case_match; simplify_eq/=; try done);
    consistent_cases.
Qed.

(** C5 at the input where it fails.  The first monitoring-enabled domain is
    created and [ddsi_threadmon_new] returns a null pointer: the call
    reports Out-Of-Resources and inserts nothing, yet the reference count
    it incremented on line 154 stays at 1 with no monitor instance, because
    the label [fail_threadmon_new] lies below the decrement. *)
Theorem threadmon_count_without_instance :
  threadmon_consistent empty_global
  ∧ ∃ w',
      dds_domain_create_internal_xml_or_raw 5 false
        (CFGKIND_RAW config_monitoring) threadmon_new_fails [] empty_world
      = CR_done DDS_RETCODE_OUT_OF_RESOURCES None w'
      ∧ m_domains (glob w') = ∅
      ∧ threadmon_count (glob w') = 1
      ∧ threadmon (glob w') = None
      ∧ threadmon_present (glob w') = false
      ∧ ¬ threadmon_consistent (glob w').
Proof.
  split; [by vm_compute|].
  eexists. split; [vm_compute; reflexivity|].
  repeat split; try reflexivity.
  unfold threadmon_consistent. simpl. intros [_ H].
  specialize (H ltac:(lia)). discriminate.
Qed.

(** C3 at the inputs where it fails.  When [ddsi_threadmon_new] fails the
    unwinding runs [rtps_fini] and [dds_handle_delete] but leaves the
    monitor reference count incremented; and with shared memory enabled a
    failing [rtps_start] is unwound without [shm_monitor_destroy] for the
    monitor that [shm_monitor_init] set up. *)
Theorem failed_init_not_fully_unwound :
  (∃ w',
     dds_domain_create_internal_xml_or_raw 5 false
       (CFGKIND_RAW config_monitoring) threadmon_new_fails [] empty_world
     = CR_done DDS_RETCODE_OUT_OF_RESOURCES None w'
     ∧ trace w'
       = [EvGlobalLock; EvAlloc; EvEntityInit; EvIidGen; EvRtpsConfigPrep;
          EvRtpsInit; EvThreadmonNew; EvRtpsFini; EvHandleDelete; EvFree;
          EvGlobalUnlock]
     ∧ m_domains (glob w') = m_domains empty_global
     ∧ threadmon_count empty_global = 0
     ∧ threadmon_count (glob w') = 1)
  ∧ (∃ w',
       dds_domain_create_internal_xml_or_raw 5 false (CFGKIND_RAW config_shm)
         rtps_start_fails [] empty_world
       = CR_done DDS_RETCODE_ERROR None w'
       ∧ trace w'
         = [EvGlobalLock; EvAlloc; EvEntityInit; EvIidGen; EvRtpsConfigPrep;
            EvRtpsInit; EvShmMonitorInit; EvBuiltinInit; EvRtpsStart;
            EvBuiltinFini; EvRtpsFini; EvHandleDelete; EvFree; EvGlobalUnlock]
       ∧ ¬ unwound_in_reverse
             [EvEntityInit; EvIidGen; EvRtpsConfigPrep; EvRtpsInit;
              EvShmMonitorInit; EvBuiltinInit; EvRtpsStart; EvBuiltinFini;
              EvRtpsFini; EvHandleDelete]).
Proof.
  split.
  - eexists. split; [vm_compute; reflexivity|]. by repeat split.
  - eexists. split; [vm_compute; reflexivity|]. split; [reflexivity|].
    unfold unwound_in_reverse. vm_compute. discriminate.
Qed.

(** ** The registry as a map *)

(** A new domain is inserted under a key that was free: the tree never
    holds two nodes with one id. *)
Lemma create_inserts_fresh id implicit config x w domh dom w1 :
  looked_up_domain id (glob w) = None →
  dds_domain_init dds_alloc id config implicit x (emit EvAlloc w)
  = Returned (domh, dom, w1) →
  0 <= domh →
  m_domains (glob w1) !! m_id dom = None.
Proof.
  unfold looked_up_domain. intros Hlook Hinit Hpos.
  rewrite (dds_domain_init_registry _ _ _ _ _ _ _ _ _ Hinit). simpl.
  destruct (id =? DDS_DOMAIN_DEFAULT) eqn:E; simpl in Hlook.
  - apply ddsrt_avl_find_min_None in Hlook. by rewrite Hlook, lookup_empty.
  - rewrite (dds_domain_init_concrete_id _ _ _ _ _ _ _ _ _ Hinit Hpos);
      [done|lia].
Qed.

Lemma looked_up_domain_wf id g dom :
  registry_wf g → looked_up_domain id g = Some dom →
  m_domains g !! m_id dom = Some dom.
Proof.
  unfold looked_up_domain, dds_domain_find_locked. intros Hwf.
  destruct (id =? DDS_DOMAIN_DEFAULT); simpl.
  - intros (k & Hk & _)%ddsrt_avl_find_min_Some.
    by rewrite (Hwf _ _ Hk).
  - intros Hk. by rewrite (Hwf _ _ Hk).
Qed.

(** Creation keeps every node under its own id. *)
Lemma create_attempt_wf id implicit config x w domh out w' :
  registry_wf (glob w) →
  create_attempt id implicit config x w = CR_done domh out w' →
  registry_wf (glob w').
Proof.
  intros Hwf. unfold create_attempt.
  destruct (looked_up_domain id (glob w)) as [dom|] eqn:Hlook.
  - destruct implicit; simpl.
    + destruct (dds_handle_is_closed (m_entity dom)); [done|].
      intros [= <- <- <-]. unfold registry_wf. simpl. intros k d.
      rewrite lookup_insert. case_decide; [by intros [= <-]|]. apply Hwf.
    + by intros [= <- <- <-].
  - destruct (dds_domain_init _ _ _ _ _ _) as [[[h dom] w1]|] eqn:Hinit; [|done].
    pose proof (dds_domain_init_registry _ _ _ _ _ _ _ _ _ Hinit) as Hreg.
    simpl in Hreg.
    destruct (h <? 0).
    { intros [= <- <- <-]. simpl. unfold registry_wf. by rewrite Hreg. }
    destruct implicit; intros [= <- <- <-];
      unfold ddsrt_avl_insert, registry_wf; simpl;
      intros k d; rewrite lookup_insert; (case_decide; [by intros [= <-]|]);
      rewrite Hreg; apply Hwf.
Qed.

(** Teardown removes the domain and keeps the rest in place. *)
Lemma dds_domain_free_wf domain w :
  registry_wf (glob w) →
  registry_wf (glob (snd (dds_domain_free domain w)))
  ∧ m_domains (glob (snd (dds_domain_free domain w))) !! m_id domain = None.
Proof.
  intros Hwf. unfold dds_domain_free, ddsrt_avl_delete, registry_wf.
  repeat (case_match; simplify_eq/=);
    (split; [intros k d [_ Hk]%lookup_delete_Some; by apply Hwf
            |by apply lookup_delete_eq]).
Qed.

(** ** The zero-timeout probe *)

(** A probe with timeout zero that finds the record but not the requested
    output returns Timeout at once: no resolution request, no wait, and the
    outputs are not written. *)
Lemma zero_probe_miss_times_out type_id sertype type_obj env dom type :
  0 <= e_pin env →
  e_m_domain env = Some dom →
  ddsi_type_lookup_locked (gv_typelib dom) type_id = Some type →
  immediately_available sertype type_obj type = false →
  wait_for_type_resolved type_id 0 sertype type_obj env
  = Some (mk_wft_result DDS_RETCODE_TIMEOUT sertype type_obj
            (Some (gv_typelib dom))
            [EvEntityPin; EvTypelibLock; EvTypeLookup; EvTypelibUnlock;
             EvEntityUnpin]).
Proof.
  intros Hpin Hdom Hlook Havail.
  destruct type_id as [|h|]; try discriminate.
  unfold wait_for_type_resolved. simpl in *.
  destruct (e_pin env <? 0) eqn:E; [lia|].
  rewrite Hdom, Hlook.
  unfold immediately_available in Havail.
  apply orb_false_elim in Havail as [Hst Hobj]. rewrite Hobj.
  destruct sertype as [s|], (ddsi_type_sertype type) as [st|]; simpl in *;
    try discriminate; reflexivity.
Qed.

(** X27: a request whose output is cached is served at once, whatever the
    timeout, and twice in a row with the same answer. *)
Lemma cached_sertype_is_returned h timeout s env dom type st :
  0 <= e_pin env →
  e_m_domain env = Some dom →
  gv_typelib dom !! h = Some type →
  ddsi_type_sertype type = Some st →
  dds_resolve_type (TypeIdHash h) timeout (Some s) env
  = Some (mk_wft_result DDS_RETCODE_OK (Some (Some st)) None
            (Some (gv_typelib dom))
            [EvEntityPin; EvTypelibLock; EvTypeLookup; EvSertypeRef;
             EvTypelibUnlock; EvEntityUnpin]).
Proof.
  intros Hpin Hdom Hlook Hst.
  unfold dds_resolve_type, wait_for_type_resolved. simpl.
  destruct (e_pin env <? 0) eqn:E; [lia|].
  by rewrite Hdom, Hlook, Hst.
Qed.

(** * Further properties *)

(** ** Mutex discipline of creation and teardown *)

Lemma run_locks_app s a b :
  run_locks s (a ++ b)
  = match run_locks s a with
    | Some s' => run_locks s' b
    | None => None
    end.
Proof.
  revert s. induction a as [|e a IH]; intros s; simpl; [done|].
  destruct (step_locks s e); [apply IH|done].
Qed.

Lemma dds_domain_init_locks domain domain_id config implicit x w domh dom w' :
  dds_domain_init domain domain_id config implicit x w = Returned (domh, dom, w') →
  ∃ evs, trace w' = trace w ++ evs
         ∧ run_locks reg_locked evs = Some reg_locked.
Proof.
  init_cases;
    (eexists; split; [rewrite <- ?app_assoc; reflexivity|reflexivity]).
Qed.

Lemma create_attempt_done_locks id implicit config x w domh out w' :
  create_attempt id implicit config x w = CR_done domh out w' →
  ∃ evs, trace w' = trace w ++ evs
         ∧ run_locks reg_locked evs = Some no_locks.
Proof.
  unfold create_attempt, dds_handle_is_closed.
  destruct (looked_up_domain id (glob w)) as [dom|].
  - destruct implicit; simpl.
    + destruct (m_closed (m_entity dom)); [done|]. intros [= <- <- <-].
      eexists. split; [simpl; rewrite <- ?app_assoc; reflexivity|reflexivity].
    + intros [= <- <- <-]. eexists. split; [reflexivity|reflexivity].
  - destruct (dds_domain_init _ _ _ _ _ _) as [[[h dom] w1]|] eqn:Hinit; [|done].
    apply dds_domain_init_locks in Hinit as (evs & Htr & Hl). simpl in Htr.
    destruct (h <? 0); [|destruct implicit]; intros [= <- <- <-]; simpl;
      rewrite Htr, <- ?app_assoc;
      (eexists; split; [reflexivity|]);
      rewrite (run_locks_app _ [EvAlloc]); simpl;
      rewrite run_locks_app, Hl; reflexivity.
Qed.

Lemma create_attempt_wait_locks id implicit config x w w' :
  create_attempt id implicit config x w = CR_wait w' →
  ∃ evs, trace w' = trace w ++ evs
         ∧ run_locks reg_locked evs = Some reg_locked.
Proof.
  unfold create_attempt, dds_handle_is_closed.
  destruct (looked_up_domain id (glob w)) as [dom|].
  - destruct implicit; simpl; [|done].
    destruct (m_closed (m_entity dom)); [|done]. intros [= <-].
    eexists. split; [simpl; rewrite <- ?app_assoc; reflexivity|reflexivity].
  - destruct (dds_domain_init _ _ _ _ _ _) as [[[h dom] w1]|]; [|done].
    destruct (h <? 0); [done|]. by destruct implicit.
Qed.

Lemma create_retry_done_locks id implicit config x wakeups w domh out w' :
  create_retry id implicit config x wakeups w = CR_done domh out w' →
  ∃ evs, trace w' = trace w ++ evs
         ∧ run_locks reg_locked evs = Some no_locks.
Proof.
  revert w. induction wakeups as [|g rest IH]; intros w; simpl;
    destruct (create_attempt id implicit config x w) as [h o w1|w1|] eqn:E;
    try done.
  - intros [= <- <- <-]. by apply (create_attempt_done_locks _ _ _ _ _ _ _ _ E).
  - intros [= <- <- <-]. by apply (create_attempt_done_locks _ _ _ _ _ _ _ _ E).
  - intros Hrest.
    destruct (create_attempt_wait_locks _ _ _ _ _ _ E) as (evs1 & Htr1 & Hl1).
    destruct (IH _ Hrest) as (evs2 & Htr2 & Hl2). simpl in Htr2.
    exists (evs1 ++ evs2). split.
    + by rewrite Htr2, Htr1, app_assoc.
    + by rewrite run_locks_app, Hl1.
Qed.

(** X1: a creation call that returns has kept the mutex discipline from
    start to end and holds neither the registry mutex nor an entity mutex
    when it returns, on the success path, on every failure path of the
    initialisation and after any number of waits. *)
Theorem create_mutex_discipline id implicit config x wakeups w domh out w' :
  dds_domain_create_internal_xml_or_raw id implicit config x wakeups w
  = CR_done domh out w' →
  ∃ evs, trace w' = trace w ++ evs
         ∧ run_locks no_locks evs = Some no_locks.
Proof.
  unfold dds_domain_create_internal_xml_or_raw. intros Hcall.
  destruct (create_retry_done_locks _ _ _ _ _ _ _ _ _ Hcall)
    as (evs & Htr & Hl). simpl in Htr.
  exists (EvGlobalLock :: evs). split.
  - by rewrite Htr, <- app_assoc.
  - simpl. exact Hl.
Qed.

Lemma create_mutex_discipline_witness :
  ∃ domh out w' evs,
    dds_domain_create_internal_xml_or_raw 5 true (CFGKIND_RAW config_monitoring)
      rtps_start_fails [after_teardown (closing_domain 5 3)]
      (mk_world (global_with (closing_domain 5 3)) [])
    = CR_done domh out w'
    ∧ trace w' = evs
    ∧ run_locks no_locks evs = Some no_locks.
Proof.
  destruct (dds_domain_create_internal_xml_or_raw 5 true
              (CFGKIND_RAW config_monitoring) rtps_start_fails
              [after_teardown (closing_domain 5 3)]
              (mk_world (global_with (closing_domain 5 3)) []))
    as [domh out w'| |] eqn:E; [|vm_compute in E; discriminate..].
  destruct (create_mutex_discipline _ _ _ _ _ _ _ _ _ E) as (evs & Htr & Hl).
  exists domh, out, w', evs. split; [reflexivity|]. split; [exact Htr|exact Hl].
Defined.

(** X2: teardown keeps the mutex discipline: the monitor singleton is
    stopped and destroyed, the domain removed from the registry and the
    condition variable broadcast only while the registry mutex is held,
    and the mutex is released when [dds_domain_free] returns. *)
Theorem free_mutex_discipline domain w :
  ∃ evs, trace (snd (dds_domain_free domain w)) = trace w ++ evs
         ∧ run_locks no_locks evs = Some no_locks.
Proof.
  unfold dds_domain_free.
  repeat (case_match; simplify_eq/=);
    (eexists; split; [rewrite <- ?app_assoc; reflexivity|reflexivity]).
Qed.

(** ** Creation followed by teardown *)

(** What a successful initialisation did to [dds_global] and to the new
    entity. *)
Lemma dds_domain_init_success domain domain_id config implicit x w domh dom w' :
  dds_domain_init domain domain_id config implicit x w = Returned (domh, dom, w') →
  0 <= domh →
  threadmon_count (glob w')
  = (if liveliness_monitoring (gv_config dom)
     then wrap_u32 (threadmon_count (glob w) + 1)
     else threadmon_count (glob w))
  ∧ (liveliness_monitoring (gv_config dom) = false →
     threadmon (glob w') = threadmon (glob w))
  ∧ m_entity dom = mk_entity domh false implicit 0 0 true.
Proof. init_cases; lia. Qed.

Lemma init_success_keeps_consistent domain domain_id config implicit x w
    domh dom w' :
  dds_domain_init domain domain_id config implicit x w = Returned (domh, dom, w') →
  0 <= domh →
  0 <= threadmon_count (glob w) < 2 ^ 32 - 1 →
  threadmon_consistent (glob w) →
  threadmon_consistent (glob w').
Proof.
  unfold DDS_RETCODE_ERROR, DDS_RETCODE_OUT_OF_RESOURCES.
  init_cases; try lia; consistent_cases.
Qed.

Lemma create_retry_not_found id implicit config x wakeups w :
  looked_up_domain id (glob w) = None →
  create_retry id implicit config x wakeups w
  = create_attempt id implicit config x w.
Proof.
  intros Hlook.
  assert (∀ w1, create_attempt id implicit config x w ≠ CR_wait w1) as Hnw.
  { intros w1. unfold create_attempt. rewrite Hlook.
    destruct (dds_domain_init _ _ _ _ _ _) as [[[h dom] w2]|]; [|done].
    destruct (h <? 0); [done|]. by destruct implicit. }
  destruct wakeups; simpl;
    destruct (create_attempt id implicit config x w) as [h o w1|w1|];
    try done; by destruct (Hnw w1).
Qed.

(** X3: a domain created by an explicit call and then torn down leaves the
    registry tree and the monitor reference count exactly as they were
    before the creation, and the monitor singleton in step with its
    count. *)
Theorem create_then_free_restores id config x wakeups w domh dom w' :
  dds_domain_create_internal_xml_or_raw id false config x wakeups w
  = CR_done domh (Some dom) w' →
  0 <= threadmon_count (glob w) < 2 ^ 32 - 1 →
  threadmon_consistent (glob w) →
  m_domains (glob (snd (dds_domain_free dom w'))) = m_domains (glob w)
  ∧ threadmon_count (glob (snd (dds_domain_free dom w')))
    = threadmon_count (glob w)
  ∧ threadmon_consistent (glob (snd (dds_domain_free dom w'))).
Proof.
  unfold dds_domain_create_internal_xml_or_raw.
  rewrite explicit_retry_is_attempt. unfold create_attempt.
  destruct (looked_up_domain id _) eqn:Hlook; [done|].
  destruct (dds_domain_init _ _ _ _ _ _) as [[[h dom0] w1]|] eqn:Hinit; [|done].
  destruct (h <? 0) eqn:Hh; [done|]. intros [= <- <- <-] Hc Hcons.
  assert (Hpos : 0 <= h) by lia.
  pose proof (create_inserts_fresh _ _ _ _ _ _ _ _ Hlook Hinit Hpos) as Hfresh.
  pose proof (dds_domain_init_registry _ _ _ _ _ _ _ _ _ Hinit) as Hreg.
  pose proof (dds_domain_init_success _ _ _ _ _ _ _ _ _ Hinit Hpos)
    as (Hcount & Hmon & _).
  simpl in Hreg, Hcount, Hmon.
  assert (Hkeep : threadmon_consistent (glob w1))
    by (by eapply init_success_keeps_consistent).
  split; [|split].
  - unfold dds_domain_free, ddsrt_avl_delete, ddsrt_avl_insert.
    repeat (case_match; simplify_eq/=); by rewrite delete_insert_id.
  - unfold dds_domain_free.
    destruct (liveliness_monitoring (gv_config dom0)) eqn:Hlm;
      repeat (case_match; simplify_eq/=); rewrite ?Hcount; wrap_norm; lia.
  - apply free_keeps_threadmon_consistent.
    + simpl. intros Hlm. rewrite Hcount, Hlm. wrap_norm. lia.
    + unfold threadmon_consistent, threadmon_present in *. by simpl.
Qed.

Lemma create_then_free_restores_witness :
  ∃ domh dom w',
    dds_domain_create_internal_xml_or_raw 5 false
      (CFGKIND_RAW config_monitoring) all_succeed [] empty_world
    = CR_done domh (Some dom) w'
    ∧ m_domains (glob (snd (dds_domain_free dom w'))) = ∅
    ∧ threadmon_count (glob (snd (dds_domain_free dom w'))) = 0.
Proof.
  destruct (dds_domain_create_internal_xml_or_raw 5 false
              (CFGKIND_RAW config_monitoring) all_succeed [] empty_world)
    as [domh [dom|] w'| |] eqn:E; try (vm_compute in E; discriminate).
  destruct (create_then_free_restores _ _ _ _ _ _ _ _ E)
    as (Hreg & Hcount & _).
  - vm_compute. split; [discriminate|reflexivity].
  - by vm_compute.
  - exists domh, dom, w'. split; [reflexivity|]. split; [exact Hreg|exact Hcount].
Defined.

(** ** Implicit sharing *)

Lemma looked_up_after_update id g dom dom' c t :
  registry_wf g →
  looked_up_domain id g = Some dom →
  looked_up_domain id (mk_global (<[m_id dom := dom']> (m_domains g)) c t)
  = Some dom'.
Proof.
  unfold looked_up_domain, dds_domain_find_locked. intros Hwf.
  destruct (id =? DDS_DOMAIN_DEFAULT); simpl.
  - intros (k & Hk & Hmin)%ddsrt_avl_find_min_Some.
    rewrite (Hwf _ _ Hk).
    destruct (ddsrt_avl_find_min (<[k:=dom']> (m_domains g))) as [d|] eqn:E.
    + apply ddsrt_avl_find_min_Some in E as (k' & Hk' & Hmin').
      assert (k' <= k) by (apply (Hmin' k dom'); apply lookup_insert_eq).
      assert (k <= k').
      { destruct (decide (k = k')) as [->|Hne]; [lia|].
        rewrite lookup_insert_ne in Hk' by done. by apply (Hmin k' d). }
      assert (k' = k) as -> by lia.
      rewrite lookup_insert_eq in Hk'. congruence.
    + apply ddsrt_avl_find_min_None in E.
      pose proof (lookup_insert_eq (m_domains g) k dom') as H.
      rewrite E, lookup_empty in H. done.
  - intros Hk. rewrite (Hwf _ _ Hk). apply lookup_insert_eq.
Qed.

(** An implicit call that finds an open domain. *)
Lemma implicit_join id config x wakeups w dom :
  looked_up_domain id (glob w) = Some dom →
  m_closed (m_entity dom) = false →
  dds_domain_create_internal_xml_or_raw id true config x wakeups w
  = CR_done (m_hdl (m_entity dom)) (Some (joined dom))
      (mk_world
         (mk_global (<[m_id dom := joined dom]> (m_domains (glob w)))
            (threadmon_count (glob w)) (threadmon (glob w)))
         (trace w ++ [EvGlobalLock; EvEntityLock; EvIsClosed; EvAddRef;
                      EvRepin; EvEntityUnlock; EvGlobalUnlock])).
Proof.
  intros Hlook Hopen. unfold dds_domain_create_internal_xml_or_raw.
  assert (create_attempt id true config x (emit EvGlobalLock w)
          = CR_done (m_hdl (m_entity dom)) (Some (joined dom))
              (mk_world
                 (mk_global (<[m_id dom := joined dom]> (m_domains (glob w)))
                    (threadmon_count (glob w)) (threadmon (glob w)))
                 (trace w ++ [EvGlobalLock; EvEntityLock; EvIsClosed; EvAddRef;
                              EvRepin; EvEntityUnlock; EvGlobalUnlock]))) as E.
  { unfold create_attempt. simpl. rewrite Hlook. simpl.
    unfold dds_handle_is_closed. rewrite Hopen. unfold emit. simpl.
    by rewrite <- !app_assoc. }
  destruct wakeups; simpl; by rewrite E.
Qed.

Lemma iter_joined_entity n dom :
  m_refs (m_entity (Nat.iter n joined dom)) = (n + m_refs (m_entity dom))%nat
  ∧ m_pins (m_entity (Nat.iter n joined dom)) = (n + m_pins (m_entity dom))%nat
  ∧ m_hdl (m_entity (Nat.iter n joined dom)) = m_hdl (m_entity dom)
  ∧ m_closed (m_entity (Nat.iter n joined dom)) = m_closed (m_entity dom)
  ∧ m_id (Nat.iter n joined dom) = m_id dom
  ∧ gv_config (Nat.iter n joined dom) = gv_config dom.
Proof.
  induction n as [|n (Hr & Hp & Hh & Hc & Hi & Hg)]; simpl; [done|].
  rewrite Hr, Hp, Hh, Hc, Hi, Hg. done.
Qed.

(** X4: [n] implicit acquisitions of an open domain all return that
    domain's handle; afterwards the registry holds the same domain with
    [n] more references and [n] more pins and is otherwise unchanged, and
    no domain was created. *)
Theorem implicit_sharing n id config x w dom :
  registry_wf (glob w) →
  looked_up_domain id (glob w) = Some dom →
  m_closed (m_entity dom) = false →
  ∃ rs w',
    implicit_creates n id config x w = (rs, w')
    ∧ length rs = n
    ∧ Forall (λ r, handle_of r = Some (m_hdl (m_entity dom))) rs
    ∧ looked_up_domain id (glob w') = Some (Nat.iter n joined dom)
    ∧ m_domains (glob w')
      = <[m_id dom := Nat.iter n joined dom]> (m_domains (glob w))
    ∧ m_refs (m_entity (Nat.iter n joined dom)) = (n + m_refs (m_entity dom))%nat
    ∧ m_pins (m_entity (Nat.iter n joined dom)) = (n + m_pins (m_entity dom))%nat
    ∧ threadmon_count (glob w') = threadmon_count (glob w).
Proof.
  revert w dom. induction n as [|n IH]; intros w dom Hwf Hlook Hopen.
  - exists [], w. simpl. repeat split; try done.
    rewrite insert_id; [done|]. by apply looked_up_domain_wf with id.
  - cbn [implicit_creates].
    rewrite (implicit_join id config x [] w dom Hlook Hopen).
    set (w1 := mk_world _ _).
    assert (Hwf1 : registry_wf (glob w1)).
    { intros k d. simpl. rewrite lookup_insert.
      case_decide; [by intros [= <-]|]. apply Hwf. }
    assert (Hlook1 : looked_up_domain id (glob w1) = Some (joined dom))
      by (by apply looked_up_after_update).
    destruct (IH w1 (joined dom) Hwf1 Hlook1 Hopen)
      as (rs & w' & Hrun & Hlen & Hall & Hl & Hm & _ & _ & Hc).
    rewrite Hrun. eexists _, _. split; [reflexivity|].
    destruct (iter_joined_entity (S n) dom) as (Hr & Hp & _).
    rewrite Nat.iter_succ_r.
    split; [simpl; by rewrite Hlen|].
    split; [constructor; [done|exact Hall]|].
    split; [exact Hl|].
    split; [rewrite Hm; simpl; by rewrite insert_insert_eq|].
    rewrite Nat.iter_succ_r in Hr, Hp. done.
Qed.

Lemma implicit_sharing_witness :
  ∃ rs w',
    implicit_creates 3 5 (CFGKIND_XML None) all_succeed
      (mk_world (global_with (open_domain 5 3)) []) = (rs, w')
    ∧ Forall (λ r, handle_of r = Some 3) rs
    ∧ m_refs (m_entity (Nat.iter 3 joined (open_domain 5 3))) = 4%nat.
Proof.
  destruct (implicit_sharing 3 5 (CFGKIND_XML None) all_succeed
              (mk_world (global_with (open_domain 5 3)) []) (open_domain 5 3))
    as (rs & w' & Hrun & _ & Hall & _ & _ & Hrefs & _).
  - intros k d. unfold global_with. simpl.
    intros [<- <-]%lookup_singleton_Some. reflexivity.
  - vm_compute. reflexivity.
  - reflexivity.
  - exists rs, w'. split; [exact Hrun|]. split; [exact Hall|exact Hrefs].
Defined.

(** ** The sentinel id *)

(** X5: with the sentinel id and a registry that is not empty, the lookup
    settles on the domain with the lowest id.  An internal explicit call is
    refused; an implicit call joins that domain when it is open; and when
    it is closing the caller waits for it, whatever other domains the
    registry holds. *)
Theorem sentinel_uses_lowest_domain config x wakeups w :
  m_domains (glob w) ≠ ∅ →
  ∃ k dom,
    m_domains (glob w) !! k = Some dom
    ∧ (∀ k' d', m_domains (glob w) !! k' = Some d' → k <= k')
    ∧ looked_up_domain DDS_DOMAIN_DEFAULT (glob w) = Some dom
    ∧ dds_domain_create_internal_xml_or_raw DDS_DOMAIN_DEFAULT false config x
        wakeups w
      = CR_done DDS_RETCODE_PRECONDITION_NOT_MET None
          (emit EvGlobalUnlock (emit EvGlobalLock w))
    ∧ (m_closed (m_entity dom) = false →
       ∃ w',
         dds_domain_create_internal_xml_or_raw DDS_DOMAIN_DEFAULT true config x
           wakeups w
         = CR_done (m_hdl (m_entity dom)) (Some (joined dom)) w')
    ∧ (m_closed (m_entity dom) = true →
       dds_domain_create_internal_xml_or_raw DDS_DOMAIN_DEFAULT true config x
         [] w
       = CR_wait (parked (emit EvGlobalLock w))).
Proof.
  intros Hne.
  destruct (ddsrt_avl_find_min (m_domains (glob w))) as [dom|] eqn:Hmin;
    [|by apply ddsrt_avl_find_min_None in Hmin].
  assert (Hlook : ∀ v, looked_up_domain DDS_DOMAIN_DEFAULT (glob (emit v w))
                       = Some dom) by done.
  destruct (ddsrt_avl_find_min_Some _ _ Hmin) as (k & Hk & Hleast).
  exists k, dom. split; [done|]. split; [done|]. split; [done|].
  split; [|split].
  - unfold dds_domain_create_internal_xml_or_raw.
    rewrite explicit_retry_is_attempt. unfold create_attempt.
    by rewrite Hlook.
  - intros Hopen. eexists. by apply implicit_join.
  - intros Hclosed. unfold dds_domain_create_internal_xml_or_raw. simpl.
    by rewrite (implicit_attempt_closed _ _ _ _ dom).
Qed.

Lemma sentinel_uses_lowest_domain_witness :
  ∃ w',
    dds_domain_create_internal_xml_or_raw DDS_DOMAIN_DEFAULT true
      (CFGKIND_XML None) all_succeed []
      (mk_world
         (mk_global (<[9 := open_domain 9 4]> {[ 5 := open_domain 5 3 ]}) 0 None)
         [])
    = CR_done 3 (Some (joined (open_domain 5 3))) w'.
Proof.
  destruct (sentinel_uses_lowest_domain (CFGKIND_XML None) all_succeed []
              (mk_world
                 (mk_global (<[9 := open_domain 9 4]> {[ 5 := open_domain 5 3 ]})
                    0 None) []))
    as (k & dom & Hk & Hleast & Hlook & _ & Hjoin & _).
  - simpl. intros H.
    pose proof (lookup_insert_eq ({[ 5 := open_domain 5 3 ]} : gmap Z dds_domain)
                  9 (open_domain 9 4)) as H9.
    rewrite H, lookup_empty in H9. discriminate.
  - assert (Some dom = Some (open_domain 5 3)) as [= ->]
      by (rewrite <- Hlook; vm_compute; reflexivity).
    destruct (Hjoin eq_refl) as (w' & Hcall). exists w'. exact Hcall.
Defined.

(** ** A newly created domain *)

(** X6: when the lookup finds nothing and the call succeeds, the new
    domain is stored under a key that was free, which is the id of its
    configuration (the caller's id when that is concrete); its entity is
    open and complete and carries the returned handle; an implicit creator
    holds one extra reference and pin on it, an explicit creator none. *)
Theorem new_domain_registered id implicit config x wakeups w domh dom w' :
  looked_up_domain id (glob w) = None →
  dds_domain_create_internal_xml_or_raw id implicit config x wakeups w
  = CR_done domh (Some dom) w' →
  m_entity dom
  = mk_entity domh false implicit (if implicit then 1 else 0)%nat
      (if implicit then 1 else 0)%nat true
  ∧ m_domains (glob w) !! m_id dom = None
  ∧ m_domains (glob w') = <[m_id dom := dom]> (m_domains (glob w))
  ∧ m_id dom = domainId (gv_config dom)
  ∧ (id ≠ DDS_DOMAIN_DEFAULT → m_id dom = id).
Proof.
  intros Hlook. unfold dds_domain_create_internal_xml_or_raw.
  rewrite create_retry_not_found by done. unfold create_attempt.
  assert (looked_up_domain id (glob (emit EvGlobalLock w)) = None) as -> by done.
  destruct (dds_domain_init _ _ _ _ _ _) as [[[h dom0] w1]|] eqn:Hinit; [|done].
  destruct (h <? 0) eqn:Hh; [done|].
  assert (Hpos : 0 <= h) by lia.
  pose proof (create_inserts_fresh id implicit config x (emit EvGlobalLock w)
                h dom0 w1 Hlook Hinit Hpos) as Hfresh.
  pose proof (dds_domain_init_registry _ _ _ _ _ _ _ _ _ Hinit) as Hreg.
  pose proof (dds_domain_init_success _ _ _ _ _ _ _ _ _ Hinit Hpos)
    as (_ & _ & Hent).
  assert (Hcfg : m_id dom0 = domainId (gv_config dom0)).
  { revert Hinit. clear. init_cases. }
  assert (Hid : id ≠ DDS_DOMAIN_DEFAULT → m_id dom0 = id)
    by (intros; by eapply dds_domain_init_concrete_id).
  simpl in Hreg. rewrite Hreg in Hfresh.
  destruct implicit; intros [= <- <- <-]; unfold ddsrt_avl_insert; simpl;
    rewrite Hent, Hreg; done.
Qed.

Lemma new_domain_registered_witness :
  ∃ dom w',
    dds_domain_create_internal_xml_or_raw DDS_DOMAIN_DEFAULT true
      (CFGKIND_XML None) all_succeed [] empty_world
    = CR_done 1 (Some dom) w'
    ∧ m_entity dom = mk_entity 1 false true 1 1 true
    ∧ m_domains (glob w') = {[ m_id dom := dom ]}.
Proof.
  destruct (dds_domain_create_internal_xml_or_raw DDS_DOMAIN_DEFAULT true
              (CFGKIND_XML None) all_succeed [] empty_world)
    as [domh [dom|] w'| |] eqn:E; try (vm_compute in E; discriminate).
  assert (domh = 1) as -> by (vm_compute in E; congruence).
  assert (Hnone : looked_up_domain DDS_DOMAIN_DEFAULT (glob empty_world) = None)
    by (vm_compute; reflexivity).
  destruct (new_domain_registered _ _ _ _ _ _ _ _ _ Hnone E)
    as (Hent & _ & Hreg & _).
  exists dom, w'. split; [reflexivity|]. split; [exact Hent|].
  rewrite Hreg. reflexivity.
Defined.

(** ** The public operations and the root entity *)

Lemma global_ref_events_app a b :
  global_ref_events (a ++ b) = global_ref_events a ++ global_ref_events b.
Proof.
  induction a as [|e a IH]; simpl; [done|].
  destruct (is_global_ref_event e); simpl; by rewrite IH.
Qed.

Lemma dds_domain_init_global_ref domain domain_id config implicit x w domh dom w' :
  dds_domain_init domain domain_id config implicit x w = Returned (domh, dom, w') →
  ∃ evs, trace w' = trace w ++ evs ∧ global_ref_events evs = [].
Proof.
  init_cases;
    (eexists; split; [rewrite <- ?app_assoc; reflexivity|reflexivity]).
Qed.

Lemma explicit_create_global_ref id config x wakeups w domh out w' :
  dds_domain_create_internal_xml_or_raw id false config x wakeups w
  = CR_done domh out w' →
  ∃ evs, trace w' = trace w ++ evs ∧ global_ref_events evs = [].
Proof.
  unfold dds_domain_create_internal_xml_or_raw.
  rewrite explicit_retry_is_attempt. unfold create_attempt.
  destruct (looked_up_domain id _); simpl.
  { intros [= <- <- <-]. eexists. simpl. rewrite <- app_assoc.
    split; reflexivity. }
  destruct (dds_domain_init _ _ _ _ _ _) as [[[h dom] w1]|] eqn:Hinit; [|done].
  apply dds_domain_init_global_ref in Hinit as (evs & Htr & Hn). simpl in Htr.
  destruct (h <? 0); intros [= <- <- <-]; simpl; rewrite Htr, <- ?app_assoc;
    (eexists; split; [reflexivity|]);
    rewrite !global_ref_events_app, Hn; reflexivity.
Qed.

(** An explicit creation call takes the registry mutex first and releases
    it last, keeps the mutex discipline in between and never touches the
    reference on the root entity. *)
Lemma explicit_create_bracket id config x wakeups w domh out w' :
  dds_domain_create_internal_xml_or_raw id false config x wakeups w
  = CR_done domh out w' →
  ∃ mid, trace w' = trace w ++ [EvGlobalLock] ++ mid ++ [EvGlobalUnlock]
         ∧ global_ref_events mid = []
         ∧ run_locks reg_locked mid = Some reg_locked.
Proof.
  unfold dds_domain_create_internal_xml_or_raw.
  rewrite explicit_retry_is_attempt. unfold create_attempt.
  destruct (looked_up_domain id _); simpl.
  { intros [= <- <- <-]. exists []. simpl. by rewrite <- app_assoc. }
  destruct (dds_domain_init _ _ _ _ _ _) as [[[h dom] w1]|] eqn:Hinit; [|done].
  destruct (dds_domain_init_global_ref _ _ _ _ _ _ _ _ _ Hinit)
    as (evs & Htr & Hn).
  destruct (dds_domain_init_locks _ _ _ _ _ _ _ _ _ Hinit)
    as (evs' & Htr' & Hl).
  assert (evs' = evs) as -> by (rewrite Htr in Htr'; by apply app_inv_head in Htr').
  simpl in Htr.
  destruct (h <? 0); intros [= <- <- <-]; simpl; rewrite Htr;
    [exists ([EvAlloc] ++ evs ++ [EvFree])
    |exists ([EvAlloc] ++ evs
             ++ [EvEntityLock; EvAvlInsert (m_id dom); EvRegisterChild;
                 EvEntityUnlock])];
    (split; [by rewrite <- !app_assoc|]);
    (split; [by rewrite !global_ref_events_app, Hn|]);
    rewrite (run_locks_app _ [EvAlloc]); simpl;
    rewrite run_locks_app, Hl; reflexivity.
Qed.

(** What follows the argument checks of the two public operations. *)
Lemma public_create_after_checks id config x wakeups w ret out w' :
  (if r_dds_init x <? 0 then CR_done (r_dds_init x) None (emit EvDdsInit w)
   else drop_global_ref
          (dds_domain_create_internal_xml_or_raw id false config x wakeups
             (emit EvDdsInit w))) = CR_done ret out w' →
  out = None
  ∧ (∃ evs, trace w' = trace w ++ evs
            ∧ root_reference_bracket true x evs
            ∧ global_ref_events evs = expected_global_ref_events true x)
  ∧ (r_dds_init x < 0 → ret = r_dds_init x ∧ glob w' = glob w)
  ∧ (0 <= r_dds_init x →
     ∃ o w1,
       dds_domain_create_internal_xml_or_raw id false config x wakeups
         (emit EvDdsInit w) = CR_done ret o w1
       ∧ w' = emit EvUnpinDropRefGlobal w1).
Proof.
  unfold root_reference_bracket, expected_global_ref_events. simpl.
  destruct (r_dds_init x <? 0) eqn:E.
  - intros [= <- <- <-]. split; [done|]. split; [by exists [EvDdsInit]|].
    split; [done|lia].
  - destruct (dds_domain_create_internal_xml_or_raw _ _ _ _ _ _)
      as [h o w1| |] eqn:Hcall; simpl; try done.
    intros [= <- <- <-].
    destruct (explicit_create_bracket _ _ _ _ _ _ _ _ Hcall)
      as (mid & Htr & Hn & Hl). simpl in Htr.
    split; [done|]. split.
    + exists ([EvDdsInit; EvGlobalLock] ++ mid
              ++ [EvGlobalUnlock; EvUnpinDropRefGlobal]).
      split; [simpl; rewrite Htr; repeat (rewrite <- app_assoc; simpl);
              reflexivity|].
      split; [by exists mid|].
      simpl. by rewrite global_ref_events_app, Hn.
    + split; [lia|]. intros _. by exists o, w1.
Qed.

(** X7: the public creation operations take the reference on the root
    entity with [dds_init] before the registry mutex is taken and give it
    back exactly once, as the last step of the call, after the creation
    attempt has released the registry mutex and whatever the outcome of
    that attempt, whose result they return; when an argument is refused
    nothing is taken, and when [dds_init] fails its error code is returned,
    nothing is given back and [dds_global] is untouched. *)
Theorem public_create_root_reference (domain : Z) (x : ext_results)
    (wakeups : list dds_global_state) (w : world) :
  (∀ config_xml ret out w',
     dds_create_domain domain config_xml x wakeups w = CR_done ret out w' →
     out = None
     ∧ (∃ evs, trace w' = trace w ++ evs
               ∧ root_reference_bracket
                   (negb (domain =? DDS_DOMAIN_DEFAULT)) x evs
               ∧ global_ref_events evs
                 = expected_global_ref_events
                     (negb (domain =? DDS_DOMAIN_DEFAULT)) x)
     ∧ (domain ≠ DDS_DOMAIN_DEFAULT → r_dds_init x < 0 →
        ret = r_dds_init x ∧ glob w' = glob w)
     ∧ (domain ≠ DDS_DOMAIN_DEFAULT → 0 <= r_dds_init x →
        ∃ o w1,
          dds_domain_create_internal_xml_or_raw domain false
            (CFGKIND_XML (Some (default EmptyString config_xml))) x wakeups
            (emit EvDdsInit w) = CR_done ret o w1
          ∧ w' = emit EvUnpinDropRefGlobal w1))
  ∧ (∀ config_raw ret out w',
       dds_create_domain_with_rawconfig domain config_raw x wakeups w
       = CR_done ret out w' →
       out = None
       ∧ (∃ evs, trace w' = trace w ++ evs
                 ∧ root_reference_bracket
                     (negb (domain =? DDS_DOMAIN_DEFAULT)
                      && bool_decide (is_Some config_raw)) x evs
                 ∧ global_ref_events evs
                   = expected_global_ref_events
                       (negb (domain =? DDS_DOMAIN_DEFAULT)
                        && bool_decide (is_Some config_raw)) x)
       ∧ (domain ≠ DDS_DOMAIN_DEFAULT → is_Some config_raw →
          r_dds_init x < 0 →
          ret = r_dds_init x ∧ glob w' = glob w)
       ∧ (domain ≠ DDS_DOMAIN_DEFAULT → 0 <= r_dds_init x →
          ∀ raw, config_raw = Some raw →
            ∃ o w1,
              dds_domain_create_internal_xml_or_raw domain false
                (CFGKIND_RAW raw) x wakeups (emit EvDdsInit w)
              = CR_done ret o w1
              ∧ w' = emit EvUnpinDropRefGlobal w1)).
Proof.
  split.
  - intros config_xml ret out w'. unfold dds_create_domain.
    destruct (domain =? DDS_DOMAIN_DEFAULT) eqn:E; simpl.
    { intros [= <- <- <-]. split; [done|].
      split; [exists []; by rewrite app_nil_r|]. split; intros; lia. }
    intros Hcall.
    assert (match config_xml with
            | Some s => Some s
            | None => Some EmptyString
            end = Some (default EmptyString config_xml)) as Hcfg
      by (by destruct config_xml).
    rewrite Hcfg in Hcall.
    apply public_create_after_checks in Hcall
      as (Hout & Hev & Hfail & Hok).
    split; [done|]. split; [done|]. split; intros _; done.
  - intros config_raw ret out w'. unfold dds_create_domain_with_rawconfig.
    destruct (domain =? DDS_DOMAIN_DEFAULT) eqn:E; simpl.
    { intros [= <- <- <-]. split; [done|].
      split; [exists []; by rewrite app_nil_r|]. split; intros; lia. }
    destruct config_raw as [raw|]; simpl.
    + intros Hcall.
      apply public_create_after_checks in Hcall
        as (Hout & Hev & Hfail & Hok).
      split; [done|]. split; [done|].
      split; [by intros _ _|]. intros _ Hi raw' [= <-]. by apply Hok.
    + intros [= <- <- <-]. split; [done|].
      split; [exists []; by rewrite app_nil_r|].
      split; [by intros _ [? [=]]|]. by intros _ _ raw [=].
Qed.

Lemma public_create_root_reference_witness :
  (∃ ret w' mid,
     dds_create_domain 5 None rtps_start_fails [] empty_world
     = CR_done ret None w'
     ∧ trace w'
       = [EvDdsInit; EvGlobalLock] ++ mid
         ++ [EvGlobalUnlock; EvUnpinDropRefGlobal]
     ∧ global_ref_events mid = [])
  ∧ (∃ w',
       dds_create_domain_with_rawconfig 5 (Some config_plain)
         (mk_ext (-1) 1 parse_any 0 0 true 0 0) [] empty_world
       = CR_done (-1) None w'
       ∧ glob w' = empty_global).
Proof.
  split.
  - destruct (dds_create_domain 5 None rtps_start_fails [] empty_world)
      as [ret out w'| |] eqn:E; try (vm_compute in E; discriminate).
    destruct (public_create_root_reference 5 rtps_start_fails [] empty_world)
      as [Hxml _].
    destruct (Hxml None ret out w' E) as (-> & (evs & Htr & Hbr & _) & _).
    destruct Hbr as (mid & -> & Hn & _).
    exists ret, w', mid. split; [reflexivity|]. split; [exact Htr|exact Hn].
  - destruct (dds_create_domain_with_rawconfig 5 (Some config_plain)
                (mk_ext (-1) 1 parse_any 0 0 true 0 0) [] empty_world)
      as [ret out w'| |] eqn:E; try (vm_compute in E; discriminate).
    destruct (public_create_root_reference 5
                (mk_ext (-1) 1 parse_any 0 0 true 0 0) [] empty_world)
      as [_ Hraw].
    destruct (Hraw (Some config_plain) ret out w' E) as (-> & _ & Hfail & _).
    destruct Hfail as [-> Hglob].
    + vm_compute. discriminate.
    + by eexists.
    + simpl. lia.
    + exists w'. split; [reflexivity|exact Hglob].
Defined.

(** ** What a creation call leaves alone *)

Lemma create_attempt_frame id implicit config x w domh out w' k :
  create_attempt id implicit config x w = CR_done domh out w' →
  (∀ dom, out = Some dom → k ≠ m_id dom) →
  m_domains (glob w') !! k = m_domains (glob w) !! k.
Proof.
  unfold create_attempt.
  destruct (looked_up_domain id (glob w)) as [dom|] eqn:Hlook.
  - destruct implicit; simpl.
    + destruct (dds_handle_is_closed (m_entity dom)); [done|].
      intros [= <- <- <-] Hk. simpl.
      rewrite lookup_insert_ne; [done|]. intros Heq. by eapply Hk.
    + by intros [= <- <- <-].
  - destruct (dds_domain_init _ _ _ _ _ _) as [[[h dom] w1]|] eqn:Hinit; [|done].
    pose proof (dds_domain_init_registry _ _ _ _ _ _ _ _ _ Hinit) as Hreg.
    simpl in Hreg.
    destruct (h <? 0).
    { intros [= <- <- <-] _. simpl. by rewrite Hreg. }
    destruct implicit; intros [= <- <- <-] Hk; unfold ddsrt_avl_insert; simpl;
      (rewrite lookup_insert_ne; [by rewrite Hreg|]);
      intros Heq; by eapply Hk.
Qed.

(** X8: a creation call that returns without having waited changes at most
    the registry entry of the domain it hands out: every other id maps to
    what it mapped to before, a call that hands out nothing leaves the
    whole tree as it was, and every node still sits under its own id. *)
Theorem create_registry_frame id implicit config x w domh out w' :
  dds_domain_create_internal_xml_or_raw id implicit config x [] w
  = CR_done domh out w' →
  registry_wf (glob w) →
  registry_wf (glob w')
  ∧ (∀ k, (∀ dom, out = Some dom → k ≠ m_id dom) →
          m_domains (glob w') !! k = m_domains (glob w) !! k)
  ∧ (out = None → m_domains (glob w') = m_domains (glob w))
  ∧ (∀ k, is_Some (m_domains (glob w) !! k) →
          is_Some (m_domains (glob w') !! k)).
Proof.
  unfold dds_domain_create_internal_xml_or_raw. simpl.
  destruct (create_attempt id implicit config x (emit EvGlobalLock w))
    as [h o w1|w1|] eqn:E; try done.
  intros [= <- <- <-] Hwf.
  assert (Hframe : ∀ k, (∀ dom, o = Some dom → k ≠ m_id dom) →
            m_domains (glob w1) !! k = m_domains (glob w) !! k)
    by (intros k Hk; by apply (create_attempt_frame _ _ _ _ _ _ _ _ _ E)).
  split; [by apply (create_attempt_wf _ _ _ _ (emit EvGlobalLock w) _ _ _ Hwf E)|].
  split; [exact Hframe|]. split.
  - intros ->. apply map_eq. intros k. by apply Hframe.
  - intros k Hk. destruct o as [dom|]; [|rewrite Hframe; done].
    destruct (decide (k = m_id dom)) as [->|Hne];
      [|rewrite Hframe; [done|by intros ? [= <-]]].
    revert E. unfold create_attempt.
    destruct (looked_up_domain id _) as [d0|].
    + destruct implicit; simpl; [|done].
      destruct (dds_handle_is_closed (m_entity d0)); [done|].
      intros [= <- <- <-]. simpl. rewrite lookup_insert_eq. by eexists.
    + destruct (dds_domain_init _ _ _ _ _ _) as [[[h' d1] w2]|]; [|done].
      destruct (h' <? 0); [done|].
      destruct implicit; intros [= <- <- <-]; unfold ddsrt_avl_insert; simpl;
        rewrite lookup_insert_eq; by eexists.
Qed.

Lemma create_registry_frame_witness :
  ∃ domh out w',
    dds_domain_create_internal_xml_or_raw 9 false (CFGKIND_RAW config_plain)
      all_succeed [] (mk_world (global_with (open_domain 5 3)) [])
    = CR_done domh out w'
    ∧ m_domains (glob w') !! 5 = Some (open_domain 5 3)
    ∧ registry_wf (glob w').
Proof.
  destruct (dds_domain_create_internal_xml_or_raw 9 false
              (CFGKIND_RAW config_plain) all_succeed []
              (mk_world (global_with (open_domain 5 3)) []))
    as [domh out w'| |] eqn:E; try (vm_compute in E; discriminate).
  destruct (create_registry_frame _ _ _ _ _ _ _ _ E) as (Hwf & Hframe & _).
  - intros k d. unfold global_with. simpl.
    intros [<- <-]%lookup_singleton_Some. reflexivity.
  - exists domh, out, w'. split; [reflexivity|]. split; [|exact Hwf].
    rewrite Hframe; [vm_compute; reflexivity|].
    intros dom ->. revert E. clear.
    unfold dds_domain_create_internal_xml_or_raw. simpl.
    intros E. vm_compute in E. injection E as _ <- _. vm_compute. discriminate.
Defined.

(** ** The monitor singleton across whole calls *)

(** X9: a creation call keeps the monitor singleton in step with its
    reference count on the success path and on every failure path that
    does not report Out-Of-Resources. *)
Theorem create_keeps_monitor_consistent id implicit config x w domh out w' :
  dds_domain_create_internal_xml_or_raw id implicit config x [] w
  = CR_done domh out w' →
  0 <= threadmon_count (glob w) < 2 ^ 32 - 1 →
  threadmon_consistent (glob w) →
  domh ≠ DDS_RETCODE_OUT_OF_RESOURCES →
  threadmon_consistent (glob w').
Proof.
  unfold dds_domain_create_internal_xml_or_raw. simpl.
  destruct (create_attempt id implicit config x (emit EvGlobalLock w))
    as [h o w1|w1|] eqn:E; try done.
  intros [= <- <- <-] Hc Hcons Hoor. revert E. unfold create_attempt.
  destruct (looked_up_domain id _) as [d0|].
  - destruct implicit; simpl.
    + destruct (dds_handle_is_closed (m_entity d0)); [done|].
      by intros [= <- <- <-].
    + by intros [= <- <- <-].
  - destruct (dds_domain_init _ _ _ _ _ _) as [[[h' d1] w2]|] eqn:Hinit; [|done].
    assert (Hkeep : h' ≠ DDS_RETCODE_OUT_OF_RESOURCES →
                     threadmon_consistent (glob w2)).
    { revert Hinit Hc Hcons. clear.
      unfold DDS_RETCODE_OUT_OF_RESOURCES.
      init_cases; try lia; consistent_cases. }
    destruct (h' <? 0) eqn:Hh; [|destruct implicit]; intros [= <- <- <-];
      (apply Hkeep; first [exact Hoor | unfold DDS_RETCODE_OUT_OF_RESOURCES; lia]).
Qed.

Lemma create_keeps_monitor_consistent_witness :
  ∃ domh out w',
    dds_domain_create_internal_xml_or_raw 5 false
      (CFGKIND_RAW config_monitoring) rtps_start_fails [] empty_world
    = CR_done domh out w'
    ∧ threadmon_consistent (glob w').
Proof.
  destruct (dds_domain_create_internal_xml_or_raw 5 false
              (CFGKIND_RAW config_monitoring) rtps_start_fails [] empty_world)
    as [domh out w'| |] eqn:E; try (vm_compute in E; discriminate).
  exists domh, out, w'. split; [reflexivity|].
  apply (create_keeps_monitor_consistent _ _ _ _ _ _ _ _ E).
  - vm_compute. split; [discriminate|reflexivity].
  - by vm_compute.
  - vm_compute in E. injection E as <- _ _. vm_compute. discriminate.
Defined.

(** ** Failed initialisation, at concrete inputs *)

Lemma failed_init_unwinds_witness :
  ∃ dom w' evs,
    dds_domain_init dds_alloc 5 (CFGKIND_XML None) false rtps_start_fails
      empty_world = Returned (DDS_RETCODE_ERROR, dom, w')
    ∧ trace w' = evs
    ∧ unwound_in_reverse evs.
Proof.
  destruct (dds_domain_init dds_alloc 5 (CFGKIND_XML None) false
              rtps_start_fails empty_world) as [[[domh dom] w']|] eqn:E;
    [|vm_compute in E; discriminate].
  assert (domh = DDS_RETCODE_ERROR) as ->.
  { apply (f_equal (λ r, match r with
                         | Returned (h, _, _) => h
                         | AssertFailed => 0
                         end)) in E.
    vm_compute in E. symmetry. exact E. }
  destruct (failed_init_unwinds _ _ _ _ _ _ _ _ _ E) as (evs & Htr & Hun).
  - vm_compute. reflexivity.
  - vm_compute. split; [discriminate|reflexivity].
  - apply (f_equal (λ r, match r with
                         | Returned (_, d, _) => enable_shm (gv_config d)
                         | AssertFailed => false
                         end)) in E.
    vm_compute in E. symmetry. exact E.
  - exists dom, w', evs. split; [reflexivity|]. split; [exact Htr|exact Hun].
Defined.

Lemma failed_init_leaves_registry_witness :
  ∃ w1,
    create_attempt 9 true (CFGKIND_RAW config_plain) rtps_start_fails
      (mk_world (global_with (open_domain 5 3)) [])
    = CR_done DDS_RETCODE_ERROR None (emit EvGlobalUnlock (emit EvFree w1))
    ∧ m_domains (glob (emit EvGlobalUnlock (emit EvFree w1)))
      = {[ 5 := open_domain 5 3 ]}.
Proof.
  destruct (dds_domain_init dds_alloc 9 (CFGKIND_RAW config_plain) true
              rtps_start_fails
              (emit EvAlloc (mk_world (global_with (open_domain 5 3)) [])))
    as [[[domh dom] w1]|] eqn:E; [|vm_compute in E; discriminate].
  assert (domh = DDS_RETCODE_ERROR) as ->.
  { apply (f_equal (λ r, match r with
                         | Returned (h, _, _) => h
                         | AssertFailed => 0
                         end)) in E.
    vm_compute in E. symmetry. exact E. }
  exists w1.
  apply (failed_init_leaves_registry 9 true (CFGKIND_RAW config_plain)
           rtps_start_fails (mk_world (global_with (open_domain 5 3)) [])
           DDS_RETCODE_ERROR dom w1).
  - vm_compute. reflexivity.
  - exact E.
  - vm_compute. reflexivity.
Defined.

(** X10: teardown of a domain with liveliness monitoring drops the monitor
    reference count by one, stops and destroys the monitor exactly when
    the count reaches zero, and leaves count and monitor in step; teardown
    of a domain without monitoring leaves both untouched. *)
Theorem teardown_monitor_count domain w :
  0 < threadmon_count (glob w) < 2 ^ 32 →
  threadmon_consistent (glob w) →
  threadmon_consistent (glob (snd (dds_domain_free domain w)))
  ∧ (liveliness_monitoring (gv_config domain) = true →
     threadmon_count (glob (snd (dds_domain_free domain w)))
     = threadmon_count (glob w) - 1
     ∧ threadmon_present (glob (snd (dds_domain_free domain w)))
       = (1 <? threadmon_count (glob w)))
  ∧ (liveliness_monitoring (gv_config domain) = false →
     threadmon_count (glob (snd (dds_domain_free domain w)))
     = threadmon_count (glob w)
     ∧ threadmon (glob (snd (dds_domain_free domain w)))
       = threadmon (glob w)).
Proof.
  intros Hc Hcons. split; [by apply free_keeps_threadmon_consistent|].
  unfold dds_domain_free. split; intros Hlm; rewrite Hlm.
  - destruct (decide (threadmon_count (glob w) = 1)) as [H1|H1].
    + repeat (case_match; simplify_eq/=); wrap_norm; try lia;
        (split; [done|]); rewrite H1;
        unfold threadmon_present; simpl;
        by destruct (threadmon (glob w)).
    + assert (Hpres : threadmon_present (glob w) = true)
        by (apply Hcons; lia).
      repeat (case_match; simplify_eq/=); wrap_norm; try lia;
        (split; [done|]);
        unfold threadmon_present in *; simpl; rewrite Hpres;
        symmetry; apply Z.ltb_lt; lia.
  - repeat (case_match; simplify_eq/=); done.
Qed.

Lemma teardown_monitor_count_witness :
  threadmon_count
    (glob (snd (dds_domain_free
                  (mk_domain (mk_entity 3 true false 0 0 true) 5 None
                     config_monitoring false ∅)
                  (mk_world (mk_global ∅ 1 (Some TM_running)) [])))) = 0
  ∧ threadmon_present
      (glob (snd (dds_domain_free
                    (mk_domain (mk_entity 3 true false 0 0 true) 5 None
                       config_monitoring false ∅)
                    (mk_world (mk_global ∅ 1 (Some TM_running)) []))))
    = false.
Proof.
  destruct (teardown_monitor_count
              (mk_domain (mk_entity 3 true false 0 0 true) 5 None
                 config_monitoring false ∅)
              (mk_world (mk_global ∅ 1 (Some TM_running)) []))
    as (_ & Hlm & _).
  - vm_compute. split; reflexivity.
  - vm_compute. split; intros _; reflexivity.
  - destruct (Hlm eq_refl) as [Hcount Hpres]. split; [exact Hcount|exact Hpres].
Defined.

(** ** The comparison function of the registry tree *)

(** X11: [dds_domain_compare] is a three-way comparison for the order of
    the ids: zero exactly on equal ids, -1 exactly when the first is
    smaller, 1 exactly when it is larger, antisymmetric and transitive. *)
Theorem dds_domain_compare_order (a b c : Z) :
  (dds_domain_compare a b = 0 ↔ a = b)
  ∧ (dds_domain_compare a b = -1 ↔ a < b)
  ∧ (dds_domain_compare a b = 1 ↔ b < a)
  ∧ dds_domain_compare b a = - dds_domain_compare a b
  ∧ (dds_domain_compare a b = -1 → dds_domain_compare b c = -1 →
     dds_domain_compare a c = -1).
Proof.
  unfold dds_domain_compare.
  destruct (a =? b) eqn:Eab, (a <? b) eqn:Lab, (b =? a) eqn:Eba,
    (b <? a) eqn:Lba, (b =? c) eqn:Ebc, (b <? c) eqn:Lbc,
    (a =? c) eqn:Eac, (a <? c) eqn:Lac; lia.
Qed.

(** ** The wait loop *)

(** X12: the loop of lines 504-508 tolerates spurious wake-ups: signalled
    wake-ups that find the type unresolved are waited through, and the
    loop ends at the first wake-up that either finds the type resolved or
    reports the deadline as passed, with the record as it is then, one
    wait per wake-up consumed. *)
Theorem wait_ignores_spurious_wakeups include_deps deadline cur spurious
    signalled t rest :
  ddsi_type_resolved cur include_deps = false →
  Forall (λ p, fst p = true ∧ ddsi_type_resolved (snd p) include_deps = false)
    spurious →
  (signalled = false ∨ ddsi_type_resolved t include_deps = true) →
  wait_until_resolved include_deps deadline cur
    (spurious ++ (signalled, t) :: rest)
  = Some (t, replicate (S (length spurious)) (EvTypelibCondWaituntil deadline)).
Proof.
  intros Hcur Hsp Hend. revert cur Hcur.
  induction Hsp as [|[s c] sp [Hs Hc] Hsp IH]; intros cur Hcur; simpl in *.
  - rewrite Hcur. destruct signalled; simpl; [|done].
    destruct Hend as [|Hres]; [done|].
    destruct rest as [|[] ?]; simpl; by rewrite Hres.
  - rewrite Hcur. subst s. simpl. by rewrite (IH c Hc).
Qed.

Lemma wait_ignores_spurious_wakeups_witness :
  wait_until_resolved true 2000 unresolved_type
    [(true, unresolved_type); (true, unresolved_type); (true, resolved_type);
     (false, unresolved_type)]
  = Some (resolved_type,
          [EvTypelibCondWaituntil 2000; EvTypelibCondWaituntil 2000;
           EvTypelibCondWaituntil 2000]).
Proof.
  apply (wait_ignores_spurious_wakeups true 2000 unresolved_type
           [(true, unresolved_type); (true, unresolved_type)] true
           resolved_type [(false, unresolved_type)]).
  - reflexivity.
  - repeat constructor.
  - right. reflexivity.
Defined.

(** ** Outputs of the type-resolution wait *)

(** X13: whenever [wait_for_type_resolved] returns anything but success,
    [*sertype] and [*type_obj] are as the caller passed them, and no
    reference on a sertype was taken. *)
Theorem wait_error_leaves_outputs type_id timeout sertype type_obj env r :
  wait_for_type_resolved type_id timeout sertype type_obj env = Some r →
  wr_rc r ≠ DDS_RETCODE_OK →
  wr_sertype r = sertype
  ∧ wr_type_obj r = type_obj
  ∧ (EvSertypeRef ∉ wr_trace r)
  ∧ (EvGetTypeobj ∉ wr_trace r).
Proof.
  wft_cases;
    (split; [done|]); (split; [done|]);
    split; intros Hin;
    repeat (apply elem_of_cons in Hin as [Hin|Hin]; [discriminate|]);
    by apply elem_of_nil in Hin.
Qed.

Lemma wait_error_leaves_outputs_witness :
  ∃ r,
    wait_for_type_resolved (TypeIdHash 4) 1000 (Some (Some 8%nat)) (Some None)
      (mk_wft_env 0 (Some (domain_with_type 4 unresolved_type)) false 1000
         unresolved_type []) = Some r
    ∧ wr_rc r = DDS_RETCODE_PRECONDITION_NOT_MET
    ∧ wr_sertype r = Some (Some 8%nat)
    ∧ wr_type_obj r = Some None.
Proof.
  destruct (wait_for_type_resolved (TypeIdHash 4) 1000 (Some (Some 8%nat))
              (Some None)
              (mk_wft_env 0 (Some (domain_with_type 4 unresolved_type)) false
                 1000 unresolved_type [])) as [r|] eqn:E;
    [|vm_compute in E; discriminate].
  assert (Hrc : wr_rc r = DDS_RETCODE_PRECONDITION_NOT_MET).
  { apply (f_equal (λ o, match o with Some r => wr_rc r | None => 0 end)) in E.
    vm_compute in E. symmetry. exact E. }
  destruct (wait_error_leaves_outputs _ _ _ _ _ _ E) as (Hs & Ho & _).
  - rewrite Hrc. vm_compute. discriminate.
  - exists r. split; [reflexivity|]. split; [exact Hrc|]. split; [exact Hs|exact Ho].
Defined.

(** X14: when the wait ends with the type resolved, the call returns
    success; [*type_obj], if asked for, receives the type object of the
    record, and [*sertype], if asked for, the record's sertype, which is
    null when the record has none even though the type is resolved. *)
Theorem resolved_wait_outputs type_id timeout sertype type_obj env dom type
    last waits :
  timeout ≠ 0 →
  0 <= e_pin env →
  e_m_domain env = Some dom →
  ddsi_type_lookup_locked (gv_typelib dom) type_id = Some type →
  immediately_available sertype type_obj type = false →
  e_tl_request env = true →
  wait_until_resolved (bool_decide (is_Some sertype))
    (abstimeout (e_tnow env) timeout) (e_relocked env) (e_wakeups env)
  = Some (last, waits) →
  ddsi_type_resolved last (bool_decide (is_Some sertype)) = true →
  ∃ r,
    wait_for_type_resolved type_id timeout sertype type_obj env = Some r
    ∧ wr_rc r = DDS_RETCODE_OK
    ∧ wr_sertype r
      = match sertype with Some _ => Some (t_sertype last) | None => None end
    ∧ wr_type_obj r
      = match type_obj with Some _ => Some (t_typeobj last) | None => None end.
Proof.
  intros Hto Hpin Hdom Hlook Havail Hreq Hwait Hlast.
  destruct type_id as [|h|]; try discriminate.
  unfold wait_for_type_resolved. simpl in *.
  destruct (e_pin env <? 0) eqn:E; [lia|].
  rewrite Hdom, Hlook, Hreq. simpl.
  destruct (timeout =? 0) eqn:E0; [lia|].
  unfold immediately_available in Havail.
  apply orb_false_elim in Havail as [Hst Hobj]. rewrite Hobj.
  unfold ddsi_type_sertype, ddsi_type_get_typeobj in *.
  destruct sertype as [s|], (t_sertype type) as [st|]; simpl in *;
    try discriminate;
    rewrite Hwait, Hlast;
    destruct (t_sertype last), type_obj;
    eexists; (split; [reflexivity|]); done.
Qed.

Lemma resolved_wait_outputs_witness :
  ∃ r,
    dds_get_typeobj (TypeIdHash 4) 1000 (Some None)
      (mk_wft_env 0 (Some (domain_with_type 4 unresolved_type)) true 1000
         unresolved_type [(true, resolved_type)]) = Some r
    ∧ wr_rc r = DDS_RETCODE_OK
    ∧ wr_type_obj r = Some (Some 9%nat).
Proof.
  destruct (resolved_wait_outputs (TypeIdHash 4) 1000 None (Some None)
              (mk_wft_env 0 (Some (domain_with_type 4 unresolved_type)) true
                 1000 unresolved_type [(true, resolved_type)])
              (domain_with_type 4 unresolved_type) unresolved_type
              resolved_type [EvTypelibCondWaituntil 2000])
    as (r & Hcall & Hrc & _ & Hobj);
    try (vm_compute; reflexivity); try (vm_compute; discriminate).
  exists r. split; [exact Hcall|]. split; [exact Hrc|exact Hobj].
Defined.

(** ** Lock and pin discipline of the type-resolution wait *)

Lemma run_tl_app s a b :
  run_tl s (a ++ b)
  = match run_tl s a with
    | Some s' => run_tl s' b
    | None => None
    end.
Proof.
  revert s. induction a as [|e a IH]; intros s; simpl; [done|].
  destruct (step_tl s e); [apply IH|done].
Qed.

Lemma wait_until_resolved_locked include_deps deadline cur wakeups last waits :
  wait_until_resolved include_deps deadline cur wakeups = Some (last, waits) →
  run_tl (mk_tl_state true true) waits = Some (mk_tl_state true true).
Proof.
  revert cur waits.
  induction wakeups as [|[signalled cur'] rest IH]; intros cur waits; simpl.
  - destruct (ddsi_type_resolved cur include_deps); [|done].
    by intros [= <- <-].
  - destruct (ddsi_type_resolved cur include_deps); [by intros [= <- <-]|].
    destruct signalled; simpl; [|by intros [= <- <-]].
    destruct (wait_until_resolved include_deps deadline cur' rest)
      as [[cur'' evs]|] eqn:Hrest; [|done].
    intros [= <- <-]. simpl. by apply (IH _ _ Hrest).
Qed.

(** X15: every return of [wait_for_type_resolved] that follows a
    successful pin has released the type-library lock and unpinned the
    entity, having read the type record and waited only under the lock and
    issued the resolution request only outside it; when the pin fails the
    call does nothing further. *)
Theorem wait_lock_pin_discipline type_id timeout sertype type_obj env r :
  wait_for_type_resolved type_id timeout sertype type_obj env = Some r →
  (0 <= e_pin env → run_tl tl_idle (wr_trace r) = Some tl_idle)
  ∧ (e_pin env < 0 →
     wr_rc r = DDS_RETCODE_BAD_PARAMETER ∧ wr_trace r = []
     ∨ wr_rc r = e_pin env ∧ wr_trace r = [EvEntityPin]).
Proof.
  wft_cases; (split; [intros Hpos; try lia|intros Hneg; try lia; auto]);
    try reflexivity;
    match goal with
    | H : wait_until_resolved _ _ _ _ = Some _ |- _ =>
        apply wait_until_resolved_locked in H
    end;
    rewrite ?run_tl_app; simpl; rewrite ?run_tl_app;
    match goal with
    | H : run_tl _ _ = Some _ |- _ => rewrite H
    end; reflexivity.
Qed.

Lemma wait_lock_pin_discipline_witness :
  ∃ r,
    dds_resolve_type (TypeIdHash 4) 1000 (Some None)
      (mk_wft_env 0 (Some (domain_with_type 4 unresolved_type)) true 1000
         unresolved_type
         [(true, unresolved_type); (true, resolved_type)]) = Some r
    ∧ run_tl tl_idle (wr_trace r) = Some tl_idle.
Proof.
  destruct (dds_resolve_type (TypeIdHash 4) 1000 (Some None)
              (mk_wft_env 0 (Some (domain_with_type 4 unresolved_type)) true
                 1000 unresolved_type
                 [(true, unresolved_type); (true, resolved_type)]))
    as [r|] eqn:E; [|vm_compute in E; discriminate].
  exists r. split; [reflexivity|].
  apply (wait_lock_pin_discipline _ _ _ _ _ _ E). vm_compute. discriminate.
Defined.

(** ** The deadline *)

Lemma deadline_saturates_aux (tnow timeout : Z) :
  is_i64 tnow →
  0 <= timeout <= INT64_MAX →
  (tnow + timeout < DDS_INFINITY → abstimeout tnow timeout = tnow + timeout)
  ∧ (DDS_INFINITY <= tnow + timeout → abstimeout tnow timeout = DDS_NEVER).
Proof.
  intros Hnow Hto.
  assert (Hsub : is_i64 (DDS_INFINITY - timeout))
    by (unfold is_i64, DDS_INFINITY, INT64_MIN, INT64_MAX in *; lia).
  unfold abstimeout. rewrite (wrap_i64_id _ Hsub).
  unfold is_i64, DDS_INFINITY, DDS_NEVER, INT64_MIN, INT64_MAX in *.
  destruct (2 ^ 63 - 1 - timeout <=? tnow) eqn:E.
  - split; [lia|done].
  - rewrite (wrap_i64_id (tnow + timeout))
      by (unfold is_i64, INT64_MIN, INT64_MAX; lia).
    split; [done|lia].
Qed.

(** X16: for a non-negative timeout the deadline never lies before the
    current time, never exceeds "never", and grows with the timeout; with
    the infinite timeout and a non-negative clock it is "never". *)
Theorem deadline_monotone (tnow t1 t2 : Z) :
  is_i64 tnow →
  0 <= t1 <= t2 →
  t2 <= INT64_MAX →
  tnow <= abstimeout tnow t1
  ∧ abstimeout tnow t1 <= abstimeout tnow t2
  ∧ abstimeout tnow t2 <= DDS_NEVER
  ∧ (0 <= tnow → abstimeout tnow DDS_INFINITY = DDS_NEVER).
Proof.
  intros Hnow H12 H2.
  destruct (deadline_saturates_aux tnow t1) as (H1a & H1b); [done|lia|].
  destruct (deadline_saturates_aux tnow t2) as (H2a & H2b); [done|lia|].
  destruct (deadline_saturates_aux tnow DDS_INFINITY) as (_ & Hinf);
    [done|unfold DDS_INFINITY, INT64_MAX; lia|].
  unfold is_i64, DDS_INFINITY, DDS_NEVER, INT64_MIN, INT64_MAX in *.
  destruct (decide (tnow + t1 < 2 ^ 63 - 1)) as [Hl1|Hg1];
    destruct (decide (tnow + t2 < 2 ^ 63 - 1)) as [Hl2|Hg2];
    rewrite ?(H1a Hl1), ?(H2a Hl2), ?H1b, ?H2b by lia;
    repeat split; try lia; intros; apply Hinf; lia.
Qed.

Lemma deadline_monotone_witness :
  1000 <= abstimeout 1000 5
  ∧ abstimeout 1000 5 <= abstimeout 1000 DDS_INFINITY.
Proof.
  destruct (deadline_monotone 1000 5 DDS_INFINITY) as (H1 & H2 & _).
  - vm_compute. split; discriminate.
  - vm_compute. split; discriminate.
  - vm_compute. discriminate.
  - split; [exact H1|exact H2].
Defined.

(** ** [dds_domain_set_deafmute] *)

(** X17: [dds_domain_set_deafmute] returns success exactly when the pin
    succeeds and the entity belongs to a domain, and exactly then calls
    [ddsi_set_deafmute], once and with the caller's arguments; a failed
    pin is returned as it is without an unpin, and a pinned entity is
    unpinned on both remaining paths. *)
Theorem set_deafmute_outcome pin m_domain deaf mute reset_after :
  let '(rc, tr) := dds_domain_set_deafmute pin m_domain deaf mute reset_after in
  (rc = DDS_RETCODE_OK ↔ 0 <= pin ∧ is_Some m_domain)
  ∧ (rc = DDS_RETCODE_OK →
     tr = [DmEntityPin; DmSetDeafmute deaf mute reset_after; DmEntityUnpin])
  ∧ (rc ≠ DDS_RETCODE_OK →
     ∀ d m t, DmSetDeafmute d m t ∉ tr)
  ∧ (pin < 0 → rc = pin ∧ tr = [DmEntityPin])
  ∧ (0 <= pin → m_domain = None →
     rc = DDS_RETCODE_ILLEGAL_OPERATION ∧ tr = [DmEntityPin; DmEntityUnpin]).
Proof.
  unfold dds_domain_set_deafmute, DDS_RETCODE_OK,
    DDS_RETCODE_ILLEGAL_OPERATION.
  assert (Hnotin : ∀ d m t l,
            Forall (λ e, e = DmEntityPin ∨ e = DmEntityUnpin) l →
            DmSetDeafmute d m t ∉ l).
  { intros d m t l Hall Hin. rewrite Forall_forall in Hall.
    by destruct (Hall _ Hin). }
  destruct (pin <? 0) eqn:E; [|destruct m_domain as [dom|]].
  - split; [split; [lia|intros [? _]; lia]|]. split; [lia|].
    split; [intros _ d m t; apply Hnotin;
            repeat first [apply Forall_nil_2 | apply Forall_cons_2; [auto|]]|].
    split; [done|lia].
  - split; [split; [intros _; split; [lia|by eexists]|done]|].
    split; [done|]. split; [done|]. split; [lia|done].
  - split; [split; [done|intros [_ [? [=]]]]|]. split; [done|].
    split; [intros _ d m t; apply Hnotin;
            repeat first [apply Forall_nil_2 | apply Forall_cons_2; [auto|]]|].
    split; [lia|done].
Qed.

(** ** The children walk *)

(** Induction on an entity with the entities below it. *)
Lemma entity_node_induction (P : entity_node → Prop) :
  (∀ k i p b cs, Forall P cs → P (Entity k i p b cs)) →
  ∀ e, P e.
Proof.
  intros Hnode. fix IH 1. intros [k i p b cs]. apply Hnode.
  induction cs as [|c cs IHcs]; constructor; [apply IH|exact IHcs].
Qed.

Lemma ddsrt_avl_lookup_succ_spec last cs :
  match ddsrt_avl_lookup_succ last cs with
  | Some c =>
      c ∈ cs ∧ last < n_iid c
      ∧ ∀ d, d ∈ cs → last < n_iid d → n_iid c <= n_iid d
  | None => ∀ d, d ∈ cs → n_iid d <= last
  end.
Proof.
  unfold ddsrt_avl_lookup_succ.
  induction cs as [|a cs IH]; simpl.
  - intros d Hd. by apply elem_of_nil in Hd.
  - unfold succ_candidate at 1.
    destruct (foldr (succ_candidate last) None cs) as [c|].
    + destruct IH as (Hin & Hgt & Hmin).
      destruct (last <? n_iid a) eqn:Ea;
        [destruct (n_iid a <? n_iid c) eqn:Eac|].
      * split; [left|]. split; [lia|].
        intros d [->|Hd]%elem_of_cons Hl; [lia|].
        specialize (Hmin d Hd Hl). lia.
      * split; [by right|]. split; [done|].
        intros d [->|Hd]%elem_of_cons Hl; [lia|by apply Hmin].
      * split; [by right|]. split; [done|].
        intros d [->|Hd]%elem_of_cons Hl; [lia|by apply Hmin].
    + destruct (last <? n_iid a) eqn:Ea.
      * split; [left|]. split; [lia|].
        intros d [->|Hd]%elem_of_cons Hl; [lia|].
        specialize (IH d Hd). lia.
      * intros d [->|Hd]%elem_of_cons; [lia|by apply IH].
Qed.

Lemma remaining_le_length last cs : (remaining last cs ≤ length cs)%nat.
Proof. unfold remaining. apply length_filter. Qed.

Lemma remaining_step last d cs :
  d ∈ cs → last < n_iid d →
  (remaining (n_iid d) cs < remaining last cs)%nat.
Proof.
  unfold remaining. intros Hd Hl.
  induction cs as [|a cs IH]; [by apply elem_of_nil in Hd|].
  assert (Hmono : (length (filter (λ c, (n_iid d < n_iid c)%Z) cs)
                   ≤ length (filter (λ c, (last < n_iid c)%Z) cs))%nat).
  { clear -Hl. induction cs as [|a cs IH]; [done|].
    rewrite !filter_cons. repeat case_decide; simpl; lia. }
  rewrite !filter_cons.
  apply elem_of_cons in Hd as [<-|Hd].
  - rewrite decide_False by lia. rewrite decide_True by lia. simpl. lia.
  - specialize (IH Hd). repeat case_decide; simpl; lia.
Qed.

(** The loop passes every child once, in key order: started with the
    cursor at [last] on a list whose nodes up to [last] have been passed,
    it ends with all of them passed. *)
Lemma walk_children_result visit parent g cs0 :
  (∀ c d, c ∈ cs0 → d ∈ cs0 → n_iid c = n_iid d → c = d) →
  (∀ c, c ∈ cs0 → n_iid (g c) = n_iid c) →
  (∀ c, c ∈ cs0 → n_pinnable c = false → g c = c) →
  (∀ c, c ∈ cs0 → n_pinnable c = true → ∃ tr, visit c = Some (g c, tr)) →
  ∀ fuel last,
    (remaining last cs0 ≤ fuel)%nat →
    ∃ tr,
      walk_children visit parent fuel (map (passed g last) cs0) last
      = Some (map g cs0, tr).
Proof.
  intros Huniq Hiid Hskip Hvisit.
  assert (Hpiid : ∀ last d, d ∈ cs0 → n_iid (passed g last d) = n_iid d).
  { intros last d Hd. unfold passed. destruct (n_iid d <=? last); [|done].
    by apply Hiid. }
  assert (Hdone : ∀ last,
            (∀ d, d ∈ map (passed g last) cs0 → n_iid d <= last) →
            map (passed g last) cs0 = map g cs0).
  { intros last Hall. apply map_ext_in. intros d Hd%list_elem_of_In.
    unfold passed. destruct (n_iid d <=? last) eqn:El; [done|].
    specialize (Hall (passed g last d)).
    rewrite (Hpiid _ _ Hd) in Hall.
    assert (n_iid d <= last); [|lia].
    apply Hall, list_elem_of_fmap. by exists d. }
  assert (Hfound : ∀ last c,
            ddsrt_avl_lookup_succ last (map (passed g last) cs0) = Some c →
            c ∈ cs0 ∧ last < n_iid c
            ∧ ∀ d', d' ∈ cs0 → last < n_iid d' → n_iid c <= n_iid d').
  { intros last c E.
    pose proof (ddsrt_avl_lookup_succ_spec last (map (passed g last) cs0))
      as Hspec. rewrite E in Hspec. destruct Hspec as (Hin & Hgt & Hmin).
    apply list_elem_of_fmap in Hin as (d & -> & Hd).
    rewrite (Hpiid _ _ Hd) in *.
    assert (Hpd : passed g last d = d)
      by (unfold passed; destruct (n_iid d <=? last) eqn:El; [lia|done]).
    rewrite Hpd. split; [done|]. split; [done|].
    intros d' Hd' Hl. rewrite <- (Hpiid last d' Hd').
    apply Hmin; [apply list_elem_of_fmap; by exists d'|].
    by rewrite (Hpiid last d' Hd'). }
  induction fuel as [|fuel IH]; intros last Hrem; simpl;
    pose proof (ddsrt_avl_lookup_succ_spec last (map (passed g last) cs0))
      as Hspec;
    destruct (ddsrt_avl_lookup_succ last (map (passed g last) cs0))
      as [d|] eqn:E.
  - destruct (Hfound _ _ E) as (Hd & Hgt & _).
    pose proof (remaining_step last d cs0 Hd Hgt). lia.
  - rewrite (Hdone last Hspec). by eexists.
  - destruct (Hfound _ _ E) as (Hd & Hgt & Hmin'). clear Hspec.
    assert (Hfuel : (remaining (n_iid d) cs0 ≤ fuel)%nat)
      by (pose proof (remaining_step last d cs0 Hd Hgt); lia).
    destruct (IH (n_iid d) Hfuel) as (tr & Hrest).
    destruct (n_pinnable d) eqn:Hp; simpl.
    + destruct (Hvisit d Hd Hp) as (trc & ->).
      assert (replace_child (g d) (map (passed g last) cs0)
              = map (passed g (n_iid d)) cs0) as ->.
      { unfold replace_child. rewrite map_map. apply map_ext_in.
        intros d' Hd'%list_elem_of_In.
        rewrite (Hpiid _ _ Hd'), (Hiid _ Hd). unfold passed.
        destruct (n_iid d' =? n_iid d) eqn:Eq.
        - assert (d' = d) as -> by (apply Huniq; [done|done|lia]).
          by rewrite Z.leb_refl.
        - destruct (n_iid d' <=? last) eqn:E1,
                   (n_iid d' <=? n_iid d) eqn:E2; try done; try lia.
          specialize (Hmin' d' Hd'). lia. }
      rewrite Hrest. by eexists.
    + assert (map (passed g last) cs0 = map (passed g (n_iid d)) cs0) as ->.
      { apply map_ext_in. intros d' Hd'%list_elem_of_In. unfold passed.
        destruct (n_iid d' <=? last) eqn:E1,
                 (n_iid d' <=? n_iid d) eqn:E2; try done; try lia.
        assert (n_iid d' = n_iid d)
          by (specialize (Hmin' d' Hd'); lia).
        assert (d' = d) as -> by (by apply Huniq).
        symmetry. by apply Hskip. }
      rewrite Hrest. by eexists.
  - rewrite (Hdone last Hspec). by eexists.
Qed.

Lemma batch_pushed_iid enable e : n_iid (batch_pushed enable e) = n_iid e.
Proof. by destruct e. Qed.

Lemma pushed_child_iid enable c : n_iid (pushed_child enable c) = n_iid c.
Proof.
  unfold pushed_child. destruct (n_pinnable c); [|done].
  destruct (n_kind c); try done; [apply batch_pushed_iid|by destruct c].
Qed.

Lemma tree_wf_child c cs :
  foldr (λ c acc, tree_wf c ∧ acc) True cs → c ∈ cs → tree_wf c.
Proof.
  induction cs as [|a cs IH]; simpl; [by intros _ ?%elem_of_nil|].
  intros [Ha Hcs] [->|Hc]%elem_of_cons; [done|by apply IH].
Qed.

Lemma height_child c cs :
  c ∈ cs → (height c ≤ foldr (λ c acc, Nat.max (height c) acc) 0 cs)%nat.
Proof.
  induction cs as [|a cs IH]; simpl; [by intros ?%elem_of_nil|].
  intros [->|Hc]%elem_of_cons; [lia|]. specialize (IH Hc). lia.
Qed.

(** On a well-formed tree and with the recursion depth the tree needs,
    [pushdown_set_batch] runs to the end and leaves the tree that the
    structural description gives. *)
Lemma pushdown_set_batch_computes depth enable e :
  tree_wf e →
  (height e ≤ depth)%nat →
  ∃ tr, pushdown_set_batch depth enable e = Some (batch_pushed enable e, tr).
Proof.
  revert e. induction depth as [|depth IH]; intros [k i p b cs] Hwf Hh;
    [simpl in Hh; lia|].
  destruct Hwf as [[Hpos Huniq] Hsub]. simpl in Hh.
  cbn [pushdown_set_batch n_children n_iid].
  set (visit := λ c : entity_node, match n_kind c with
                   | DDS_KIND_PARTICIPANT => pushdown_set_batch depth enable c
                   | DDS_KIND_WRITER =>
                       Some (set_whc_batch enable c, [WkSetBatch (n_iid c) enable])
                   | _ => Some (c, [])
                   end).
  destruct (walk_children_result visit (MxEntity i) (pushed_child enable) cs)
    with (fuel := length cs) (last := 0) as (tr & Hwalk).
  - exact Huniq.
  - intros c _. apply pushed_child_iid.
  - intros c _ Hp. unfold pushed_child. by rewrite Hp.
  - intros c Hc Hp. unfold pushed_child, visit. rewrite Hp.
    destruct (n_kind c); try by eexists.
    apply IH; [by apply (tree_wf_child c cs)|].
    pose proof (height_child c cs Hc). lia.
  - apply remaining_le_length.
  - assert (map (passed (pushed_child enable) 0) cs = cs) as Hstart.
    { rewrite <- (map_id cs) at 2. apply map_ext_in.
      intros d Hd%list_elem_of_In. unfold passed.
      specialize (Hpos d Hd). destruct (n_iid d <=? 0) eqn:E; [lia|done]. }
    rewrite Hstart in Hwalk. rewrite Hwalk. by eexists.
Qed.

Lemma sample_tree_wf : tree_wf sample_tree.
Proof.
  assert (Hwf : ∀ cs, Forall (λ c, 0 < n_iid c) cs → NoDup (map n_iid cs) →
                      children_wf cs).
  { intros cs Hpos Hnd. split.
    - intros c Hc. by apply (proj1 (Forall_forall _ _) Hpos).
    - induction cs as [|a cs IHcs]; [by intros c d ?%elem_of_nil|].
      apply Forall_cons in Hpos as [_ Hpos].
      simpl in Hnd. apply NoDup_cons in Hnd as [Ha Hnd].
      intros c d [->|Hc]%elem_of_cons [->|Hd]%elem_of_cons Heq; try done.
      + exfalso. apply Ha. rewrite Heq. apply list_elem_of_fmap. by exists d.
      + exfalso. apply Ha. rewrite <- Heq. apply list_elem_of_fmap. by exists c.
      + by apply IHcs. }
  simpl.
  repeat match goal with
         | |- True => exact I
         | |- children_wf _ =>
             apply Hwf; simpl;
             [repeat first [apply Forall_nil_2 | apply Forall_cons_2; [simpl; lia|]]
             |repeat first [apply NoDup_nil_2
                           | apply NoDup_cons_2;
                             [rewrite ?elem_of_cons, elem_of_nil; lia|]]]
         | |- _ ∧ _ => split
         end.
Qed.

(** X18: on a well-formed tree and with the recursion depth the tree
    needs, [pushdown_set_batch] runs to the end (the cursor loop needs no
    more iterations than there are children) and leaves the tree that the
    structural description gives: every writer that can be pinned and is
    reached through participants that can be pinned has the flag,
    everything else is as before.  In particular a pinnable writer
    directly below the entity carries the caller's value afterwards, and a
    pinnable participant directly below it has been walked in turn. *)
Theorem pushdown_set_batch_result depth enable e :
  tree_wf e →
  (height e ≤ depth)%nat →
  ∃ e' tr,
    pushdown_set_batch depth enable e = Some (e', tr)
    ∧ e' = batch_pushed enable e
    ∧ (∀ c, c ∈ n_children e → n_pinnable c = true →
            n_kind c = DDS_KIND_WRITER →
            set_whc_batch enable c ∈ n_children e')
    ∧ (∀ c, c ∈ n_children e → n_pinnable c = true →
            n_kind c = DDS_KIND_PARTICIPANT →
            batch_pushed enable c ∈ n_children e').
Proof.
  intros Hwf Hh.
  destruct (pushdown_set_batch_computes depth enable e Hwf Hh) as (tr & Hres).
  exists (batch_pushed enable e), tr. split; [done|]. split; [done|].
  destruct e as [k i p b cs]. simpl.
  split; intros c Hc Hp Hk; apply list_elem_of_fmap; exists c;
    (split; [|done]); by rewrite Hp, Hk.
Qed.

Lemma pushdown_set_batch_result_witness :
  ∃ tr,
    pushdown_set_batch 3 true sample_tree
    = Some (Entity DDS_KIND_PARTICIPANT 10 true false
              [Entity DDS_KIND_WRITER 11 true true [];
               Entity DDS_KIND_PUBLISHER 12 true false
                 [Entity DDS_KIND_WRITER 13 true false []];
               Entity DDS_KIND_PARTICIPANT 14 true false
                 [Entity DDS_KIND_WRITER 15 true true [];
                  Entity DDS_KIND_WRITER 16 false false []]], tr).
Proof.
  destruct (pushdown_set_batch_result 3 true sample_tree)
    as (e' & tr & Hrun & -> & _).
  - exact sample_tree_wf.
  - vm_compute. lia.
  - exists tr. exact Hrun.
Defined.

(** ** Discipline of the walk *)

Lemma run_walk_app child_of s a b :
  run_walk child_of s (a ++ b)
  = match run_walk child_of s a with
    | Some s' => run_walk child_of s' b
    | None => None
    end.
Proof.
  revert s. induction a as [|e a IH]; intros s; simpl; [done|].
  destruct (step_walk child_of s e); [apply IH|done].
Qed.

Lemma run_walk_cons child_of s e evs s' :
  step_walk child_of s e = Some s' →
  run_walk child_of s (e :: evs) = run_walk child_of s' evs.
Proof. intros H. simpl. by rewrite H. Qed.

Lemma step_walk_lock child_of m pins :
  lockable m pins = true →
  step_walk child_of (mk_walk_state None pins) (WkLock m)
  = Some (mk_walk_state (Some m) pins).
Proof. intros H. simpl. by rewrite H. Qed.

Lemma step_walk_unlock_holder child_of parent pins :
  step_walk child_of (mk_walk_state (Some parent) pins) (WkUnlock parent)
  = Some (mk_walk_state None pins).
Proof. destruct parent; simpl; [done|]. by rewrite Z.eqb_refl. Qed.

Lemma step_walk_pin child_of m c pins :
  child_of m c = true →
  step_walk child_of (mk_walk_state (Some m) pins) (WkPin c)
  = Some (mk_walk_state (Some m) (c :: pins)).
Proof. intros H. simpl. by rewrite H. Qed.

Lemma step_walk_pin_failed child_of m c pins :
  child_of m c = true →
  step_walk child_of (mk_walk_state (Some m) pins) (WkPinFailed c)
  = Some (mk_walk_state (Some m) pins).
Proof. intros H. simpl. by rewrite H. Qed.

Lemma step_walk_unpin child_of m c pins :
  child_of m c = true →
  step_walk child_of (mk_walk_state (Some m) (c :: pins)) (WkUnpin c)
  = Some (mk_walk_state (Some m) pins).
Proof. intros H. simpl. by rewrite Z.eqb_refl, H. Qed.

Lemma lockable_cons m c pins :
  lockable m pins = true → lockable m (c :: pins) = true.
Proof.
  destruct m as [|i]; simpl; [done|]. intros ->. apply orb_true_r.
Qed.

Lemma covers_children child_of k i p b cs :
  covers child_of (Entity k i p b cs)
  ↔ Forall (kid_ok child_of (MxEntity i)) cs.
Proof.
  simpl. induction cs as [|c cs IH]; simpl.
  - split; [constructor|done].
  - rewrite Forall_cons, <- IH. reflexivity.
Qed.

Lemma covers_set_whc_batch child_of enable c :
  covers child_of c → covers child_of (set_whc_batch enable c).
Proof. by destruct c. Qed.

Lemma kid_ok_replace child_of parent c' cs :
  kid_ok child_of parent c' →
  Forall (kid_ok child_of parent) cs →
  Forall (kid_ok child_of parent) (replace_child c' cs).
Proof.
  intros Hc' Hcs. unfold replace_child. apply Forall_fmap.
  eapply Forall_impl; [exact Hcs|]. intros d Hd. simpl.
  by destruct (n_iid d =? n_iid c').
Qed.

(** The loop over the children keeps the discipline when each visit
    does, and leaves the children under the same keys. *)
Lemma walk_children_discipline child_of visit parent :
  (∀ c c' trc, visit c = Some (c', trc) → covers child_of c →
     n_iid c' = n_iid c ∧ covers child_of c'
     ∧ ∀ pins, run_walk child_of (mk_walk_state None (n_iid c :: pins)) trc
               = Some (mk_walk_state None (n_iid c :: pins))) →
  ∀ fuel cs last cs' tr,
    Forall (kid_ok child_of parent) cs →
    walk_children visit parent fuel cs last = Some (cs', tr) →
    Forall (kid_ok child_of parent) cs'
    ∧ ∀ pins, lockable parent pins = true →
        run_walk child_of (mk_walk_state (Some parent) pins) tr
        = Some (mk_walk_state (Some parent) pins).
Proof.
  intros Hvisit. induction fuel as [|fuel IH]; intros cs last cs' tr Hcs;
    cbn [walk_children];
    pose proof (ddsrt_avl_lookup_succ_spec last cs) as Hsucc;
    destruct (ddsrt_avl_lookup_succ last cs) as [c|];
    try (by intros [= <- <-]); try done.
  destruct Hsucc as (Hc & _ & _).
  destruct (proj1 (Forall_forall _ _) Hcs c Hc) as [Hpc Hcov].
  destruct (n_pinnable c); simpl negb; cbv iota.
  - destruct (visit c) as [[c' trc]|] eqn:Hv; [|done].
    destruct (Hvisit _ _ _ Hv Hcov) as (Hiid & Hcov' & Hrun).
    destruct (walk_children visit parent fuel (replace_child c' cs) (n_iid c))
      as [[cs1 tr1]|] eqn:Hrest; [|done].
    intros [= <- <-].
    assert (Hcs1 : Forall (kid_ok child_of parent) (replace_child c' cs)).
    { apply kid_ok_replace; [|done]. split; [by rewrite Hiid|done]. }
    destruct (IH _ _ _ _ Hcs1 Hrest) as [Hout Hbal].
    split; [done|]. intros pins Hlock. cbn [app].
    erewrite run_walk_cons by (by apply step_walk_pin).
    erewrite run_walk_cons by apply step_walk_unlock_holder.
    rewrite run_walk_app, Hrun.
    erewrite run_walk_cons
      by (apply step_walk_lock; by apply lockable_cons).
    erewrite run_walk_cons by (by apply step_walk_unpin).
    by apply Hbal.
  - destruct (walk_children visit parent fuel cs (n_iid c))
      as [[cs1 tr1]|] eqn:Hrest; [|done].
    intros [= <- <-].
    destruct (IH _ _ _ _ Hcs Hrest) as [Hout Hbal].
    split; [done|]. intros pins Hlock.
    erewrite run_walk_cons by (by apply step_walk_pin_failed).
    by apply Hbal.
Qed.

(** A walk that returns was entered and left with no mutex held and its
    entity pinned, kept the discipline in between, and left every entity
    under its own instance id. *)
Lemma pushdown_set_batch_balanced child_of depth enable e e' tr :
  pushdown_set_batch depth enable e = Some (e', tr) →
  covers child_of e →
  n_iid e' = n_iid e ∧ covers child_of e'
  ∧ ∀ pins, run_walk child_of (mk_walk_state None (n_iid e :: pins)) tr
            = Some (mk_walk_state None (n_iid e :: pins)).
Proof.
  revert e e' tr.
  induction depth as [|depth IH]; intros e e' tr; [done|].
  cbn [pushdown_set_batch].
  destruct (walk_children _ _ _ _ _) as [[cs' tr0]|] eqn:Hwalk; [|done].
  intros [= <- <-] Hcov. destruct e as [k i p b cs].
  cbn [n_iid n_children set_children] in *.
  apply covers_children in Hcov.
  eapply (walk_children_discipline child_of) in Hwalk as [Hkids Hbal];
    [| |exact Hcov].
  - split; [done|]. split; [by apply covers_children|]. intros pins.
    cbn [app]. rewrite run_walk_cons with (s' := mk_walk_state None (i :: pins))
      by (simpl; by rewrite Z.eqb_refl).
    erewrite run_walk_cons
      by (apply step_walk_lock; simpl; by rewrite Z.eqb_refl).
    rewrite run_walk_app, Hbal by (simpl; by rewrite Z.eqb_refl).
    erewrite run_walk_cons by apply step_walk_unlock_holder. done.
  - intros c c' trc. cbv beta.
    destruct (n_kind c); try (by intros [= <- <-] Hc).
    + intros Hrun Hc. by apply IH.
    + intros [= <- <-] Hc. split; [by destruct c|].
      split; [by apply covers_set_whc_batch|]. intros pins. simpl.
      by rewrite Z.eqb_refl.
Qed.

Lemma covers_mono child_of child_of' e :
  (∀ m c, child_of m c = true → child_of' m c = true) →
  covers child_of e → covers child_of' e.
Proof.
  intros Hmono. induction e as [k i p b cs IH] using entity_node_induction.
  rewrite !covers_children, !Forall_forall in *.
  intros Hcs c Hc. destruct (Hcs c Hc) as [Hp Hcov].
  split; [by apply Hmono|by apply IH].
Qed.

Lemma tree_child_covers e : covers (tree_child e) e.
Proof.
  induction e as [k i p b cs IH] using entity_node_induction.
  rewrite covers_children. rewrite Forall_forall in *. intros c Hc. split.
  - simpl. rewrite Z.eqb_refl. simpl. apply orb_true_intro. left.
    apply existsb_exists. exists c.
    split; [by apply list_elem_of_In|apply Z.eqb_refl].
  - apply (covers_mono (tree_child c)); [|by apply IH].
    intros m z Hz. simpl. apply orb_true_intro. right.
    apply existsb_exists. exists c. split; [by apply list_elem_of_In|done].
Qed.

(** X19: entered with no mutex held and its entity pinned, as its comment
    demands, [pushdown_set_batch] holds at most one mutex at any time,
    takes the mutex of an entity only while it has that entity pinned,
    pins and unpins each child under the mutex of that child's parent and
    under no other, releases that mutex around the work on the child,
    writes a writer's flag and enters each recursive call with no mutex
    held and the entity concerned pinned, and returns with no mutex held
    and no pin left.  Entered with a mutex held, or with no pin at all,
    the same run breaks the discipline with its first step. *)
Theorem pushdown_set_batch_discipline depth enable e e' tr pins :
  pushdown_set_batch depth enable e = Some (e', tr) →
  run_walk (tree_child e) (mk_walk_state None (n_iid e :: pins)) tr
  = Some (mk_walk_state None (n_iid e :: pins))
  ∧ (∀ child_of m pins',
       run_walk child_of (mk_walk_state (Some m) pins') tr = None)
  ∧ (∀ child_of, run_walk child_of (mk_walk_state None []) tr = None).
Proof.
  intros Hrun. split.
  - by apply (pushdown_set_batch_balanced (tree_child e) depth enable e e' tr
                Hrun (tree_child_covers e)).
  - destruct depth as [|depth]; [done|]. cbn [pushdown_set_batch] in Hrun.
    destruct (walk_children _ _ _ _ _) as [[cs' tr0]|]; [|done].
    injection Hrun as <- <-. split; [intros child_of m pins'|intros child_of];
      reflexivity.
Qed.

Lemma pushdown_set_batch_discipline_witness :
  ∃ e' tr,
    pushdown_set_batch 3 true sample_tree = Some (e', tr)
    ∧ run_walk (tree_child sample_tree) (mk_walk_state None [10]) tr
      = Some (mk_walk_state None [10]).
Proof.
  destruct (pushdown_set_batch 3 true sample_tree) as [[e' tr]|] eqn:E;
    [|vm_compute in E; discriminate].
  exists e', tr. split; [reflexivity|].
  exact (proj1 (pushdown_set_batch_discipline 3 true sample_tree e' tr [] E)).
Defined.

(** ** What the walk changes *)

Lemma pushed_child_shape enable c :
  n_kind (pushed_child enable c) = n_kind c
  ∧ n_pinnable (pushed_child enable c) = n_pinnable c.
Proof.
  unfold pushed_child. destruct c as [k i p b cs]. simpl.
  destruct p; [|done]. by destruct k.
Qed.

Lemma without_batch_pushed enable e :
  without_batch (batch_pushed enable e) = without_batch e.
Proof.
  induction e as [k i p b cs IH] using entity_node_induction. simpl.
  f_equal. rewrite map_map. apply map_ext_in. intros c Hc%list_elem_of_In.
  rewrite Forall_forall in IH. specialize (IH c Hc).
  destruct c as [kc ic pc bc csc]. simpl in *.
  destruct pc; [|done]. by destruct kc.
Qed.

(** X20: the walk changes nothing but [whc_batch] flags of writers: kinds,
    instance ids, the shape of the tree and every other flag are as
    before.  A child that is neither a participant nor a writer is left
    exactly as it was with everything below it, so a writer below a
    publisher is not reached; and so is a child that cannot be pinned. *)
Theorem pushdown_set_batch_frame depth enable e e' tr :
  tree_wf e →
  (height e ≤ depth)%nat →
  pushdown_set_batch depth enable e = Some (e', tr) →
  without_batch e' = without_batch e
  ∧ n_kind e' = n_kind e ∧ n_iid e' = n_iid e
  ∧ n_whc_batch e' = n_whc_batch e
  ∧ length (n_children e') = length (n_children e)
  ∧ (∀ c, c ∈ n_children e →
          n_kind c ≠ DDS_KIND_PARTICIPANT → n_kind c ≠ DDS_KIND_WRITER →
          c ∈ n_children e')
  ∧ (∀ c, c ∈ n_children e → n_pinnable c = false → c ∈ n_children e').
Proof.
  intros Hwf Hh Hrun.
  destruct (pushdown_set_batch_computes depth enable e Hwf Hh) as (tr' & Hres).
  rewrite Hres in Hrun. injection Hrun as <- _.
  split; [apply without_batch_pushed|].
  destruct e as [k i p b cs]. simpl.
  split; [done|]. split; [done|]. split; [done|].
  split; [by rewrite length_map|]. split.
  - intros c Hc Hk1 Hk2. apply list_elem_of_fmap. exists c. split; [|done].
    destruct c as [kc ic pc bc csc]. simpl in *.
    destruct pc; [|done]. by destruct kc.
  - intros c Hc Hp. apply list_elem_of_fmap. exists c. split; [|done].
    destruct c as [kc ic pc bc csc]. simpl in *. by subst pc.
Qed.

Lemma pushdown_set_batch_frame_witness :
  ∃ e' tr,
    pushdown_set_batch 3 true sample_tree = Some (e', tr)
    ∧ Entity DDS_KIND_PUBLISHER 12 true false
        [Entity DDS_KIND_WRITER 13 true false []] ∈ n_children e'.
Proof.
  destruct (pushdown_set_batch 3 true sample_tree) as [[e' tr]|] eqn:E;
    [|vm_compute in E; discriminate].
  exists e', tr. split; [reflexivity|].
  destruct (pushdown_set_batch_frame 3 true sample_tree e' tr)
    as (_ & _ & _ & _ & _ & Hother & _).
  - exact sample_tree_wf.
  - vm_compute. lia.
  - exact E.
  - apply Hother; simpl; [|discriminate..].
    apply elem_of_cons. right. apply elem_of_cons. by left.
Defined.

(** ** Repeated walks *)

Lemma batch_pushed_twice b1 b2 e :
  batch_pushed b2 (batch_pushed b1 e) = batch_pushed b2 e.
Proof.
  induction e as [k i p b cs IH] using entity_node_induction. simpl.
  f_equal. rewrite map_map. apply map_ext_in. intros c Hc%list_elem_of_In.
  rewrite Forall_forall in IH. specialize (IH c Hc).
  destruct c as [kc ic pc bc csc]. simpl in *.
  destruct pc; [|done]. by destruct kc.
Qed.

Lemma batch_pushed_height enable e :
  height (batch_pushed enable e) = height e.
Proof.
  induction e as [k i p b cs IH] using entity_node_induction. simpl.
  f_equal. induction IH as [|c cs Hc Hcs IHcs]; simpl; [done|].
  rewrite IHcs. f_equal.
  destruct c as [kc ic pc bc csc]. simpl in *.
  destruct pc; [|done]. by destruct kc.
Qed.

Lemma batch_pushed_wf enable e : tree_wf e → tree_wf (batch_pushed enable e).
Proof.
  induction e as [k i p b cs IH] using entity_node_induction.
  intros [[Hpos Huniq] Hsub]. cbn [batch_pushed tree_wf].
  fold (pushed_child enable). split; [split|].
  - intros c' (c & -> & Hc)%list_elem_of_fmap.
    rewrite pushed_child_iid. by apply Hpos.
  - intros c' d' (c & -> & Hc)%list_elem_of_fmap
      (d & -> & Hd)%list_elem_of_fmap.
    rewrite !pushed_child_iid. intros Heq.
    by rewrite (Huniq c d Hc Hd Heq).
  - clear Hpos Huniq. induction IH as [|c cs Hc Hcs IHcs]; simpl; [done|].
    destruct Hsub as [Hwc Hsub]. split; [|by apply IHcs].
    unfold pushed_child. destruct (n_pinnable c); [|done].
    destruct (n_kind c) eqn:Hk; try done; [by apply Hc|].
    destruct c as [kc ic pc bc csc]. exact Hwc.
Qed.

(** X21: the last walk wins: once the tree has been walked with one value
    of the flag, a second walk with any value runs to the end and leaves
    the tree that a single walk with that second value gives; walking
    twice with one value changes nothing the second time. *)
Theorem pushdown_set_batch_twice depth b1 b2 e :
  tree_wf e →
  (height e ≤ depth)%nat →
  ∃ e1 tr1 tr2,
    pushdown_set_batch depth b1 e = Some (e1, tr1)
    ∧ pushdown_set_batch depth b2 e1 = Some (batch_pushed b2 e, tr2)
    ∧ (b1 = b2 → batch_pushed b2 e = e1).
Proof.
  intros Hwf Hh.
  destruct (pushdown_set_batch_computes depth b1 e Hwf Hh) as (tr1 & H1).
  destruct (pushdown_set_batch_computes depth b2 (batch_pushed b1 e))
    as (tr2 & H2).
  - by apply batch_pushed_wf.
  - by rewrite batch_pushed_height.
  - rewrite batch_pushed_twice in H2.
    exists (batch_pushed b1 e), tr1, tr2.
    split; [done|]. split; [done|]. by intros ->.
Qed.

Lemma pushdown_set_batch_twice_witness :
  ∃ e1 tr1 tr2,
    pushdown_set_batch 3 true sample_tree = Some (e1, tr1)
    ∧ pushdown_set_batch 3 false e1 = Some (sample_tree, tr2).
Proof.
  destruct (pushdown_set_batch_twice 3 true false sample_tree)
    as (e1 & tr1 & tr2 & H1 & H2 & _).
  - exact sample_tree_wf.
  - vm_compute. lia.
  - exists e1, tr1, tr2. split; [exact H1|exact H2].
Defined.

(** ** The walk over the registry *)

Lemma foldr_succ_eq_binding_spec next (l : list (Z * dds_domain)) :
  match foldr (succ_eq_binding next) None l with
  | Some kv =>
      kv ∈ l ∧ next <= fst kv
      ∧ ∀ kv', kv' ∈ l → next <= fst kv' → fst kv <= fst kv'
  | None => ∀ kv', kv' ∈ l → fst kv' < next
  end.
Proof.
  induction l as [|a l IH]; simpl.
  - intros kv Hkv. by apply elem_of_nil in Hkv.
  - unfold succ_eq_binding at 1.
    destruct (foldr (succ_eq_binding next) None l) as [kv|].
    + destruct IH as (Hin & Hge & Hmin).
      destruct (next <=? fst a) eqn:Ea;
        [destruct (fst a <? fst kv) eqn:Eac|].
      * split; [left|]. split; [lia|].
        intros kv' [->|Hd]%elem_of_cons Hl; [lia|].
        specialize (Hmin kv' Hd Hl). lia.
      * split; [by right|]. split; [done|].
        intros kv' [->|Hd]%elem_of_cons Hl; [lia|by apply Hmin].
      * split; [by right|]. split; [done|].
        intros kv' [->|Hd]%elem_of_cons Hl; [lia|by apply Hmin].
    + destruct (next <=? fst a) eqn:Ea.
      * split; [left|]. split; [lia|].
        intros kv' [->|Hd]%elem_of_cons Hl; [lia|].
        specialize (IH kv' Hd). lia.
      * intros kv' [->|Hd]%elem_of_cons; [lia|by apply IH].
Qed.

Lemma ddsrt_avl_lookup_succ_eq_spec next (t : gmap Z dds_domain) :
  match ddsrt_avl_lookup_succ_eq next t with
  | Some d =>
      ∃ k, t !! k = Some d ∧ next <= k
           ∧ ∀ k', is_Some (t !! k') → next <= k' → k <= k'
  | None => ∀ k', is_Some (t !! k') → k' < next
  end.
Proof.
  unfold ddsrt_avl_lookup_succ_eq.
  pose proof (foldr_succ_eq_binding_spec next (map_to_list t)) as H.
  destruct (foldr (succ_eq_binding next) None (map_to_list t)) as [[k d]|];
    simpl in *.
  - destruct H as (Hin & Hge & Hmin). exists k.
    split; [by apply elem_of_map_to_list|]. split; [done|].
    intros k' [d' Hk'] Hl. apply (Hmin (k', d')); [|done].
    by apply elem_of_map_to_list.
  - intros k' [d' Hk']. apply (H (k', d')). by apply elem_of_map_to_list.
Qed.

Lemma pending_le_length next l : (pending next l ≤ length l)%nat.
Proof. unfold pending. apply length_filter. Qed.

Lemma pending_step next k d (l : list (Z * dds_domain)) :
  (k, d) ∈ l → next <= k →
  (pending (k + 1) l < pending next l)%nat.
Proof.
  unfold pending. intros Hd Hl.
  induction l as [|a l IH]; [by apply elem_of_nil in Hd|].
  assert (Hmono : (length (filter (λ kv, (k + 1 <= fst kv)%Z) l)
                   ≤ length (filter (λ kv, (next <= fst kv)%Z) l))%nat).
  { clear -Hl. induction l as [|a l IH]; [done|].
    rewrite !filter_cons. repeat case_decide; simpl; lia. }
  rewrite !filter_cons.
  apply elem_of_cons in Hd as [<-|Hd].
  - simpl. rewrite decide_False by lia. rewrite decide_True by lia.
    simpl. lia.
  - specialize (IH Hd). repeat case_decide; simpl; lia.
Qed.

Lemma top_pushed_iid enable c : n_iid (top_pushed enable c) = n_iid c.
Proof.
  unfold top_pushed. destruct (n_pinnable c); [apply batch_pushed_iid|done].
Qed.

(** The inner loop over the children of one domain. *)
Lemma walk_domain_children depth enable cs :
  children_wf cs →
  (∀ c, c ∈ cs → tree_wf c ∧ (height c ≤ depth)%nat) →
  ∃ tr,
    walk_children (pushdown_set_batch depth enable) MxGlobal (length cs) cs 0
    = Some (map (top_pushed enable) cs, tr).
Proof.
  intros [Hpos Huniq] Hsub.
  destruct (walk_children_result (pushdown_set_batch depth enable) MxGlobal
              (top_pushed enable) cs)
    with (fuel := length cs) (last := 0) as (tr & Hwalk).
  - exact Huniq.
  - intros c _. apply top_pushed_iid.
  - intros c _ Hp. unfold top_pushed. by rewrite Hp.
  - intros c Hc Hp. unfold top_pushed. rewrite Hp.
    destruct (Hsub c Hc) as [Hwf Hh]. by apply pushdown_set_batch_computes.
  - apply remaining_le_length.
  - assert (map (passed (top_pushed enable) 0) cs = cs) as Hstart.
    { rewrite <- (map_id cs) at 2. apply map_ext_in.
      intros d Hd%list_elem_of_In. unfold passed.
      specialize (Hpos d Hd). destruct (n_iid d <=? 0) eqn:E; [lia|done]. }
    rewrite Hstart in Hwalk. by exists tr.
Qed.

Lemma write_set_batch_domains_result depth enable doms kids :
  batch_registry_wf doms →
  batch_children_wf depth doms kids →
  ∀ fuel next,
    0 <= next →
    (pending next (map_to_list doms) ≤ fuel)%nat →
    ∃ tr,
      write_set_batch_domains depth enable fuel (domains_at enable next doms)
        (children_at enable next doms kids) next
      = Some (set_config_whc_batch enable <$> doms,
              children_walked enable doms kids, tr).
Proof.
  intros Hreg Hkids.
  assert (Hdone : ∀ next,
            (∀ k', is_Some (domains_at enable next doms !! k') → k' < next) →
            domains_at enable next doms = set_config_whc_batch enable <$> doms
            ∧ children_at enable next doms kids
              = children_walked enable doms kids).
  { intros next Hall.
    assert (Hlt : ∀ k, is_Some (doms !! k) → (k <? next) = true).
    { intros k [d Hk]. apply Z.ltb_lt, Hall. unfold domains_at.
      rewrite map_lookup_imap, Hk. by eexists. }
    split; apply map_eq; intros k.
    - unfold domains_at. rewrite map_lookup_imap, lookup_fmap.
      destruct (doms !! k) as [d|] eqn:Hk; simpl; [|done].
      by rewrite (Hlt k) by (by eexists).
    - unfold children_at, children_walked. rewrite !map_lookup_imap.
      destruct (kids !! k) as [cs|]; simpl; [|done].
      case_bool_decide as Hs; [|by rewrite andb_false_r].
      by rewrite (Hlt k Hs). }
  induction fuel as [|fuel IH]; intros next Hnext Hpend; simpl;
    pose proof (ddsrt_avl_lookup_succ_eq_spec next (domains_at enable next doms))
      as Hspec;
    destruct (ddsrt_avl_lookup_succ_eq next (domains_at enable next doms))
      as [dom|] eqn:E.
  2,4: destruct (Hdone next Hspec) as [-> ->]; by eexists.
  all: destruct Hspec as (k & Hk & Hge & Hmin);
       unfold domains_at in Hk; rewrite map_lookup_imap in Hk;
       destruct (doms !! k) as [d0|] eqn:Hk0; simpl in Hk; [|done];
       assert ((k <? next) = false) as Hkn by lia; rewrite Hkn in Hk;
       injection Hk as <-;
       destruct (Hreg k d0 Hk0) as [Hid Hrange];
       assert (Hin : (k, d0) ∈ map_to_list doms)
         by (by apply elem_of_map_to_list).
  - pose proof (pending_step next k d0 _ Hin Hge). lia.
  - rewrite Hid.
    assert (wrap_u32 (k + 1) = k + 1) as ->
      by (unfold wrap_u32; apply Z.mod_small; lia).
    assert (Hmin' : ∀ j, is_Some (doms !! j) → next <= j → k <= j).
    { intros j [dj Hj] Hl. apply Hmin; [|done]. unfold domains_at.
      rewrite map_lookup_imap, Hj. by eexists. }
    assert (Hkids_k : children_at enable next doms kids !! k = kids !! k).
    { unfold children_at. rewrite map_lookup_imap.
      destruct (kids !! k); simpl; [|done]. by rewrite Hkn. }
    rewrite Hkids_k.
    assert (Hdoms' : <[k := set_config_whc_batch enable d0]>
                       (domains_at enable next doms)
                     = domains_at enable (k + 1) doms).
    { apply map_eq. intros j. unfold domains_at.
      rewrite lookup_insert, !map_lookup_imap. case_decide as Hj.
      - subst j. rewrite Hk0. simpl.
        by assert ((k <? k + 1) = true) as -> by lia.
      - destruct (doms !! j) as [dj|] eqn:Hdj; simpl; [|done].
        destruct (j <? next) eqn:E1, (j <? k + 1) eqn:E2; try done; try lia.
        assert (k <= j) by (apply Hmin'; [by eexists|lia]). lia. }
    rewrite Hdoms'.
    assert (Hfuel : (pending (k + 1) (map_to_list doms) ≤ fuel)%nat)
      by (pose proof (pending_step next k d0 _ Hin Hge); lia).
    destruct (IH (k + 1) ltac:(lia) Hfuel) as (tr' & Hrest).
    destruct (kids !! k) as [cs|] eqn:Hcs; simpl.
    + destruct (Hkids k cs) as [Hcwf Hsub]; [by eexists|done|].
      destruct (walk_domain_children depth enable cs Hcwf Hsub) as (tr & ->).
      assert (<[k := map (top_pushed enable) cs]>
                (children_at enable next doms kids)
              = children_at enable (k + 1) doms kids) as ->.
      { apply map_eq. intros j. unfold children_at.
        rewrite lookup_insert, !map_lookup_imap. case_decide as Hj.
        - subst j. rewrite Hcs. simpl.
          assert ((k <? k + 1) = true) as -> by lia.
          rewrite bool_decide_true by (by eexists). done.
        - destruct (kids !! j) as [csj|] eqn:Hcj; simpl; [|done].
          destruct (j <? next) eqn:E1, (j <? k + 1) eqn:E2; try done; try lia.
          simpl. case_bool_decide as Hs; [|done].
          assert (k <= j) by (apply Hmin'; [done|lia]). lia. }
      rewrite Hrest. by eexists.
    + assert (children_at enable next doms kids
              = children_at enable (k + 1) doms kids) as ->.
      { apply map_eq. intros j. unfold children_at.
        rewrite !map_lookup_imap.
        destruct (kids !! j) as [csj|] eqn:Hcj; simpl; [|done].
        destruct (j <? next) eqn:E1, (j <? k + 1) eqn:E2; try done; try lia.
        simpl. case_bool_decide as Hs; [|done].
        assert (k <= j) by (apply Hmin'; [done|lia]).
        assert (j = k) by lia. congruence. }
      rewrite Hrest. by eexists.
Qed.

(** X22: on a registry whose ids lie below the sentinel and whose entity
    trees are well formed, [dds_write_set_batch] runs to the end, sets
    [whc_batch] in the configuration of every domain and changes nothing
    else in any domain, and walks the children of every domain entity:
    each child that can be pinned is left as [pushdown_set_batch] leaves
    it.  When [dds_init] fails nothing at all is touched. *)
Theorem dds_write_set_batch_result depth enable r_init doms kids :
  batch_registry_wf doms →
  batch_children_wf depth doms kids →
  (r_init < 0 →
   dds_write_set_batch depth enable r_init doms kids
   = Some (doms, kids, [WkDdsInit]))
  ∧ (0 <= r_init →
     ∃ tr,
       dds_write_set_batch depth enable r_init doms kids
       = Some (set_config_whc_batch enable <$> doms,
               children_walked enable doms kids, tr)).
Proof.
  intros Hreg Hkids. unfold dds_write_set_batch. split; intros Hr.
  - by destruct (r_init <? 0) eqn:E; [|lia].
  - destruct (r_init <? 0) eqn:E; [lia|].
    destruct (write_set_batch_domains_result depth enable doms kids Hreg Hkids
                (size doms) 0) as (tr & Hloop); [lia| |].
    + rewrite <- length_map_to_list. apply pending_le_length.
    + assert (domains_at enable 0 doms = doms) as Hd0.
      { apply map_eq. intros k. unfold domains_at. rewrite map_lookup_imap.
        destruct (doms !! k) as [d|] eqn:Hk; simpl; [|done].
        destruct (Hreg k d Hk) as [_ Hrange].
        by assert ((k <? 0) = false) as -> by lia. }
      assert (children_at enable 0 doms kids = kids) as Hk0.
      { apply map_eq. intros k. unfold children_at. rewrite map_lookup_imap.
        destruct (kids !! k) as [cs|] eqn:Hk; simpl; [|done].
        case_bool_decide as Hs; [|by rewrite andb_false_r].
        destruct Hs as [d Hd]. destruct (Hreg k d Hd) as [_ Hrange].
        by assert ((k <? 0) = false) as -> by lia. }
      rewrite Hd0, Hk0 in Hloop. rewrite Hloop. by eexists.
Qed.

Lemma dds_write_set_batch_result_witness :
  ∃ tr,
    dds_write_set_batch 3 true 0
      (<[7 := open_domain 7 4]> {[ 5 := open_domain 5 3 ]})
      {[ 5 := [sample_tree] ]}
    = Some (set_config_whc_batch true
              <$> (<[7 := open_domain 7 4]> {[ 5 := open_domain 5 3 ]}),
            {[ 5 := [batch_pushed true sample_tree] ]}, tr).
Proof.
  destruct (dds_write_set_batch_result 3 true 0
              (<[7 := open_domain 7 4]> {[ 5 := open_domain 5 3 ]})
              {[ 5 := [sample_tree] ]}) as [_ Hok].
  - intros k d. rewrite lookup_insert. case_decide as Hk.
    + intros [= <-]; subst; simpl; lia.
    + intros [<- <-]%lookup_singleton_Some; simpl; lia.
  - intros k cs _ [<- <-]%lookup_singleton_Some. split.
    + split.
      * intros c ->%list_elem_of_singleton. simpl. lia.
      * by intros c d ->%list_elem_of_singleton ->%list_elem_of_singleton.
    + intros c ->%list_elem_of_singleton. split; [exact sample_tree_wf|].
      vm_compute. lia.
  - destruct (Hok ltac:(lia)) as (tr & Hcall). exists tr.
    rewrite Hcall. apply f_equal. apply (f_equal (λ p, (p, tr))).
    apply f_equal. vm_compute. reflexivity.
Defined.




(** ** Further concrete inputs *)

Lemma failed_init_restores_count_witness :
  ∃ dom w',
    dds_domain_init dds_alloc 5 (CFGKIND_RAW config_monitoring) false
      rtps_start_fails empty_world = Returned (DDS_RETCODE_ERROR, dom, w')
    ∧ threadmon_count (glob w') = 0.
Proof.
  destruct (dds_domain_init dds_alloc 5 (CFGKIND_RAW config_monitoring) false
              rtps_start_fails empty_world) as [[[domh dom] w']|] eqn:E;
    [|vm_compute in E; discriminate].
  assert (domh = DDS_RETCODE_ERROR) as ->.
  { apply (f_equal (λ r, match r with
                         | Returned (h, _, _) => h
                         | AssertFailed => 0
                         end)) in E.
    vm_compute in E. symmetry. exact E. }
  exists dom, w'. split; [reflexivity|].
  rewrite (failed_init_restores_count _ _ _ _ _ _ _ _ _ E).
  - reflexivity.
  - vm_compute. reflexivity.
  - vm_compute. split; [discriminate|reflexivity].
  - intros _. reflexivity.
Defined.

Lemma cached_sertype_is_returned_witness :
  ∃ r,
    dds_resolve_type (TypeIdHash 4) 0 (Some None)
      (mk_wft_env 0
         (Some (domain_with_type 4 (mk_type (Some 7%nat) false false None)))
         false 0 unresolved_type []) = Some r
    ∧ wr_rc r = DDS_RETCODE_OK
    ∧ wr_sertype r = Some (Some 7%nat).
Proof.
  eexists. split.
  - apply (cached_sertype_is_returned 4 0 None
             (mk_wft_env 0
                (Some (domain_with_type 4
                         (mk_type (Some 7%nat) false false None)))
                false 0 unresolved_type [])
             (domain_with_type 4 (mk_type (Some 7%nat) false false None))
             (mk_type (Some 7%nat) false false None) 7%nat).
    + vm_compute. discriminate.
    + reflexivity.
    + vm_compute. reflexivity.
    + reflexivity.
  - split; reflexivity.
Defined.
